(* ===== verification/_CoqProject ===== *)
-Q . S2P
Prelude.v
Derivative.v
Smoother.v
Classifier.v
Regime.v
Summary.v
Orchestrator.v
NumpyInt.v
LoopSteps.v
Loading.v
Csv.v
LoadText.v
Packaging.v
Script.v
