(* ===== verification/Prelude.v ===== *)
(** * Oscillator classification: a verified model

    The repository classifies strategy-frequency time series produced by
    agent simulations.  Its code under [src/] is the class
    [Experiment_Per_Cycle_Analysis] of
    [src/oscillator_classification/multi_sim_analysis.py], the module's
    top level (imports and a [__main__] block), and the packaging script
    [src/setup.py].  The numerical helpers the class calls through [ipc]
    live in a module [single_sim_analysis] that is not under [src/] and
    is modelled from the spec (sections 4.1-4.4, 9).

    ** How the program works, and where each part is modelled

    A run reads two CSV tables (per-cycle rows and parameters), keeps the
    rows at generation boundaries, groups them by [(sim_id, org)], and for
    each group differentiates, smooths and classifies the series, tracks
    its min/max regimes and appends one summary row to an output CSV.

    - [Derivative.v], module [Derivative]: [ipc.aprox_derv_central], a
      central difference with one-sided fallbacks at the two ends
      ([derv_at], [aprox_derv_central]), and the code's two calls of it
      (lines 74 and 76): [first_derivative] and [second_derivative] (the
      second applied to the unsmoothed first derivative, as line 76 does).
    - [Smoother.v], module [Smoother]: [ipc.savitzky_golay]: the
      least-squares fit ([sg_fit], solving the normal equations exactly
      over [Q] by Gauss-Jordan elimination) and its coefficients
      ([sg_coeffs]), mirror padding ([mirror_pad]), the sliding dot
      product ([convolve_valid]), the guards raising
      [InvalidWindowError], and the code's call [smooth_column] (window 3,
      order 1, lines 75 and 77), which is the three-point moving average
      of the padded series ([moving_average3]).
    - [Classifier.v], module [Classifier]: [ipc.inflection_point_classifaction]
      ([classify_point] at an interior row, [classify_at], one label per
      row), [ipc.plotable_points], and the code's call [classify_frame]
      (sensitivity 0.01, lines 71 and 80).
    - [Regime.v], module [Regime]: the three passes
      [min_max_flip_by_gen], [time_as_min_max], [min_max_filter] (lines
      84-87, together [regime_columns]), and the one-pass accumulator of
      spec 9 ([tracker], [track_step], [track]) with its step relation
      [tstep] and reachability [reachable].
    - [Summary.v], module [Summary]: [run_classifacation_algorithm]
      (lines 69-108) composed from the parts above ([classification_frame]
      with its shape [frame_wf], [flip_time_stats], [number_of_inf_points],
      [magnitude_stats]) and [nash] (lines 62-67).  pandas' and numpy's
      statistics are modelled with their NaN results ([None]):
      [mean_nan], [pd_var] (ddof 1), [np_var] (ddof 0); a standard
      deviation is kept as its radicand ([sqrtQ]), since [Q] has no square
      roots.
    - [Orchestrator.v], module [Orchestrator]: the constructor and
      [loop_through_sims]: the boundary filter ([by_gen_filter],
      [per_gen_data_format], lines 42-60), [groupby] by [(sim_id, org)]
      (line 112), and the output file as explicit state ([fs_entry],
      [csv_line], [create_csv], [append_data], [init_output], lines
      11-41); the loop [loop_groups] is defined in a Section over any
      per-series analysis (the interface between the orchestrator and the
      summarizer) and instantiated with [run_classifacation_algorithm]
      ([loop_through_sims], [run_analysis]); repeated invocations on one
      output path thread the file ([run_seq]).
    - [LoopSteps.v], module [LoopSteps]: the same loop (lines 113-115) as
      a transition system: configurations [conf] (groups still to visit,
      output file, exception raised), one iteration per step ([red], and
      the executable [loop_step]).
    - [Loading.v], module [Loading]: [pd.read_csv] of the two inputs
      (lines 12-13: [input_entry], [read_csv]) and every column access of
      the code with its [KeyError] ([column], [by_gen_filter_access],
      [per_gen_data_format_access], [analyse_access],
      [loop_through_sims_access]), composed in the code's order as
      [run_loaded].
    - [NumpyInt.v], module [NumpyInt]: numpy's [int64] remainder
      ([np_remainder]), the [%] of the boundary test (lines 45 and 47).
    - [Csv.v], module [Csv]: the text of the output file as
      [csv.writer(f).writerow] writes it (lines 37-41: [quote_field],
      [writerow], [str_Z] for integer fields; the text of floats is a
      parameter), and the tokenizer of [pd.read_csv] as a state machine
      over characters ([tokenizer], [tok_char], [parse_csv]).
    - [LoadText.v], module [LoadText]: [pd.read_csv] from the text of
      each input file: the header and records of the tokenizer, each
      field converted as pandas' parser converts it ([classify]: the
      default NA strings, [int64] integers, floats with fraction and
      exponent, infinities, booleans, strings), the dtype inferred for
      each column ([dtype_of]), the tables the model's rows represent
      ([decode_cycle], [decode_param]), the errors of the read
      ([load_text]: [FileNotFoundError], [IsADirectoryError],
      [ParserError], [EmptyDataError]), and the program run on the texts
      of its two inputs ([run_text], composed with [Loading.run_loaded]).
    - [Packaging.v], module [Packaging]: [src/setup.py]: the README read,
      the arguments of [setup], and setuptools' [find_packages] walking an
      explicit source tree ([dir_tree], [find_in], [find_packages]), with
      the modules a distribution installs ([installed_modules]).
    - [Script.v], module [Script]: executing [multi_sim_analysis.py]: the
      imports (lines 2-7) over an environment of importable modules
      ([exec_imports]), the class statement, and the [__main__] block
      ([exec_module]).
    - This file: the error type ([err]) and result type with its [let*]
      notation, boolean comparisons on [Q] ([x [<=] y], [x [<] y]) and the
      tactics [qb], [qsolve], [case_q] that reflect them for [lra], sums
      ([qsum]), pointwise equality of sequences ([Qlist_eq], a setoid
      with [Proper] instances for the list operations and the
      comparisons), boolean masks ([select], [count_true]), names
      ([string_in]), transition sequences ([star], [starN], [irred], and
      the all-paths [eventually] of liveness), list lemmas, and the hint
      database [osc].  Each component file adds the [Proper] instances of
      its own operations, so that the models can be rewritten up to
      [Qeq].

    Numbers are rationals ([Q]): the Python floats are modelled by exact
    arithmetic, so rounding is not modelled; every definition is
    executable and the concrete runs are checked by [vm_compute].

    ** What the theorems show (claims C1-C31)

    - The summarizer (Summary): a strictly increasing series is stable
      with zero flips and zero magnitudes (C1); the summarizer answers on
      every series of 3 or more points and raises [InvalidWindowError]
      exactly on shorter ones (C2); the flip count is the number of rows
      both flipped and counted (C3), and at most the number of extrema
      minus one (C20); negating the series leaves the row unchanged
      (C23), a symmetry that runs through every component: the
      derivative and the smoother are odd, the classifier swaps [min] and
      [max], and the flips do not depend on the names of the types (one
      transfer lemma, [Summary.run_classification_transfer]).  Every
      statistic is NaN or nonnegative, so each standard deviation is a
      real number (C25); the sensitivities decide the verdict only,
      monotonically (C26); the frame is a table whose columns all have
      the series' length (C31).
    - Findings, proved: one extremum makes the magnitudes NaN and the
      verdict 0 although spec 4.5 defines them as 0 (C5); the flip-time
      statistics are constant, mean 1 and variance 0 (C6, from C15);
      every series alternating at every step, whatever its length (6 or
      more) and amplitude, is invisible to the central difference: no
      flip is counted, and it is judged unstable with NaN magnitudes when
      the amplitude exceeds 0.06 and like a flat series otherwise, where
      spec 8 expects flips of the series' amplitude (C7); the loop does
      not catch per-series errors: it writes the rows of the leading
      groups of 3 or more rows and stops with [InvalidWindowError] at the
      first shorter one (C27); a missing column raises [KeyError] only
      where it is first read, so a table without [cycle] loads when no
      row is a [krat] or a [snake] (C30); running the file raises
      [ModuleNotFoundError] ([single_sim_analysis] is not installed) or
      [NameError] ([main] is not defined) (C28).  The concrete series of
      spec 8 are evaluated in [Summary.spec_example_series] (the
      scenario's mean flip magnitude is 2, not 1.0; a staircase with no
      flip is judged unstable), and the distribution of [src/setup.py]
      installs no module, since the package has no [__init__.py]
      ([Packaging.setup_installs_nothing]).
    - The components: exactness of the first derivative on lines (C8)
      and of the second derivative on parabolas (C9); smoothing keeps
      constants for every odd window up to 11 and every order below it
      (C10, the coefficient table being checked by evaluation); the
      smoother raises exactly on its guards and otherwise keeps the length
      (C18); every window reproduces lines away from the ends, and the
      code's smoothing is exact inside a line and biased by 2/3 of the
      slope at its ends (C19); the classifier's noise threshold and no
      two adjacent equal extrema (C11), and monotonicity in the
      sensitivity (C13); the one-pass accumulator refines the three
      passes (C4); flips alternate (C14), all flips but the first are
      counted and counted rows have duration 1 (C15), durations count the
      rows since the last flip (C16).
    - The run: the boundary filter is the declarative predicate of spec 9
      and an empty parameter table selects no row (C17); the rows
      written are keyed by their groups in [groupby] order (C22); over
      any sequence of invocations on one path the header stays exactly
      once, first, and a re-run appends every row again (C24).  When
      every group has 3 or more rows every execution of the loop as a
      transition system eventually writes each group's line, which stays
      (C29).  The run on loaded tables with all columns is the run on
      their rows (C30), and the run on the texts of input files written
      from rows is the analysis of those rows, with the errors of a
      missing or directory input and the per-cycle file read first (C12).
    - Library lemmas the claims rest on, stated for the models of the
      libraries the code calls: [groupby] partitions the rows and sorts
      the groups by key ([Orchestrator.groupby_partition]); numpy's
      [int64] remainder of the boundary test is [Z.modulo] and never
      overflows ([NumpyInt.numpy_remainder_mod]); reading the text
      [csv.writer] writes gives back every row ([Csv.csv_roundtrip]) and
      the output file reads back into the header and the summaries
      (C21); [pd.read_csv] of files written from rows gives back the rows
      with the column types pandas infers
      ([LoadText.per_cycle_file_roundtrip]); the loop as a transition
      system terminates within as many steps as there are groups in the
      big-step loop's result ([LoopSteps.loop_steps_terminate]); the
      one-pass accumulator's reachable states are characterized by an
      invariant ([Regime.reachable_iff], by rule induction).

    ** Bounds and fuel

    No definition needs fuel: every recursion is structural, and the
    termination of the loop as a transition system is a lemma
    ([LoopSteps.loop_steps_terminate]), bounded by the number of groups.
    The smoother's fit is verified by evaluation ([sg_table_ok]) for odd
    windows up to 11 points and every order up to the window (the fit is
    singular exactly at order = window; the smoothing row sums to 1 and
    has a zero first moment): enough for the code's window 3 and for the
    windows such series of tens to thousands of points use.  The
    statements of C10 and C18 carry this bound as a hypothesis.

    ** Not modelled

    Input tables whose columns do not have the types of the model's rows
    ([LoadText.load_text] gives [None] for them): a [float64] or
    [object] integer column (for instance a [cycle] column with an empty
    field, which pandas reads as NaN), an NA or non-string organism, an
    NA or infinite value, a repeated or empty column name, a record
    longer than the header (pandas then uses the first column as index),
    a number with spaces around it (pandas' parser skips them; the model
    reads such a field as a string, so its column is not numeric).
    The text of floats ([repr()]), a parameter of the output file's
    text; floating-point rounding (a float field is read as its exact
    decimal value) and the numeric value of square roots.  No claim
    depends on exactness where float64 differs: the symmetry under
    negation (C23) holds in IEEE arithmetic too, whereas invariance under
    adding a constant, true of the exact model, is not stated since
    float64 rounding breaks it.  The commented-out line 85 (an earlier
    [time_as_max_min] by [cumcount]) is not executed and not modelled;
    the active line 86 is.  Plotting, which the spec names and the code
    under [src/] does not contain. *)

From Stdlib Require Import ZArith QArith Qabs Lqa List Bool Lia Morphisms Setoid.
From Stdlib Require String.
Import ListNotations.

Declare Scope osc_scope.
Delimit Scope osc_scope with osc.
Open Scope Q_scope.

(** ** Errors raised by the pipeline *)

(** The exceptions the modelled code can raise: [InvalidWindowError] is
    the smoother's configuration error (spec 7); [IsADirectoryError] and
    [FileNotFoundError] are raised by [open] and [pd.read_csv];
    [KeyError] by a missing column; [ModuleNotFoundError] by an [import]
    of a module that is not installed; [NameError] by a name that is not
    bound; [ParserError] by pandas' CSV tokenizer on malformed text;
    [EmptyDataError] by [pd.read_csv] on a file without any line. *)
Inductive err : Type :=
| InvalidWindowError
| IsADirectoryError
| FileNotFoundError
| KeyError
| ModuleNotFoundError
| NameError
| ParserError
| EmptyDataError.

(** A computation of the pipeline either returns a value or raises. *)
Inductive result (A : Type) : Type :=
| Ok (a : A)
| Err (e : err).

Arguments Ok {A} a.

Arguments Err {A} e.

Notation "'let*' x ':=' c 'in' k" :=
  (match c with Ok x => k | Err e => Err e end)
  (at level 10, x name, c at level 100, k at level 200) : osc_scope.

(** ** Boolean comparisons on rationals, as the Python comparisons *)

Definition Qltb (x y : Q) : bool := negb (Qle_bool y x).

Notation "x [<=] y" := (Qle_bool x y) (at level 70, no associativity) : osc_scope.

Notation "x [<] y" := (Qltb x y) (at level 70, no associativity) : osc_scope.

Open Scope osc_scope.

(** ** Sums of rationals *)

Definition qsum (l : list Q) : Q := fold_right Qplus 0 l.

(** The length of a list as a rational, the [len(...)] of the code. *)
Definition qlen {A} (l : list A) : Q := inject_Z (Z.of_nat (length l)).

(** ** Pointwise equality of rational sequences *)

(** Two sequences are equal as sequences of numbers when they agree
    pointwise up to [Qeq]: the model is insensitive to how a rational is
    written, as the real-number code is. *)
Definition Qlist_eq : list Q -> list Q -> Prop := Forall2 Qeq.

(** ** Hint database of the development *)

Create HintDb osc discriminated.

(** ** Lists indexed as arrays *)

(** Strictly increasing sequences, as a boolean test on adjacent values
    (executable) and its index form. *)
Fixpoint strictly_increasing (l : list Q) : bool :=
  match l with
  | x :: ((y :: _) as l') => (x [<] y) && strictly_increasing l'
  | _ => true
  end.

(** ** Natural numbers as rationals *)

(** An index or a count used in rational arithmetic. *)
Definition qnat (k : nat) : Q := inject_Z (Z.of_nat k).

(** ** Boolean masks, as pandas' [df[mask]] and [mask.sum()] *)

(** The elements of [l] where [mask] is true, in order. *)
Fixpoint select {A} (mask : list bool) (l : list A) : list A :=
  match mask, l with
  | b :: m, x :: l' => if b then x :: select m l' else select m l'
  | _, _ => []
  end.

(** The number of true entries of a mask. *)
Definition count_true (mask : list bool) : nat := length (filter (fun b => b) mask).

(** Pointwise conjunction of two masks, [m1 & m2]. *)
Fixpoint zip_and (m1 m2 : list bool) : list bool :=
  match m1, m2 with
  | a :: m1', b :: m2' => (a && b) :: zip_and m1' m2'
  | _, _ => []
  end.

(** ** Names *)

(** Membership of a name in a list of names, Python's [x in l]. *)
Definition string_in (a : String.string) (l : list String.string) : bool :=
  existsb (String.eqb a) l.

(** ** Transition sequences

    The loops of the program are also given as transition relations; the
    sequences of transitions follow Leroy's [Sequences] library: [star]
    (any number of steps), [starN] (exactly [n] steps), [irred] (no step
    applies), and, for liveness, [eventually P a]: every sequence of
    transitions from [a] reaches a state satisfying [P] (a state that
    cannot step before reaching [P] does not satisfy it). *)

Section SequenceDefs.

Context {A : Type} (R : A -> A -> Prop).

Inductive star : A -> A -> Prop :=
| star_refl a : star a a
| star_step a b c : R a b -> star b c -> star a c.

Inductive starN : nat -> A -> A -> Prop :=
| starN_refl a : starN 0 a a
| starN_step n a b c : R a b -> starN n b c -> starN (S n) a c.

Definition irred (a : A) : Prop := forall b, ~ R a b.

Inductive eventually (P : A -> Prop) : A -> Prop :=
| ev_now a : P a -> eventually P a
| ev_step a : (exists b, R a b) -> (forall b, R a b -> eventually P b) -> eventually P a.

End SequenceDefs.

(** ** Boolean comparisons on rationals, as the Python comparisons *)

Lemma Qltb_iff x y : (x [<] y) = true <-> x < y.
Proof.
  unfold Qltb. rewrite negb_true_iff.
  split; intro H.
  - apply Qnot_le_lt. intro H'. apply Qle_bool_iff in H'. congruence.
  - destruct (Qle_bool y x) eqn:E; [|reflexivity].
    apply Qle_bool_iff in E. exfalso. apply (Qlt_not_le x y); assumption.
Qed.

Lemma Qleb_false x y : (x [<=] y) = false <-> y < x.
Proof.
  split; intro H.
  - apply Qnot_le_lt. intro H'. apply Qle_bool_iff in H'. congruence.
  - destruct (Qle_bool x y) eqn:E; [|reflexivity].
    apply Qle_bool_iff in E. exfalso. apply (Qlt_not_le y x); assumption.
Qed.

Lemma Qltb_false x y : (x [<] y) = false <-> y <= x.
Proof.
  unfold Qltb. rewrite negb_false_iff. apply Qle_bool_iff.
Qed.

(** [qb] turns every boolean comparison in the hypotheses into the
    proposition it decides; [qsolve] then closes the goal by [lra]. *)
Ltac qb :=
  repeat match goal with
  | H : Qle_bool _ _ = true |- _ => apply Qle_bool_iff in H
  | H : Qle_bool _ _ = false |- _ => apply Qleb_false in H
  | H : Qltb _ _ = true |- _ => apply Qltb_iff in H
  | H : Qltb _ _ = false |- _ => apply Qltb_false in H
  | H : (_ && _)%bool = true |- _ => apply andb_true_iff in H; destruct H
  end.

Ltac qsolve := qb; lra.

(** [case_q] splits on a boolean comparison of the goal, reflecting it. *)
Ltac case_q :=
  match goal with
  | |- context [Qle_bool ?x ?y] =>
      let E := fresh "E" in destruct (Qle_bool x y) eqn:E; qb
  | |- context [Qltb ?x ?y] =>
      let E := fresh "E" in destruct (Qltb x y) eqn:E; qb
  end.

(** The boolean comparisons depend only on the values compared. *)
#[export] Instance Qle_bool_Proper : Proper (Qeq ==> Qeq ==> eq) Qle_bool.
Proof.
  intros x x' Hx y y' Hy.
  destruct (Qle_bool x y) eqn:E, (Qle_bool x' y') eqn:E'; qb; try reflexivity; exfalso; lra.
Qed.

#[export] Instance Qltb_Proper : Proper (Qeq ==> Qeq ==> eq) Qltb.
Proof. intros x x' Hx y y' Hy. unfold Qltb. rewrite Hx, Hy. reflexivity. Qed.

Lemma Qsq_nonneg x : 0 <= x * x.
Proof.
  destruct (Qlt_le_dec x 0) as [H|H].
  - setoid_replace (x * x) with ((- x) * (- x)) by ring. apply Qmult_le_0_compat; lra.
  - apply Qmult_le_0_compat; assumption.
Qed.

Lemma Qdiv_nonneg a c : 0 <= a -> 0 < c -> 0 <= a / c.
Proof. intros Ha Hc. apply Qle_shift_div_l; [assumption | lra]. Qed.

(** ** Sums of rationals *)

Lemma qsum_cons x l : qsum (x :: l) = x + qsum l.
Proof. reflexivity. Qed.

Lemma qsum_app l1 l2 : qsum (l1 ++ l2) == qsum l1 + qsum l2.
Proof.
  induction l1 as [|x l1 IH]; simpl; [lra|].
  unfold qsum in *. simpl. rewrite IH. lra.
Qed.

Lemma qsum_nonneg l : Forall (fun x => 0 <= x) l -> 0 <= qsum l.
Proof.
  induction 1; simpl; [lra|]. unfold qsum in *. simpl. lra.
Qed.

Lemma qsum_repeat c n : qsum (repeat c n) == inject_Z (Z.of_nat n) * c.
Proof.
  induction n as [|n IH]; [unfold qsum; simpl; ring|].
  unfold qsum in *. simpl repeat. simpl fold_right. rewrite IH.
  rewrite Nat2Z.inj_succ, <- Z.add_1_r, inject_Z_plus.
  change (inject_Z 1) with 1. ring.
Qed.

(** A pointwise identity up to [==] leaves the sum unchanged. *)
Lemma qsum_map_Qeq (f : Q -> Q) l : (forall x, f x == x) -> qsum (map f l) == qsum l.
Proof.
  intro Hf. induction l as [|x l IH]; [reflexivity|].
  cbn [map]. rewrite !qsum_cons, IH, Hf. reflexivity.
Qed.

(** Sums of a function over a list of indices are linear. *)
Lemma qsum_map_ext {A} (f g : A -> Q) l :
  (forall j, In j l -> f j == g j) -> qsum (map f l) == qsum (map g l).
Proof.
  induction l as [|j l IH]; intro H; [reflexivity|]. cbn [map]. rewrite !qsum_cons.
  rewrite (H j (or_introl eq_refl)), IH; [reflexivity|]. intros k Hk. apply H. right. assumption.
Qed.

Lemma qsum_map_plus {A} (f g : A -> Q) l :
  qsum (map (fun j => f j + g j) l) == qsum (map f l) + qsum (map g l).
Proof. induction l as [|j l IH]; [unfold qsum; simpl; ring|]. cbn [map]. rewrite !qsum_cons, IH. ring. Qed.

Lemma qsum_map_scale {A} (k : Q) (f : A -> Q) l :
  qsum (map (fun j => k * f j) l) == k * qsum (map f l).
Proof. induction l as [|j l IH]; [unfold qsum; simpl; ring|]. cbn [map]. rewrite !qsum_cons, IH. ring. Qed.

Lemma qlen_cons {A} (x : A) l : qlen (x :: l) == qlen l + 1.
Proof.
  unfold qlen. simpl length. rewrite Nat2Z.inj_succ, <- Z.add_1_r, inject_Z_plus.
  reflexivity.
Qed.

Lemma qlen_pos {A} (l : list A) : l <> [] -> 0 < qlen l.
Proof.
  intro H. destruct l as [|x l]; [congruence|].
  unfold qlen. simpl length. unfold Qlt. simpl. lia.
Qed.

(** ** Pointwise equality of rational sequences *)

#[export] Instance Qlist_eq_Equivalence : Equivalence Qlist_eq.
Proof.
  split.
  - intro l. induction l; constructor; [reflexivity | assumption].
  - intros l1 l2 H. induction H; constructor; [symmetry|]; assumption.
  - intros l1 l2 l3 H12. revert l3.
    induction H12 as [|x y l1 l2 Hxy _ IH]; intros l3 H23;
      inversion H23 as [|y' z l2' l3' Hyz H23']; subst; constructor.
    + transitivity y; assumption.
    + apply IH; assumption.
Qed.

#[export] Instance qsum_Proper : Proper (Qlist_eq ==> Qeq) qsum.
Proof.
  intros l1 l2 H. induction H; simpl; [reflexivity|].
  unfold qsum in *. simpl. rewrite H, IHForall2. reflexivity.
Qed.

(** ** Hint database of the development *)

#[export] Hint Resolve qsum_nonneg qlen_pos : osc.

#[export] Hint Constructors Forall Forall2 : osc.

(** ** Lists indexed as arrays *)

(** [map g (seq 0 n)] is the array [g 0, ..., g (n-1)] that a Python
    comprehension over [range(n)] builds. *)
Lemma nth_map_seq {A} (g : nat -> A) n i d :
  (i < n)%nat -> nth i (map g (seq 0 n)) d = g i.
Proof.
  intro H. rewrite nth_indep with (d' := g 0%nat) by (rewrite length_map, length_seq; lia).
  rewrite map_nth, seq_nth by lia. reflexivity.
Qed.

Lemma length_map_seq {A} (g : nat -> A) n : length (map g (seq 0 n)) = n.
Proof. rewrite length_map, length_seq. reflexivity. Qed.

(** Pointwise-equal sequences have [Qeq] elements at every index. *)
Lemma Qlist_eq_nth l1 l2 i : Qlist_eq l1 l2 -> nth i l1 0 == nth i l2 0.
Proof.
  intro H. revert i. induction H as [|x y l1 l2 Hxy _ IH]; intro i.
  - reflexivity.
  - destruct i; simpl; [assumption | apply IH].
Qed.

Lemma Qlist_eq_length l1 l2 : Qlist_eq l1 l2 -> length l1 = length l2.
Proof. apply Forall2_length. Qed.

(** An array is pointwise equal to another when they have the same length
    and agree at every index. *)
Lemma Qlist_eq_nth_iff l1 l2 :
  Qlist_eq l1 l2 <->
  length l1 = length l2 /\ (forall i, (i < length l1)%nat -> nth i l1 0 == nth i l2 0).
Proof.
  split.
  - intro H. split; [apply Qlist_eq_length; assumption|].
    intros i _. apply Qlist_eq_nth; assumption.
  - revert l2. induction l1 as [|x l1 IH]; intros [|y l2] [Hl H]; simpl in Hl;
      try discriminate; constructor.
    + apply (H 0%nat). simpl. lia.
    + apply IH. split; [lia|]. intros i Hi. apply (H (S i)). simpl. lia.
Qed.

(** Two arrays built over the same range are pointwise equal when the
    element functions agree on the range. *)
Lemma Qlist_eq_map_seq (g h : nat -> Q) n :
  (forall i, (i < n)%nat -> g i == h i) ->
  Qlist_eq (map g (seq 0 n)) (map h (seq 0 n)).
Proof.
  intro H. apply Qlist_eq_nth_iff. rewrite !length_map_seq. split; [reflexivity|].
  intros i Hi. rewrite !nth_map_seq by assumption. apply H; assumption.
Qed.

(** The list operations the models use (slicing, reversal,
    concatenation, mapping) respect pointwise equality. *)
#[export] Instance app_Qlist_eq_Proper : Proper (Qlist_eq ==> Qlist_eq ==> Qlist_eq) (@app Q).
Proof. intros l1 l2 H m1 m2 H'. apply Forall2_app; assumption. Qed.

#[export] Instance rev_Qlist_eq_Proper : Proper (Qlist_eq ==> Qlist_eq) (@rev Q).
Proof.
  intros l1 l2 H. induction H as [|x y l1 l2 Hxy _ IH]; simpl; [constructor|].
  apply Forall2_app; [assumption | repeat constructor; assumption].
Qed.

#[export] Instance firstn_Qlist_eq_Proper n : Proper (Qlist_eq ==> Qlist_eq) (@firstn Q n).
Proof.
  intros l1 l2 H. revert n. induction H as [|x y l1 l2 Hxy _ IH]; intros [|n]; simpl;
    try constructor; [assumption | apply IH].
Qed.

#[export] Instance skipn_Qlist_eq_Proper n : Proper (Qlist_eq ==> Qlist_eq) (@skipn Q n).
Proof.
  intros l1 l2 H. revert n. induction H as [|x y l1 l2 Hxy H IH]; intros [|n]; simpl;
    [constructor | constructor | constructor; assumption | apply IH].
Qed.

#[export] Instance tl_Qlist_eq_Proper : Proper (Qlist_eq ==> Qlist_eq) (@tl Q).
Proof. intros l1 l2 H. destruct H; simpl; [constructor | assumption]. Qed.

Lemma Qlist_eq_map (f g : Q -> Q) l l' :
  (forall x y, x == y -> f x == g y) -> Qlist_eq l l' -> Qlist_eq (map f l) (map g l').
Proof. intros Hfg H. induction H; simpl; constructor; [apply Hfg; assumption | assumption]. Qed.

(** Negation of a sequence, read at an index. *)
Lemma nth_map_opp l i : nth i (map Qopp l) 0 = - nth i l 0.
Proof. rewrite <- (map_nth Qopp l 0 i). reflexivity. Qed.

Lemma strictly_increasing_step l i :
  strictly_increasing l = true -> (S i < length l)%nat -> nth i l 0 < nth (S i) l 0.
Proof.
  revert i. induction l as [|x l IH]; intros i H Hi; [simpl in Hi; lia|].
  destruct l as [|y l]; [simpl in Hi; lia|].
  simpl in H. apply andb_true_iff in H as [Hxy H].
  destruct i as [|i]; [apply Qltb_iff; assumption|].
  simpl in Hi |- *. apply (IH i H). simpl. lia.
Qed.

Lemma strictly_increasing_lt l i j :
  strictly_increasing l = true -> (i < j < length l)%nat -> nth i l 0 < nth j l 0.
Proof.
  intros H [Hij Hj]. induction Hij as [|j Hij IH].
  - apply strictly_increasing_step; assumption.
  - apply Qlt_trans with (nth j l 0); [apply IH; lia|].
    apply strictly_increasing_step; assumption.
Qed.

(** ** Natural numbers as rationals *)

Lemma qnat_add m k : qnat (m + k) == qnat m + qnat k.
Proof. unfold qnat. rewrite Nat2Z.inj_add, inject_Z_plus. reflexivity. Qed.

Lemma qnat_sub m k : (k <= m)%nat -> qnat (m - k) == qnat m - qnat k.
Proof.
  intro H. unfold qnat. rewrite Nat2Z.inj_sub by assumption.
  unfold Z.sub. rewrite inject_Z_plus, inject_Z_opp. reflexivity.
Qed.

Lemma qnat_succ m : qnat (S m) == qnat m + 1.
Proof. rewrite <- Nat.add_1_r, qnat_add. reflexivity. Qed.

Lemma qnat_0 : qnat 0 == 0.
Proof. reflexivity. Qed.

Lemma qnat_nonneg k : 0 <= qnat k.
Proof. unfold qnat, Qle. simpl. lia. Qed.

Lemma qnat_pos k : (0 < k)%nat -> 0 < qnat k.
Proof. intro H. unfold qnat, Qlt. simpl. lia. Qed.

Lemma qnat_le m k : (m <= k)%nat -> qnat m <= qnat k.
Proof. intro H. unfold qnat, Qle. simpl. lia. Qed.

Lemma qnat_lt m k : (m < k)%nat -> qnat m < qnat k.
Proof. intro H. unfold qnat, Qlt. simpl. lia. Qed.

Lemma qlen_qnat {A} (l : list A) : qlen l = qnat (length l).
Proof. reflexivity. Qed.

#[export] Hint Resolve qnat_nonneg qnat_pos qnat_le qnat_lt : osc.

(** ** Constant sequences *)

Lemma firstn_repeat {A} (c : A) k n : firstn k (repeat c n) = repeat c (Nat.min k n).
Proof.
  revert n. induction k as [|k IH]; intros [|n]; simpl; try reflexivity.
  rewrite IH. reflexivity.
Qed.

Lemma skipn_repeat {A} (c : A) k n : skipn k (repeat c n) = repeat c (n - k).
Proof.
  revert n. induction k as [|k IH]; intros [|n]; simpl; try reflexivity.
  apply IH.
Qed.

Lemma tl_repeat {A} (c : A) n : tl (repeat c n) = repeat c (n - 1).
Proof. destruct n; simpl; [reflexivity | rewrite Nat.sub_0_r; reflexivity]. Qed.

(** ** [Forall] on slices *)

Lemma Forall_skipn {A} (P : A -> Prop) k l : Forall P l -> Forall P (skipn k l).
Proof.
  revert l. induction k as [|k IH]; intros l H; [assumption|].
  destruct H; simpl; [constructor | apply IH; assumption].
Qed.

Lemma Forall_firstn {A} (P : A -> Prop) k l : Forall P l -> Forall P (firstn k l).
Proof.
  revert l. induction k as [|k IH]; intros l H; [constructor|].
  destruct H; simpl; constructor; [assumption | apply IH; assumption].
Qed.

Lemma Forall_tl {A} (P : A -> Prop) l : Forall P l -> Forall P (tl l).
Proof. destruct 1; simpl; [constructor | assumption]. Qed.

Lemma forallb_impl {A} (p q : A -> bool) l :
  (forall x, p x = true -> q x = true) -> forallb p l = true -> forallb q l = true.
Proof. intro H. induction l as [|x l IH]; simpl; [reflexivity|]. rewrite !andb_true_iff. intuition. Qed.

#[export] Hint Resolve Forall_skipn Forall_firstn Forall_tl Forall_rev : osc.

(** ** Boolean masks, as pandas' [df[mask]] and [mask.sum()] *)

Lemma count_true_cons b m : count_true (b :: m) = ((if b then 1 else 0) + count_true m)%nat.
Proof. unfold count_true. destruct b; reflexivity. Qed.

Lemma select_length_le {A} (mask : list bool) (l : list A) :
  (length (select mask l) <= length l)%nat.
Proof.
  revert l. induction mask as [|b m IH]; intros [|x l]; simpl; try lia.
  destruct b; simpl; specialize (IH l); lia.
Qed.

Lemma select_count {A} (mask : list bool) (l : list A) :
  length mask = length l -> length (select mask l) = count_true mask.
Proof.
  revert l. induction mask as [|b m IH]; intros [|x l] H; simpl in H; try lia.
  - reflexivity.
  - rewrite count_true_cons. destruct b; simpl; rewrite IH by lia; reflexivity.
Qed.

Lemma select_all_false {A} (mask : list bool) (l : list A) :
  Forall (fun b => b = false) mask -> select mask l = [].
Proof.
  intro H. revert l. induction H as [|b m Hb _ IH]; intros [|x l]; simpl; try reflexivity.
  subst b. apply IH.
Qed.

Lemma count_true_repeat_false k : count_true (repeat false k) = 0%nat.
Proof. induction k as [|k IH]; [reflexivity|]. exact IH. Qed.

Lemma select_count_zero {A} (mask : list bool) (l : list A) :
  count_true mask = 0%nat -> select mask l = [].
Proof.
  intro H. apply select_all_false, Forall_forall. intros [|] Hb; [|reflexivity]. exfalso.
  assert (Hin : In true (filter (fun b => b) mask)) by (apply filter_In; auto).
  unfold count_true in H. destruct (filter _ mask); [contradiction | discriminate].
Qed.

Lemma select_map {A B} (f : A -> B) mask l : select mask (map f l) = map f (select mask l).
Proof.
  revert l. induction mask as [|b m IH]; intros [|x l]; simpl; try reflexivity.
  destruct b; simpl; rewrite IH; reflexivity.
Qed.

(** A sum of values all equal to [c]. *)
Lemma qsum_all_eq c l : Forall (fun q => q == c) l -> qsum l == qlen l * c.
Proof.
  induction 1 as [|x l Hx _ IH]; [unfold qsum, qlen; simpl; ring|].
  rewrite qsum_cons, qlen_cons, IH, Hx. ring.
Qed.

(** ** Names *)

Lemma string_in_iff a l : string_in a l = true <-> In a l.
Proof.
  unfold string_in. rewrite existsb_exists. split.
  - intros (x & Hx & E). apply String.eqb_eq in E. subst. assumption.
  - intro H. exists a. split; [assumption | apply String.eqb_refl].
Qed.

(** ** Transition sequences *)

Section Sequences.

Context {A : Type} (R : A -> A -> Prop).

Lemma star_one a b : R a b -> star R a b.
Proof. eauto using star. Qed.

Lemma star_trans a b c : star R a b -> star R b c -> star R a c.
Proof. induction 1; eauto using star. Qed.

Lemma starN_star n a b : starN R n a b -> star R a b.
Proof. induction 1; eauto using star. Qed.

Lemma star_starN a b : star R a b -> exists n, starN R n a b.
Proof. induction 1 as [|a b c H _ (n & IH)]; eauto using starN. Qed.

(** A state every sequence from which reaches [P] reaches it by some
    sequence. *)
Lemma eventually_star P a : eventually R P a -> exists b, star R a b /\ P b.
Proof.
  induction 1 as [a Ha | a (b & Hb) _ IH]; [eauto using star|].
  destruct (IH b Hb) as (c & Hc & Pc). eauto using star.
Qed.

Lemma eventually_mono (P Q : A -> Prop) a :
  (forall b, P b -> Q b) -> eventually R P a -> eventually R Q a.
Proof. intros HPQ. induction 1; [apply ev_now; auto | apply ev_step; auto]. Qed.

(** With a functional relation, the sequences from a state form a line:
    two final states reached from one state are equal. *)
Hypothesis R_functional : forall a b c, R a b -> R a c -> b = c.

Lemma star_star_inv a b : star R a b -> forall c, star R a c -> star R b c \/ star R c b.
Proof.
  induction 1 as [a|a b d Hab Hbd IH]; intros c Hc; [auto|].
  inversion Hc as [a0 Ha0 Hc0 | a0 b' c0 Hab' Hb'c Ha0 Hc0]; subst; [right; eauto using star|].
  rewrite (R_functional _ _ _ Hab Hab') in IH. apply IH. assumption.
Qed.

Lemma finseq_unique a b b' :
  star R a b -> irred R b -> star R a b' -> irred R b' -> b = b'.
Proof.
  intros Hb Ib Hb' Ib'. destruct (star_star_inv _ _ Hb _ Hb') as [H | H];
    inversion H as [a0 | a0 c d Hc]; subst; auto; [elim (Ib _ Hc) | elim (Ib' _ Hc)].
Qed.

End Sequences.

#[export] Hint Constructors star starN eventually : osc.
#[export] Hint Resolve star_one star_trans starN_star : osc.
