(* ===== verification/Derivative.v ===== *)
(** * Derivative estimator

    [aprox_derv_central] of the repository's [single_sim_analysis] module
    (imported as [ipc] by [src/oscillator_classification/multi_sim_analysis.py]
    and called at its lines 74 and 76).  That module is not under [src/]:
    the definition follows spec section 4.1.  It holds the estimator, its
    exactness on lines and on quadratics, its sign on monotone inputs,
    its compatibility with pointwise equality of sequences, and its
    symmetries: it is odd (negating the series negates it) and blind to
    a constant offset. *)

From Stdlib Require Import ZArith QArith Lqa List Bool Lia Morphisms Setoid.
From S2P Require Import Prelude.
Import ListNotations.
Open Scope Q_scope.
Open Scope osc_scope.

Module Derivative.

(** The estimate at index [i]: the central difference
    [(y[i+f] - y[i-b]) / (f + b)] when both neighbours exist; at the left
    end the forward difference of step [f], at the right end the backward
    difference of step [b].  A point with neither neighbour (a series
    shorter than both steps) is given the value 0: the spec says the
    estimator never fails and does not define that value. *)
Definition derv_at (y : list Q) (f b i : nat) : Q :=
  let n := length y in
  if (b <=? i)%nat && (i + f <? n)%nat then
    (nth (i + f) y 0 - nth (i - b) y 0) / qnat (f + b)
  else if (i + f <? n)%nat then (nth (i + f) y 0 - nth i y 0) / qnat f
  else if (b <=? i)%nat then (nth i y 0 - nth (i - b) y 0) / qnat b
  else 0.

(** The derivative sequence: one estimate per index, same length. *)
Definition aprox_derv_central (data : list Q) (step_size_forward step_size_backward : nat)
  : list Q :=
  map (derv_at data step_size_forward step_size_backward) (seq 0 (length data)).

(** The code's first derivative, [aprox_derv_central(data=y,
    step_size_forward=1, step_size_backward=step_size)] with
    [step_size = 1]. *)
Definition first_derivative (y : list Q) : list Q := aprox_derv_central y 1 1.

(** The code's second derivative: the estimator applied again, with both
    steps [step_size], to the (unsmoothed) first derivative. *)
Definition second_derivative (y : list Q) : list Q :=
  aprox_derv_central (first_derivative y) 1 1.

(** ** Shape of the result *)

(** Which of the four cases applies at index [i]. *)
Inductive derv_case (n f b i : nat) : Prop :=
| DCentral : (b <= i)%nat -> (i + f < n)%nat -> derv_case n f b i
| DForward : (i < b)%nat -> (i + f < n)%nat -> derv_case n f b i
| DBackward : (b <= i)%nat -> (n <= i + f)%nat -> derv_case n f b i
| DNone : (i < b)%nat -> (n <= i + f)%nat -> derv_case n f b i.

(** A sequence sampled from the line [a + c * i]. *)
Definition line (a c : Q) (n : nat) : list Q := map (fun i => a + c * qnat i) (seq 0 n).

(** A sequence sampled from the parabola [p * i^2 + q * i + r]. *)
Definition parabola (p q r : Q) (n : nat) : list Q :=
  map (fun i => p * (qnat i * qnat i) + q * qnat i + r) (seq 0 n).

(** ** Shape of the result *)

Lemma aprox_derv_central_length y f b : length (aprox_derv_central y f b) = length y.
Proof. apply length_map_seq. Qed.

Lemma aprox_derv_central_nth y f b i :
  (i < length y)%nat -> nth i (aprox_derv_central y f b) 0 = derv_at y f b i.
Proof. apply nth_map_seq. Qed.

Lemma derv_case_of n f b i : derv_case n f b i.
Proof.
  destruct (Nat.leb_spec b i), (Nat.ltb_spec (i + f) n).
  - apply DCentral; assumption.
  - apply DBackward; assumption.
  - apply DForward; assumption.
  - apply DNone; assumption.
Qed.

Ltac derv_cases y f b i :=
  unfold derv_at;
  destruct (derv_case_of (length y) f b i) as [Hcb Hcf|Hcb Hcf|Hcb Hcf|Hcb Hcf];
  [ rewrite (proj2 (Nat.leb_le b i) Hcb), (proj2 (Nat.ltb_lt (i + f) (length y)) Hcf)
  | rewrite (proj2 (Nat.leb_gt b i) Hcb), (proj2 (Nat.ltb_lt (i + f) (length y)) Hcf)
  | rewrite (proj2 (Nat.leb_le b i) Hcb), (proj2 (Nat.ltb_ge (i + f) (length y)) Hcf)
  | rewrite (proj2 (Nat.leb_gt b i) Hcb), (proj2 (Nat.ltb_ge (i + f) (length y)) Hcf) ];
  simpl andb; cbv iota.

(** The fallback value 0 is only used when the series is shorter than
    the two steps together. *)
Lemma derv_none_short n f b i :
  (i < b)%nat -> (n <= i + f)%nat -> (n < f + b)%nat.
Proof. lia. Qed.

(** The estimate at an index where both neighbours exist. *)
Lemma derv_at_central y f b i :
  (b <= i)%nat -> (i + f < length y)%nat ->
  derv_at y f b i = (nth (i + f) y 0 - nth (i - b) y 0) / qnat (f + b).
Proof. intros Hb Hf. derv_cases y f b i; lia || reflexivity. Qed.

(** With steps of at least one and a series at least [f + b] long, every
    index has a neighbour: the difference quotient at [i] is
    [(y[j] - y[k]) / (j - k)] for two indices [k < j] of the series. *)
Lemma derv_at_quotient y f b i :
  (1 <= f)%nat -> (1 <= b)%nat -> (f + b <= length y)%nat -> (i < length y)%nat ->
  exists j k, (k < j < length y)%nat /\
    derv_at y f b i == (nth j y 0 - nth k y 0) / (qnat j - qnat k).
Proof.
  intros Hf1 Hb1 Hn Hi. derv_cases y f b i.
  - exists (i + f)%nat, (i - b)%nat. split; [lia|].
    rewrite qnat_add, qnat_sub by lia. rewrite qnat_add. apply Qdiv_comp; [reflexivity|lra].
  - exists (i + f)%nat, i. split; [lia|].
    rewrite qnat_add. apply Qdiv_comp; [reflexivity|lra].
  - exists i, (i - b)%nat. split; [lia|].
    rewrite qnat_sub by lia. apply Qdiv_comp; [reflexivity|lra].
  - lia.
Qed.

(** The estimate respects pointwise equality of the series. *)
Lemma derv_at_Qlist_eq y1 y2 f b i :
  Qlist_eq y1 y2 -> derv_at y1 f b i == derv_at y2 f b i.
Proof.
  intro H. pose proof (Qlist_eq_length _ _ H) as Hl.
  unfold derv_at. rewrite Hl.
  repeat match goal with |- context [if ?c then _ else _] => destruct c end;
  rewrite ?(Qlist_eq_nth _ _ (i + f) H), ?(Qlist_eq_nth _ _ (i - b) H),
    ?(Qlist_eq_nth _ _ i H); reflexivity.
Qed.

(** A difference quotient of an increasing pair is positive. *)
Lemma quotient_pos a b c d : a < b -> c < d -> 0 < (b - a) / (d - c).
Proof.
  intros Hab Hcd. apply Qlt_shift_div_l; [lra|]. rewrite Qmult_0_l. lra.
Qed.

Lemma line_nth a c n i : (i < n)%nat -> nth i (line a c n) 0 = a + c * qnat i.
Proof. apply (nth_map_seq (fun k => a + c * qnat k)). Qed.

Lemma line_length a c n : length (line a c n) = n.
Proof. apply length_map_seq. Qed.

(** The second pass at an interior index: applying the estimator (steps
    1) to its own output gives the second central difference
    [(y[i+2] - 2 y[i] + y[i-2]) / 4], the two-step stencil the code
    uses as its second derivative. *)
Lemma second_pass_interior y i :
  (2 <= i)%nat -> (i + 2 < length y)%nat ->
  nth i (aprox_derv_central (aprox_derv_central y 1 1) 1 1) 0 ==
  (nth (i + 2) y 0 - 2 * nth i y 0 + nth (i - 2) y 0) / 4.
Proof.
  intros H2 Hn.
  set (d := aprox_derv_central y 1 1).
  assert (Hd : length d = length y) by apply aprox_derv_central_length.
  rewrite aprox_derv_central_nth by lia.
  rewrite derv_at_central by lia.
  unfold d. rewrite !aprox_derv_central_nth by lia.
  rewrite !derv_at_central by lia.
  replace (i + 1 + 1)%nat with (i + 2)%nat by lia.
  replace (i + 1 - 1)%nat with i by lia.
  replace (i - 1 + 1)%nat with i by lia.
  replace (i - 1 - 1)%nat with (i - 2)%nat by lia.
  change (qnat (1 + 1)) with 2. field.
Qed.

(** ** Properties of the estimator *)

(** On a series sampled from a line [a + c*i] the estimate is exact at
    every index, the two ends included, for any steps of at least one
    that fit in the series. *)
Lemma aprox_derv_central_exact_on_lines a c n f b :
  (1 <= f)%nat -> (1 <= b)%nat -> (f + b <= n)%nat ->
  Qlist_eq (aprox_derv_central (line a c n) f b) (repeat c n).
Proof.
  intros Hf Hb Hn. apply Qlist_eq_nth_iff.
  rewrite aprox_derv_central_length, repeat_length, line_length. split; [reflexivity|].
  intros i Hi. rewrite nth_repeat_lt by assumption.
  rewrite aprox_derv_central_nth by (rewrite line_length; assumption).
  destruct (derv_at_quotient (line a c n) f b i) as (j & k & Hjk & ->);
    rewrite ?line_length; try assumption.
  rewrite line_length in Hjk. rewrite !line_nth by lia.
  assert (qnat k < qnat j) by (apply qnat_lt; lia).
  field. intro Hz. lra.
Qed.

(** On a strictly increasing series at least [f + b] long every
    estimate is positive, the one-sided ones at the ends included. *)
Lemma aprox_derv_central_increasing_pos y f b :
  (1 <= f)%nat -> (1 <= b)%nat -> (f + b <= length y)%nat ->
  strictly_increasing y = true ->
  Forall (fun d => 0 < d) (aprox_derv_central y f b).
Proof.
  intros Hf Hb Hn Hinc. apply Forall_nth. intros i d Hi.
  rewrite aprox_derv_central_length in Hi.
  rewrite nth_indep with (d' := 0) by (rewrite aprox_derv_central_length; assumption).
  rewrite aprox_derv_central_nth by assumption.
  destruct (derv_at_quotient y f b i) as (j & k & Hjk & ->); try assumption.
  apply quotient_pos; [apply strictly_increasing_lt | apply qnat_lt]; (assumption || lia).
Qed.

(** C9: the code's second derivative of a series sampled from the
    parabola [p*i^2 + q*i + r] is exactly [2p] at every index at distance
    at least 2 from both ends. *)
Theorem second_derivative_exact_on_parabolas p q r n i :
  (2 <= i)%nat -> (i + 2 < n)%nat ->
  nth i (second_derivative (parabola p q r n)) 0 == 2 * p.
Proof.
  unfold second_derivative, first_derivative.
  intros H2 Hn.
  assert (Hl : length (parabola p q r n) = n) by apply length_map_seq.
  rewrite second_pass_interior by lia. unfold parabola.
  rewrite !(nth_map_seq (fun k => p * (qnat k * qnat k) + q * qnat k + r)) by lia.
  rewrite qnat_add, qnat_sub by lia. change (qnat 2) with 2. field.
Qed.

(** The estimator respects pointwise equality of its input. *)
#[export] Instance aprox_derv_central_Proper :
  Proper (Qlist_eq ==> eq ==> eq ==> Qlist_eq) aprox_derv_central.
Proof.
  intros y1 y2 H f f' <- b b' <-. unfold aprox_derv_central.
  rewrite <- (Qlist_eq_length _ _ H). apply Qlist_eq_map_seq.
  intros i _. apply derv_at_Qlist_eq. assumption.
Qed.

(** The estimator is odd: negating the series negates every estimate. *)
Lemma derv_at_opp y f b i : derv_at (map Qopp y) f b i == - derv_at y f b i.
Proof.
  unfold derv_at. rewrite length_map, !nth_map_opp.
  destruct ((b <=? i)%nat && (i + f <? length y)%nat); [unfold Qdiv; ring|].
  destruct (i + f <? length y)%nat; [unfold Qdiv; ring|].
  destruct (b <=? i)%nat; [unfold Qdiv; ring | reflexivity].
Qed.

Lemma aprox_derv_central_opp y f b :
  Qlist_eq (aprox_derv_central (map Qopp y) f b) (map Qopp (aprox_derv_central y f b)).
Proof.
  unfold aprox_derv_central. rewrite length_map, map_map. apply Qlist_eq_map_seq.
  intros i _. apply derv_at_opp.
Qed.




(** C8: the code's first derivative is exact on every series of at least
    two points sampled from a line [a + c*i], at every index: the
    central difference inside, the one-sided differences at the ends. *)
Theorem first_derivative_exact_on_lines a c n :
  (2 <= n)%nat -> Qlist_eq (first_derivative (line a c n)) (repeat c n).
Proof. intro H. apply aprox_derv_central_exact_on_lines; lia. Qed.

(** ** Witnesses *)

Lemma first_derivative_exact_on_lines_witness :
  (2 <= 5)%nat /\ Qlist_eq (first_derivative (line 3 (1#2) 5)) (repeat (1#2) 5).
Proof. split; [lia|]. apply first_derivative_exact_on_lines. lia. Defined.

Lemma second_derivative_exact_on_parabolas_witness :
  (2 <= 3)%nat /\ (3 + 2 < 7)%nat /\
  nth 3 (second_derivative (parabola 5 (-1) 2 7)) 0 == 2 * 5.
Proof.
  split; [lia|]. split; [lia|]. apply second_derivative_exact_on_parabolas; lia.
Defined.

End Derivative.
