(* ===== verification/Smoother.v ===== *)
(** * Smoother

    [savitzky_golay] of the repository's [single_sim_analysis] module,
    called at lines 75 and 77 of
    [src/oscillator_classification/multi_sim_analysis.py] with window 3,
    order 1, derivative 0 and rate 1.  The module is not under [src/]: the
    definition follows spec section 4.2.  The least-squares fit is
    computed exactly over [Q]: the normal equations of the local
    polynomial fit are solved by Gauss-Jordan elimination, the series is
    mirror-padded at both ends, and the coefficients are slid over it.
    The table of fits for odd windows up to 11 points is checked by
    evaluation, which gives the smoother's behaviour on every branch; the
    code's configuration is the three-point moving average, exact inside
    a line; smoothing keeps constants and positivity and is linear. *)

From Stdlib Require Import ZArith QArith Lqa List Bool Lia Morphisms Setoid.
From S2P Require Import Prelude Derivative.
Import ListNotations.
Import Derivative.
Open Scope Q_scope.
Open Scope osc_scope.

Module Smoother.

(** ** Exact linear algebra over [Q] *)

(** A matrix as its list of rows. *)
Definition matrix := list (list Q).

Definition dot (u v : list Q) : Q := qsum (map (fun '(a, b) => a * b) (combine u v)).

Definition transpose_aux (cols : nat) (m : matrix) : matrix :=
  map (fun j => map (fun r => nth j r 0) m) (seq 0 cols).

Definition matmul (a b : matrix) (bcols : nat) : matrix :=
  let bt := transpose_aux bcols b in
  map (fun r => map (fun c => Qred (dot r c)) bt) a.

(** [r - a * p], the row operation of the elimination. *)
Definition row_sub (r p : list Q) (a : Q) : list Q :=
  map (fun '(x, y) => Qred (x - a * y)) (combine r p).

(** Take out the first row whose entry in column [c] is not zero. *)
Fixpoint extract_pivot (c : nat) (rows : matrix) : option (list Q * matrix) :=
  match rows with
  | [] => None
  | r :: rs =>
      if Qeq_bool (nth c r 0) 0 then
        match extract_pivot c rs with
        | Some (p, rs') => Some (p, r :: rs')
        | None => None
        end
      else Some (r, rs)
  end.

(** Gauss-Jordan elimination on [k] columns from column [c]: [done] holds
    the reduced pivot rows in order, [rest] the rows still to reduce.
    [None] when a column has no pivot (a singular system). *)
Fixpoint gauss_jordan (k c : nat) (done rest : matrix) : option matrix :=
  match k with
  | O => Some done
  | S k' =>
      match extract_pivot c rest with
      | None => None
      | Some (p, rest') =>
          let p' := map (fun x => Qred (x / nth c p 0)) p in
          let elim r := row_sub r p' (nth c r 0) in
          gauss_jordan k' (S c) (map elim done ++ [p']) (map elim rest')
      end
  end.

(** Solve [a x = b] for a square [a] of size [n]. *)
Definition solve (n : nat) (a b : matrix) : option matrix :=
  match gauss_jordan n 0 [] (map (fun '(r, s) => r ++ s) (combine a b)) with
  | Some rows => Some (map (skipn n) rows)
  | None => None
  end.

(** ** Savitzky-Golay coefficients *)

(** The design matrix of the fit: row [k] (for [k = -h .. h]) holds the
    powers [k^0 .. k^order]. *)
Definition offsets (h : nat) : list Q :=
  map (fun j => inject_Z (Z.of_nat j - Z.of_nat h)) (seq 0 (2 * h + 1)).

Definition design (h order : nat) : matrix :=
  map (fun k => map (fun j => k ^ Z.of_nat j) (seq 0 (S order))) (offsets h).

Fixpoint fact_q (n : nat) : Q :=
  match n with O => 1 | S k => qnat (S k) * fact_q k end.

(** The coefficients: row [deriv] of the pseudo-inverse [(B^T B)^-1 B^T]
    of the design matrix [B], times [rate^deriv * deriv!]: the value (or
    derivative) at the window centre of the least-squares polynomial.
    Above the polynomial's order the derivative is identically zero.  A
    singular normal matrix (a window too small for the order) has no
    least-squares solution of this form. *)
Definition sg_fit (window order : nat) : option matrix :=
  let h := Nat.div2 window in
  let b := design h order in
  let bt := transpose_aux (S order) b in
  solve (S order) (matmul bt b (S order)) bt.

Definition sg_coeffs (window order deriv : nat) (rate : Q) : option (list Q) :=
  match sg_fit window order with
  | None => None
  | Some x =>
      if (order <? deriv)%nat then Some (repeat 0 window)
      else Some (map (fun c => Qred (c * rate ^ Z.of_nat deriv * fact_q deriv)) (nth deriv x []))
  end.

(** ** Padding and sliding *)

(** Mirror padding by [h] points at each end: the [h] values next to each
    boundary value, reflected about it. *)
Definition mirror_pad (h : nat) (y : list Q) : list Q :=
  rev (firstn h (tl y)) ++ y ++ firstn h (tl (rev y)).

(** The valid part of the convolution with the reversed coefficients:
    [out[i] = sum_j m[j] * p[i + j]], one output per full window. *)
Definition convolve_valid (m p : list Q) : list Q :=
  map (fun i => dot m (skipn i p)) (seq 0 (length p + 1 - length m)).

(** ** The smoother *)

(** Raises [InvalidWindowError] when the window is even, smaller than the
    polynomial order or larger than the series, or when the fit is
    singular; otherwise one smoothed value per point. *)
Definition savitzky_golay (y_list : list Q) (window_size order deriv : nat) (rate : Q)
  : result (list Q) :=
  if Nat.even window_size || (window_size <? order)%nat || (length y_list <? window_size)%nat
  then Err InvalidWindowError
  else match sg_coeffs window_size order deriv rate with
       | None => Err InvalidWindowError
       | Some m => Ok (convolve_valid m (mirror_pad (Nat.div2 window_size) y_list))
       end.

(** ** Constant series *)

(** The code's smoothing of a column: [savitzky_golay(y_list=...,
    window_size=3, order=1, deriv=0, rate=1)]. *)
Definition smooth_column (l : list Q) : result (list Q) := savitzky_golay l 3 1 0 1.

(** ** The coefficient table, checked by evaluation *)

(** For every odd window up to [wmax]: for every order below the window
    the fit exists, has one row per coefficient, each row fills the
    window, and the smoothing row sums to 1; at order equal to the window
    the normal matrix is singular. *)
Definition sg_entry_ok (w o : nat) : bool :=
  match sg_fit w o with
  | Some x =>
      (o <? w)%nat && (length x =? S o)%nat &&
      forallb (fun row => (length row =? w)%nat) x && Qeq_bool (qsum (nth 0 x [])) 1 &&
      Qeq_bool (dot (nth 0 x []) (offsets (Nat.div2 w))) 0
  | None => (o =? w)%nat
  end.

Definition sg_table_ok (wmax : nat) : bool :=
  forallb (fun w => Nat.even w || forallb (sg_entry_ok w) (seq 0 (S w))) (seq 0 (S wmax)).

(** ** The configuration of the code: window 3, order 1 *)

(** The three-point moving average of the mirror-padded series. *)
Definition moving_average3 (y : list Q) : list Q :=
  convolve_valid [1#3; 1#3; 1#3] (mirror_pad 1 y).

(** ** Shape of the result *)

Lemma length_convolve_valid m p :
  length (convolve_valid m p) = (length p + 1 - length m)%nat.
Proof. apply length_map_seq. Qed.

Lemma length_mirror_pad h y :
  (h < length y)%nat -> length (mirror_pad h y) = (length y + 2 * h)%nat.
Proof.
  intro H. unfold mirror_pad.
  rewrite !length_app, !length_rev, !length_firstn, !length_tl, length_rev. lia.
Qed.

(** The window of an odd size [w] has half-width [div2 w]. *)
Lemma odd_window w : Nat.even w = false -> w = S (2 * Nat.div2 w).
Proof.
  intro Ew. rewrite (Nat.div2_odd w) at 1. unfold Nat.odd. rewrite Ew. simpl. lia.
Qed.

(** ** Constant series *)

Lemma mirror_pad_repeat h c n :
  (h < n)%nat -> mirror_pad h (repeat c n) = repeat c (n + 2 * h).
Proof.
  intro H. unfold mirror_pad. rewrite rev_repeat, !tl_repeat, !firstn_repeat, rev_repeat.
  rewrite <- !repeat_app. f_equal. lia.
Qed.

Lemma dot_repeat m c k :
  (length m <= k)%nat -> dot m (repeat c k) == qsum m * c.
Proof.
  revert k. induction m as [|a m IH]; intros k Hk; [unfold dot; simpl; lra|].
  destruct k as [|k]; [simpl in Hk; lia|].
  unfold dot in *. cbn [repeat combine map]. rewrite !qsum_cons, IH by (simpl in Hk; lia).
  ring.
Qed.

(** A coefficient vector of a full window whose entries sum to 1 returns
    a constant series unchanged: the padding introduces no drift. *)
Lemma convolve_constant m h c n :
  length m = S (2 * h) -> qsum m == 1 -> (h < n)%nat ->
  Qlist_eq (convolve_valid m (mirror_pad h (repeat c n))) (repeat c n).
Proof.
  intros Hl Hs Hn. rewrite mirror_pad_repeat by assumption.
  apply Qlist_eq_nth_iff. rewrite length_convolve_valid, !repeat_length, Hl.
  split; [lia|]. intros i Hi.
  unfold convolve_valid. rewrite repeat_length, Hl, nth_map_seq by lia.
  rewrite nth_repeat_lt by lia. rewrite skipn_repeat, dot_repeat by lia.
  rewrite Hs. ring.
Qed.

(** ** The coefficient table, checked by evaluation *)

Lemma sg_table_ok_11 : sg_table_ok 11 = true.
Proof. vm_compute. reflexivity. Qed.

Lemma sg_entry w o :
  (w <= 11)%nat -> Nat.even w = false -> (o <= w)%nat -> sg_entry_ok w o = true.
Proof.
  intros Hw Ew Ho. pose proof sg_table_ok_11 as T. unfold sg_table_ok in T.
  rewrite forallb_forall in T. specialize (T w ltac:(apply in_seq; lia)).
  rewrite Ew in T. cbn [orb] in T. rewrite forallb_forall in T. apply T, in_seq. lia.
Qed.

(** For an odd window up to 11 points and an order below it, the fit
    exists, has one row per coefficient, every row fills the window, and
    the smoothing row sums to 1. *)
Lemma sg_fit_ok w o :
  (w <= 11)%nat -> Nat.even w = false -> (o < w)%nat ->
  exists x, sg_fit w o = Some x /\ length x = S o /\
    Forall (fun row => length row = w) x /\ qsum (nth 0 x []) == 1 /\
    dot (nth 0 x []) (offsets (Nat.div2 w)) == 0.
Proof.
  intros Hw Ew Ho. pose proof (sg_entry w o Hw Ew ltac:(lia)) as T. unfold sg_entry_ok in T.
  destruct (sg_fit w o) as [x|]; [|apply Nat.eqb_eq in T; lia].
  rewrite !andb_true_iff, Nat.eqb_eq, forallb_forall, !Qeq_bool_iff in T.
  destruct T as [[[[_ Hl] Hr] Hs] Hd]. exists x. split; [reflexivity|]. split; [assumption|].
  split; [|split; assumption]. apply Forall_forall. intros row Hrow. apply Nat.eqb_eq, Hr, Hrow.
Qed.

(** A window of [w] points cannot determine a polynomial of order [w]. *)
Lemma sg_fit_singular w : (w <= 11)%nat -> Nat.even w = false -> sg_fit w w = None.
Proof.
  intros Hw Ew. pose proof (sg_entry w w Hw Ew ltac:(lia)) as T. unfold sg_entry_ok in T.
  destruct (sg_fit w w) as [x|]; [|reflexivity].
  rewrite Nat.ltb_irrefl in T. discriminate.
Qed.

(** The coefficients of any derivative fill the window. *)
Lemma sg_coeffs_ok w o d r :
  (w <= 11)%nat -> Nat.even w = false -> (o < w)%nat ->
  exists m, sg_coeffs w o d r = Some m /\ length m = w.
Proof.
  intros Hw Ew Ho. destruct (sg_fit_ok w o Hw Ew Ho) as (x & Hx & Hl & Hr & _).
  unfold sg_coeffs. rewrite Hx. destruct (Nat.ltb_spec o d).
  - eexists. split; [reflexivity | apply repeat_length].
  - eexists. split; [reflexivity|]. rewrite length_map.
    apply (proj1 (Forall_forall _ x) Hr). apply nth_In. lia.
Qed.

(** The rate only scales derivatives: at derivative 0 it is irrelevant. *)
Lemma sg_coeffs_rate_0 w o r : sg_coeffs w o 0 r = sg_coeffs w o 0 1.
Proof. unfold sg_coeffs. destruct (sg_fit w o); reflexivity. Qed.

Lemma dot_map_Qeq (f : Q -> Q) m p : (forall x, f x == x) -> dot (map f m) p == dot m p.
Proof.
  intro Hf. revert p. induction m as [|a m IH]; intros [|x p]; unfold dot in *; cbn [combine map];
    try reflexivity.
  rewrite !qsum_cons, IH, Hf. reflexivity.
Qed.

(** The smoothing coefficients (derivative 0) exist, fill the window, sum
    to 1 and have a zero first moment about the window centre. *)
Lemma sg_coeffs_smoothing w o r :
  (w <= 11)%nat -> Nat.odd w = true -> (o < w)%nat ->
  exists m, sg_coeffs w o 0 r = Some m /\ length m = w /\ qsum m == 1 /\
    dot m (offsets (Nat.div2 w)) == 0.
Proof.
  intros Hw Hodd Ho.
  assert (Ew : Nat.even w = false) by (unfold Nat.odd in Hodd; destruct (Nat.even w); easy).
  destruct (sg_fit_ok w o Hw Ew Ho) as (x & Hx & Hl & Hr & Hs & Hd).
  unfold sg_coeffs. rewrite Hx, (proj2 (Nat.ltb_ge o 0)) by lia.
  assert (Hid : forall c, Qred (c * r ^ Z.of_nat 0 * fact_q 0) == c)
    by (intro c; rewrite Qred_correct; simpl; ring).
  eexists. split; [reflexivity|]. split; [|split].
  - rewrite length_map. apply (proj1 (Forall_forall _ x) Hr), nth_In. lia.
  - rewrite qsum_map_Qeq; [exact Hs | exact Hid].
  - rewrite dot_map_Qeq; [exact Hd | exact Hid].
Qed.

(** Smoothing a constant series returns it unchanged, for every odd
    window up to 11 points, every polynomial order below the window and
    every rate, whenever the series fills the window. *)
Lemma savitzky_golay_constant c n w o r :
  (w <= 11)%nat -> Nat.odd w = true -> (o < w)%nat -> (w <= n)%nat ->
  exists out, savitzky_golay (repeat c n) w o 0 r = Ok out /\ Qlist_eq out (repeat c n).
Proof.
  intros Hw Hodd Ho Hn.
  destruct (sg_coeffs_smoothing w o r Hw Hodd Ho) as (m & Hm & Hl & Hs & _).
  assert (Ew : Nat.even w = false) by (unfold Nat.odd in Hodd; destruct (Nat.even w); easy).
  unfold savitzky_golay. rewrite Ew, Hm, repeat_length.
  rewrite (proj2 (Nat.ltb_ge w o)) by lia. rewrite (proj2 (Nat.ltb_ge n w)) by lia.
  eexists. split; [reflexivity|].
  apply convolve_constant; [rewrite Hl; apply odd_window; assumption | assumption |].
  pose proof (odd_window w Ew). lia.
Qed.

(** ** The configuration of the code: window 3, order 1 *)

(** The least-squares line over three points, evaluated at the centre, is
    their mean. *)
Lemma sg_coeffs_3_1_0 r : sg_coeffs 3 1 0 r = Some [1#3; 1#3; 1#3].
Proof. rewrite sg_coeffs_rate_0. vm_compute. reflexivity. Qed.

(** With the code's configuration (window 3, order 1, derivative 0) the
    smoother raises [InvalidWindowError] exactly on series shorter than
    the window, and otherwise returns the three-point moving average of
    the mirror-padded series. *)
Lemma savitzky_golay_config y r :
  savitzky_golay y 3 1 0 r =
  if (length y <? 3)%nat then Err InvalidWindowError else Ok (moving_average3 y).
Proof.
  unfold savitzky_golay. rewrite sg_coeffs_3_1_0. simpl Nat.even. simpl orb.
  destruct (length y <? 3)%nat; reflexivity.
Qed.

(** ** The moving average at each point *)

Lemma firstn_1_tl (l : list Q) : (2 <= length l)%nat -> firstn 1 (tl l) = [nth 1 l 0].
Proof. destruct l as [|x [|y l]]; simpl; intro H; [lia | lia | reflexivity]. Qed.

(** Padding by one point: the second value before the series, the
    last-but-one after it. *)
Lemma mirror_pad_1 y :
  (2 <= length y)%nat -> mirror_pad 1 y = nth 1 y 0 :: y ++ [nth (length y - 2) y 0].
Proof.
  intro H. unfold mirror_pad.
  rewrite (firstn_1_tl y), (firstn_1_tl (rev y)) by (rewrite ?length_rev; lia).
  rewrite rev_nth by lia. reflexivity.
Qed.

Lemma nth_pad_inner (x z : Q) l j : (j < length l)%nat -> nth (S j) (x :: l ++ [z]) 0 = nth j l 0.
Proof. intro H. simpl. apply app_nth1. assumption. Qed.

Lemma nth_pad_last (x z : Q) l : nth (S (length l)) (x :: l ++ [z]) 0 = z.
Proof. simpl. rewrite app_nth2, Nat.sub_diag by lia. reflexivity. Qed.

Lemma dot3 a b c l :
  (3 <= length l)%nat -> dot [a; b; c] l == a * nth 0 l 0 + b * nth 1 l 0 + c * nth 2 l 0.
Proof.
  destruct l as [|x [|y [|z l]]]; simpl; intro H; try lia.
  unfold dot, qsum. simpl. ring.
Qed.

Lemma length_moving_average3 y : (2 <= length y)%nat -> length (moving_average3 y) = length y.
Proof.
  intro H. unfold moving_average3. rewrite length_convolve_valid, length_mirror_pad by lia.
  simpl. lia.
Qed.

(** Point [i] of the moving average is the mean of points [i], [i+1] and
    [i+2] of the padded series. *)
Lemma moving_average3_nth y i :
  (2 <= length y)%nat -> (i < length y)%nat ->
  nth i (moving_average3 y) 0 ==
  (nth i (mirror_pad 1 y) 0 + nth (S i) (mirror_pad 1 y) 0 + nth (S (S i)) (mirror_pad 1 y) 0) / 3.
Proof.
  intros H2 Hi. unfold moving_average3, convolve_valid.
  rewrite length_mirror_pad by lia. simpl length.
  rewrite (nth_map_seq (fun i => dot [1#3; 1#3; 1#3] (skipn i (mirror_pad 1 y)))) by lia.
  rewrite dot3 by (rewrite length_skipn, length_mirror_pad; lia).
  rewrite !nth_skipn, !Nat.add_succ_r, !Nat.add_0_r. field.
Qed.

(** The first point averages the first value with the second one twice
    (the padding mirrors it); an interior point averages its neighbours. *)
Lemma moving_average3_first y :
  (2 <= length y)%nat -> nth 0 (moving_average3 y) 0 == (nth 0 y 0 + 2 * nth 1 y 0) / 3.
Proof.
  intro H. rewrite moving_average3_nth, mirror_pad_1 by lia.
  rewrite !nth_pad_inner by lia. cbn [nth]. field.
Qed.

Lemma moving_average3_interior y i :
  (0 < i)%nat -> (S i < length y)%nat ->
  nth i (moving_average3 y) 0 == (nth (i - 1) y 0 + nth i y 0 + nth (S i) y 0) / 3.
Proof.
  intros H0 Hi. destruct i as [|j]; [lia|].
  rewrite moving_average3_nth, mirror_pad_1 by lia. rewrite !nth_pad_inner by lia.
  replace (S j - 1)%nat with j by lia. reflexivity.
Qed.

(** ** Pointwise equality and negation *)

#[export] Instance mirror_pad_Proper h : Proper (Qlist_eq ==> Qlist_eq) (mirror_pad h).
Proof. intros y y' H. unfold mirror_pad. rewrite H. reflexivity. Qed.

Lemma dot_Qlist_eq m p p' : Qlist_eq p p' -> dot m p == dot m p'.
Proof.
  intro H. revert m. induction H as [|x y p p' Hxy _ IH]; intro m;
    destruct m as [|a m]; unfold dot in *; cbn [combine map]; try reflexivity.
  rewrite !qsum_cons, Hxy, IH. reflexivity.
Qed.

#[export] Instance convolve_valid_Proper m : Proper (Qlist_eq ==> Qlist_eq) (convolve_valid m).
Proof.
  intros p p' H. unfold convolve_valid. rewrite (Qlist_eq_length _ _ H).
  apply Qlist_eq_map_seq. intros i _. apply dot_Qlist_eq. rewrite H. reflexivity.
Qed.

#[export] Instance moving_average3_Proper : Proper (Qlist_eq ==> Qlist_eq) moving_average3.
Proof. intros y y' H. unfold moving_average3. rewrite H. reflexivity. Qed.

Lemma mirror_pad_map (f : Q -> Q) h y : mirror_pad h (map f y) = map f (mirror_pad h y).
Proof.
  unfold mirror_pad. rewrite <- !map_rev, !tl_map, !firstn_map, <- !map_rev, !map_app.
  reflexivity.
Qed.

Lemma dot_opp m p : dot m (map Qopp p) == - dot m p.
Proof.
  revert p. induction m as [|a m IH]; intros [|x p]; unfold dot in *; cbn [combine map];
    try reflexivity.
  rewrite !qsum_cons, IH. ring.
Qed.

(** The smoother is linear: negating the series negates the result. *)
Lemma convolve_valid_opp m p :
  Qlist_eq (convolve_valid m (map Qopp p)) (map Qopp (convolve_valid m p)).
Proof.
  unfold convolve_valid. rewrite length_map, map_map. apply Qlist_eq_map_seq.
  intros i _. rewrite skipn_map. apply dot_opp.
Qed.

Lemma moving_average3_opp y :
  Qlist_eq (moving_average3 (map Qopp y)) (map Qopp (moving_average3 y)).
Proof. unfold moving_average3. rewrite mirror_pad_map. apply convolve_valid_opp. Qed.

(** ** Lines inside the window *)

(** A dot product as a sum over the indices of its first vector. *)
Lemma dot_nth m l :
  (length m <= length l)%nat ->
  dot m l == qsum (map (fun j => nth j m 0 * nth j l 0) (seq 0 (length m))).
Proof.
  revert l. induction m as [|a m IH]; intros [|x l] H; simpl in H; try lia;
    unfold dot in *; cbn [combine map length]; try reflexivity.
  cbn [seq map]. rewrite !qsum_cons, <- seq_shift, map_map. cbn [nth].
  rewrite IH by lia. reflexivity.
Qed.

Lemma qsum_nth m : qsum m == qsum (map (fun j => nth j m 0) (seq 0 (length m))).
Proof.
  rewrite <- (Qmult_1_r (qsum m)), <- (dot_repeat m 1 (length m)) by lia.
  rewrite dot_nth by (rewrite repeat_length; lia). apply qsum_map_ext.
  intros j Hj. apply in_seq in Hj. rewrite nth_repeat_lt by lia. ring.
Qed.

Lemma nth_offsets h j : (j < 2 * h + 1)%nat -> nth j (offsets h) 0 == qnat j - qnat h.
Proof.
  intro H. unfold offsets. rewrite (nth_map_seq (fun j => inject_Z (Z.of_nat j - Z.of_nat h))) by lia.
  unfold qnat, Qminus. rewrite <- inject_Z_opp, <- inject_Z_plus. reflexivity.
Qed.

(** Inside the padding, the padded series is the series. *)
Lemma nth_mirror_pad_mid h y k :
  (h < length y)%nat -> (h <= k)%nat -> (k < h + length y)%nat ->
  nth k (mirror_pad h y) 0 = nth (k - h) y 0.
Proof.
  intros H1 H2 H3. unfold mirror_pad.
  assert (Hp : length (rev (firstn h (tl y))) = h)
    by (rewrite length_rev, length_firstn, length_tl; lia).
  rewrite app_nth2 by (rewrite Hp; lia). rewrite Hp, app_nth1 by lia. reflexivity.
Qed.

(** The Savitzky-Golay filter reproduces a line at every point at least
    half a window away from the ends, for every odd window up to 11 points
    and every order below it: its coefficients sum to 1 and have a zero
    first moment about the centre. *)
Lemma savitzky_golay_line_interior a c n w o r :
  (w <= 11)%nat -> Nat.odd w = true -> (o < w)%nat -> (w <= n)%nat ->
  exists out, savitzky_golay (line a c n) w o 0 r = Ok out /\
    forall i, (Nat.div2 w <= i)%nat -> (i + Nat.div2 w < n)%nat -> nth i out 0 == a + c * qnat i.
Proof.
  intros Hw Hodd Ho Hn.
  destruct (sg_coeffs_smoothing w o r Hw Hodd Ho) as (m & Hm & Hl & Hs & Hd).
  assert (Ew : Nat.even w = false) by (unfold Nat.odd in Hodd; destruct (Nat.even w); easy).
  pose proof (odd_window w Ew) as Hwh. set (h := Nat.div2 w) in *.
  unfold savitzky_golay. rewrite Ew, Hm, line_length.
  rewrite (proj2 (Nat.ltb_ge w o)), (proj2 (Nat.ltb_ge n w)) by lia. cbn [orb].
  eexists. split; [reflexivity|]. intros i Hi1 Hi2.
  assert (Hhn : (h < length (line a c n))%nat) by (rewrite line_length; lia).
  unfold convolve_valid. rewrite length_mirror_pad, line_length by assumption.
  rewrite (nth_map_seq (fun i => dot m (skipn i (mirror_pad h (line a c n))))) by lia.
  rewrite dot_nth by (rewrite length_skipn, length_mirror_pad, line_length; lia). rewrite Hl.
  rewrite (qsum_map_ext _ (fun j => (a + c * qnat i) * nth j m 0 + c * (nth j m 0 * (qnat j - qnat h)))).
  2:{ intros j Hj. apply in_seq in Hj.
      rewrite nth_skipn, nth_mirror_pad_mid, line_nth by (rewrite ?line_length; lia).
      rewrite qnat_sub, qnat_add by lia. ring. }
  rewrite qsum_map_plus, !qsum_map_scale.
  rewrite qsum_nth, Hl in Hs. rewrite dot_nth in Hd by (unfold offsets; rewrite length_map_seq; lia).
  rewrite Hl, (qsum_map_ext _ (fun j => nth j m 0 * (qnat j - qnat h))) in Hd.
  2:{ intros j Hj. apply in_seq in Hj. rewrite nth_offsets by lia. reflexivity. }
  rewrite Hs, Hd. ring.
Qed.

(** ** Sign preservation *)

Lemma dot_nonneg m p :
  Forall (fun a => 0 <= a) m -> Forall (fun x => 0 <= x) p -> 0 <= dot m p.
Proof.
  intros Hm. revert p. induction Hm as [|a m Ha Hm IH]; intros p Hp; [unfold dot; simpl; lra|].
  destruct Hp as [|x p Hx Hp]; [unfold dot; simpl; lra|].
  unfold dot in *. cbn [combine map]. rewrite qsum_cons.
  pose proof (Qmult_le_0_compat a x Ha Hx). specialize (IH p Hp). lra.
Qed.

(** Nonnegative weights with a positive total, applied to positive
    values, give a positive value. *)
Lemma dot_pos m p :
  Forall (fun a => 0 <= a) m -> 0 < qsum m ->
  Forall (fun x => 0 < x) p -> (length m <= length p)%nat -> 0 < dot m p.
Proof.
  intros Hm. revert p. induction Hm as [|a m Ha Hm IH]; intros p Hs Hp Hl;
    [unfold qsum in Hs; simpl in Hs; lra|].
  destruct Hp as [|x p Hx Hp]; [simpl in Hl; lia|].
  unfold dot in *. cbn [combine map]. rewrite qsum_cons in Hs |- *.
  assert (Hp0 : Forall (fun x => 0 <= x) p).
  { apply Forall_impl with (2 := Hp). intros z Hz. lra. }
  pose proof (dot_nonneg m p Hm Hp0) as Hd. unfold dot in Hd.
  destruct (Qlt_le_dec 0 a) as [Ha'|Ha'].
  - pose proof (Qmult_lt_0_compat a x Ha' Hx). lra.
  - assert (0 < qsum m) by lra.
    pose proof (Qmult_le_0_compat a x Ha (Qlt_le_weak _ _ Hx)).
    specialize (IH p H Hp ltac:(simpl in Hl; lia)). lra.
Qed.

Lemma Forall_mirror_pad (P : Q -> Prop) h y : Forall P y -> Forall P (mirror_pad h y).
Proof.
  intro H. unfold mirror_pad.
  apply Forall_app; split; [|apply Forall_app; split]; auto 6 with osc.
Qed.

Lemma convolve_pos m p :
  Forall (fun a => 0 <= a) m -> 0 < qsum m -> Forall (fun x => 0 < x) p ->
  Forall (fun x => 0 < x) (convolve_valid m p).
Proof.
  intros Hm Hs Hp. apply Forall_forall. intros v Hv.
  unfold convolve_valid in Hv. apply in_map_iff in Hv as (i & <- & Hi).
  apply in_seq in Hi. apply dot_pos; auto with osc.
  rewrite length_skipn. lia.
Qed.

(** With the code's configuration the smoother keeps a positive series
    positive at every point (the mirror padding included). *)
Lemma savitzky_golay_config_pos y r out :
  Forall (fun x => 0 < x) y -> savitzky_golay y 3 1 0 r = Ok out ->
  Forall (fun x => 0 < x) out.
Proof.
  intros Hy. rewrite savitzky_golay_config.
  destruct (length y <? 3)%nat; [discriminate|]. intro E. injection E as <-.
  apply convolve_pos; [repeat constructor; lra | unfold qsum; simpl; lra |].
  apply Forall_mirror_pad. assumption.
Qed.

(** C10: smoothing is idempotent on constants (spec 8): for every odd
    window up to 11 points, every order below the window and every rate,
    and in particular for the code's smoothing of a column of at least 3
    points, a constant series comes back unchanged; the mirror padding
    introduces no drift. *)
Theorem smoothing_constant c n :
  (forall w o r, (w <= 11)%nat -> Nat.odd w = true -> (o < w)%nat -> (w <= n)%nat ->
     exists out, savitzky_golay (repeat c n) w o 0 r = Ok out /\ Qlist_eq out (repeat c n)) /\
  ((3 <= n)%nat -> exists out, smooth_column (repeat c n) = Ok out /\ Qlist_eq out (repeat c n)).
Proof.
  split; [intros; apply savitzky_golay_constant; assumption|].
  intro H. apply savitzky_golay_constant; (reflexivity || lia).
Qed.

(** C18: the smoother on every branch, for every window up to 11
    points, every order, derivative and rate: it raises
    [InvalidWindowError] exactly when the window is even, not larger
    than the polynomial order, or larger than the series, and otherwise
    returns one value per point of the series; in particular the code's
    smoothing of a column (window 3, order 1) raises exactly on series
    shorter than 3 points. *)
Theorem savitzky_golay_spec y w o d r :
  (w <= 11)%nat ->
  (match savitzky_golay y w o d r with
   | Ok out => Nat.even w = false /\ (o < w)%nat /\ (w <= length y)%nat /\ length out = length y
   | Err e => e = InvalidWindowError /\ (Nat.even w = true \/ (w <= o)%nat \/ (length y < w)%nat)
   end) /\
  (smooth_column y = Err InvalidWindowError <-> (length y < 3)%nat).
Proof.
  intro Hw. split.
  2:{ unfold smooth_column. rewrite savitzky_golay_config.
      destruct (Nat.ltb_spec (length y) 3); split; (discriminate || reflexivity || lia). }
  unfold savitzky_golay.
  destruct (Nat.even w) eqn:Ew; [simpl; auto|].
  destruct (Nat.ltb_spec w o) as [Ho|Ho]; [simpl; split; [reflexivity | right; left; lia]|].
  destruct (Nat.ltb_spec (length y) w) as [Hl|Hl]; simpl; [split; [reflexivity | right; right; lia]|].
  destruct (Nat.eq_dec o w) as [->|Hne].
  - unfold sg_coeffs. rewrite sg_fit_singular by assumption. split; [reflexivity | right; left; lia].
  - destruct (sg_coeffs_ok w o d r Hw Ew ltac:(lia)) as (m & Hm & Hml). rewrite Hm.
    pose proof (odd_window w Ew).
    rewrite length_convolve_valid, length_mirror_pad, Hml by lia. repeat split; lia.
Qed.

(** C19: smoothing reproduces lines: for every odd window up to 11
    points and every order below it, the smoothed series of a line
    [a + c*i] equals the line at every point at least half a window from
    the ends; the code's smoothing (window 3, order 1) of a line of at
    least 3 points is exact at every interior point, and the even mirror
    padding pulls each end value 2c/3 towards the interior. *)
Theorem smooth_column_line a c n :
  (forall w o r, (w <= 11)%nat -> Nat.odd w = true -> (o < w)%nat -> (w <= n)%nat ->
     exists out, savitzky_golay (line a c n) w o 0 r = Ok out /\
       forall i, (Nat.div2 w <= i)%nat -> (i + Nat.div2 w < n)%nat -> nth i out 0 == a + c * qnat i) /\
  ((3 <= n)%nat ->
  exists out, smooth_column (line a c n) = Ok out /\ length out = n /\
    (forall i, (1 <= i)%nat -> (i + 1 < n)%nat -> nth i out 0 == a + c * qnat i) /\
    nth 0 out 0 == a + (2#3) * c /\
    nth (n - 1) out 0 == a + c * qnat (n - 1) - (2#3) * c).
Proof.
  split; [intros; apply savitzky_golay_line_interior; assumption|].
  intro Hn. unfold smooth_column. rewrite savitzky_golay_config, line_length.
  rewrite (proj2 (Nat.ltb_ge n 3)) by lia. eexists. split; [reflexivity|].
  assert (Hl : (2 <= length (line a c n))%nat) by (rewrite line_length; lia).
  split; [rewrite length_moving_average3, line_length; lia|].
  split; [|split].
  - intros i Hi1 Hi2. rewrite moving_average3_nth, mirror_pad_1 by (rewrite ?line_length; lia).
    destruct i as [|k]; [lia|].
    rewrite !nth_pad_inner by (rewrite line_length; lia).
    rewrite !line_nth by lia. rewrite !qnat_succ. field.
  - rewrite moving_average3_nth, mirror_pad_1 by (rewrite ?line_length; lia).
    rewrite !nth_pad_inner by (rewrite line_length; lia). simpl nth at 1.
    rewrite !line_nth by lia. rewrite qnat_succ, qnat_0. field.
  - rewrite moving_average3_nth, mirror_pad_1 by (rewrite ?line_length; lia).
    destruct n as [|m]; [lia|]. rewrite Nat.sub_1_r. simpl pred.
    destruct m as [|k]; [lia|].
    rewrite (nth_pad_inner _ _ _ k), (nth_pad_inner _ _ _ (S k)) by (rewrite line_length; lia).
    rewrite <- (line_length a c (S (S k))) at 3. rewrite nth_pad_last, line_length.
    replace (S (S k) - 2)%nat with k by lia.
    rewrite !line_nth by lia. rewrite !qnat_succ. field.
Qed.

(** ** Witnesses *)

Lemma smoothing_constant_witness :
  (3 <= 8)%nat /\
  exists out, smooth_column (repeat (7#3) 8) = Ok out /\ Qlist_eq out (repeat (7#3) 8).
Proof. split; [lia|]. apply (smoothing_constant (7#3) 8). lia. Defined.

Lemma savitzky_golay_spec_witness :
  (3 <= 11)%nat /\
  (match savitzky_golay [1; 4; 2; 8] 3 1 1 1 with
   | Ok out => Nat.even 3 = false /\ (1 < 3)%nat /\ (3 <= length [1; 4; 2; 8])%nat /\
               length out = length [1; 4; 2; 8]
   | Err e => e = InvalidWindowError /\
              (Nat.even 3 = true \/ (3 <= 1)%nat \/ (length [1; 4; 2; 8] < 3)%nat)
   end) /\
  (smooth_column [1; 4; 2; 8] = Err InvalidWindowError <-> (length [1; 4; 2; 8] < 3)%nat).
Proof. split; [lia | apply savitzky_golay_spec; lia]. Defined.

Lemma smooth_column_line_witness :
  (3 <= 6)%nat /\
  exists out, smooth_column (line 2 3 6) = Ok out /\ length out = 6%nat /\
    (forall i, (1 <= i)%nat -> (i + 1 < 6)%nat -> nth i out 0 == 2 + 3 * qnat i) /\
    nth 0 out 0 == 2 + (2#3) * 3 /\
    nth (6 - 1) out 0 == 2 + 3 * qnat (6 - 1) - (2#3) * 3.
Proof. split; [lia | apply (proj2 (smooth_column_line 2 3 6)); lia]. Defined.

End Smoother.
