(* ===== verification/Classifier.v ===== *)
(** * Critical-point classifier

    [inflection_point_classifaction] and [plotable_points] of the
    repository's [single_sim_analysis] module, called at lines 80 and 82
    of [src/oscillator_classification/multi_sim_analysis.py] on the frame
    of smoothed first and second derivatives.  The module is not under
    [src/]: the definitions follow spec section 4.3.  The file holds the
    labels, the per-index contract, the noise threshold, the impossibility
    of two adjacent identical extrema, the monotonicity of the labels
    in the sensitivity, and the symmetry of the test: negating both
    derivative columns swaps [min] and [max]. *)

From Stdlib Require Import ZArith QArith Lqa List Bool Lia Morphisms Setoid.
From S2P Require Import Prelude.
Import ListNotations.
Open Scope Q_scope.
Open Scope osc_scope.

Module Classifier.

(** The labels [min], [max] and the third label of the code. *)
Inductive point_class : Type :=
| PMin
| PMax
| PNone.

Definition point_class_eq_dec (a b : point_class) : {a = b} + {a <> b}.
Proof. decide equality. Defined.

Definition point_class_eqb (a b : point_class) : bool :=
  if point_class_eq_dec a b then true else false.

(** [min] or [max]: the rows kept by [isin(['min','max'])]. *)
Definition is_extremum (c : point_class) : bool :=
  match c with PNone => false | _ => true end.

(** The test at an interior index from the first derivative at [i-1]
    ([prev]) and at [i] ([cur]) and the second derivative at [i]
    ([curv]): a sign change of the derivative with a curvature beyond the
    sensitivity. *)
Definition classify_point (sensitivity prev cur curv : Q) : point_class :=
  if (0 [<] prev) && (cur [<=] 0) && (curv [<] - sensitivity) then PMax
  else if (prev [<] 0) && (0 [<=] cur) && (sensitivity [<] curv) then PMin
  else PNone.

(** The label of index [i] of a frame of [n] rows: the first and last
    rows have no neighbour on one side and are never classified. *)
Definition classify_at (dy d2 : list Q) (sensitivity : Q) (n i : nat) : point_class :=
  if (i =? 0)%nat || (n <=? S i)%nat then PNone
  else classify_point sensitivity (nth (i - 1) dy 0) (nth i dy 0) (nth i d2 0).

(** One label per row of the frame. *)
Definition inflection_point_classifaction (dy d2 : list Q) (sensitivity : Q)
  : list point_class :=
  map (classify_at dy d2 sensitivity (length dy)) (seq 0 (length dy)).

(** The [dot_class] column: whether the row is drawn as an extremum. *)
Definition plotable_points (labels : list point_class) : list bool :=
  map is_extremum labels.

(** ** Pointwise equality and negation *)

(** The label of the negated series: a maximum becomes a minimum. *)
Definition swap_class (c : point_class) : point_class :=
  match c with PMin => PMax | PMax => PMin | PNone => PNone end.

(** ** The code's classification *)

(** [inflection_point_classifaction(df=df, sensitivity=sensitivity)] with
    [sensitivity = 0.01]. *)
Definition classify_frame (dy d2 : list Q) : list point_class :=
  inflection_point_classifaction dy d2 (1#100).

(** ** Witnesses *)

(** A smoothed derivative going up, then down, with a curvature well
    below the sensitivity at index 2. *)
Definition demo_dy : list Q := [1; 1; 0; -1; -1; 0; 1].

Definition demo_d2 : list Q := [0; 0; -1; 0; (1#200); 1; 0].

(** ** Witnesses *)

Lemma point_class_eqb_eq a b : point_class_eqb a b = true <-> a = b.
Proof. unfold point_class_eqb. destruct (point_class_eq_dec a b); split; congruence. Qed.

(** ** Per-index contract *)

Lemma classification_length dy d2 s :
  length (inflection_point_classifaction dy d2 s) = length dy.
Proof. apply length_map_seq. Qed.

Lemma classification_nth dy d2 s i :
  (i < length dy)%nat ->
  nth i (inflection_point_classifaction dy d2 s) PNone = classify_at dy d2 s (length dy) i.
Proof. apply nth_map_seq. Qed.

(** The two ends are never classified. *)
Lemma classification_ends dy d2 s :
  dy <> [] ->
  nth 0 (inflection_point_classifaction dy d2 s) PNone = PNone /\
  nth (length dy - 1) (inflection_point_classifaction dy d2 s) PNone = PNone.
Proof.
  intro Hne. assert (0 < length dy)%nat by (destruct dy; [congruence | simpl; lia]).
  rewrite !classification_nth by lia. unfold classify_at.
  split; [reflexivity|]. rewrite (proj2 (Nat.leb_le (length dy) (S (length dy - 1)))) by lia.
  rewrite orb_true_r. reflexivity.
Qed.

(** The label of [classify_point] is [max] exactly under the code's test. *)
Lemma classify_point_max s p c k :
  classify_point s p c k = PMax <-> 0 < p /\ c <= 0 /\ k < - s.
Proof.
  unfold classify_point. split.
  - repeat case_q; try discriminate; intros _; repeat split; assumption.
  - intros (Hp & Hc & Hk).
    rewrite (proj2 (Qltb_iff 0 p) Hp), (proj2 (Qle_bool_iff c 0) Hc),
      (proj2 (Qltb_iff k (- s)) Hk). reflexivity.
Qed.

Lemma classify_point_min s p c k :
  classify_point s p c k = PMin <-> p < 0 /\ 0 <= c /\ s < k.
Proof.
  unfold classify_point. split.
  - repeat case_q; try discriminate; intros _; repeat split; assumption.
  - intros (Hp & Hc & Hk).
    assert (E : (0 [<] p) = false) by (apply Qltb_false; lra). rewrite E. simpl.
    rewrite (proj2 (Qltb_iff p 0) Hp), (proj2 (Qle_bool_iff 0 c) Hc),
      (proj2 (Qltb_iff s k) Hk). reflexivity.
Qed.

(** ** Pointwise equality and negation *)

Lemma classify_point_Qeq s p p' c c' k k' :
  p == p' -> c == c' -> k == k' -> classify_point s p c k = classify_point s p' c' k'.
Proof.
  intros Hp Hc Hk. unfold classify_point.
  assert (Hmax : (0 [<] p) && (c [<=] 0) && (k [<] - s) = (0 [<] p') && (c' [<=] 0) && (k' [<] - s))
    by (rewrite Hp, Hc, Hk; reflexivity).
  assert (Hmin : (p [<] 0) && (0 [<=] c) && (s [<] k) = (p' [<] 0) && (0 [<=] c') && (s [<] k'))
    by (rewrite Hp, Hc, Hk; reflexivity).
  rewrite Hmax, Hmin. reflexivity.
Qed.

(** The test is symmetric: on the negated derivatives a [max] is a [min]
    and conversely. *)
Lemma classify_point_opp s p c k :
  classify_point s (- p) (- c) (- k) = swap_class (classify_point s p c k).
Proof.
  unfold classify_point. repeat (case_q; cbn [andb swap_class]); try reflexivity; exfalso; lra.
Qed.

(** At an interior index the label is the test of [classify_point]. *)
Lemma classification_interior dy d2 s i :
  (0 < i)%nat -> (S i < length dy)%nat ->
  nth i (inflection_point_classifaction dy d2 s) PNone =
  classify_point s (nth (i - 1) dy 0) (nth i dy 0) (nth i d2 0).
Proof.
  intros H0 Hn. rewrite classification_nth by lia. unfold classify_at.
  rewrite (proj2 (Nat.eqb_neq i 0)) by lia.
  rewrite (proj2 (Nat.leb_gt (length dy) (S i))) by lia. reflexivity.
Qed.

(** Every label is the one of [classify_point] or [PNone]. *)
Lemma classification_cases dy d2 s i :
  (i < length dy)%nat ->
  nth i (inflection_point_classifaction dy d2 s) PNone = PNone \/
  ((0 < i)%nat /\ (S i < length dy)%nat /\
   nth i (inflection_point_classifaction dy d2 s) PNone =
   classify_point s (nth (i - 1) dy 0) (nth i dy 0) (nth i d2 0)).
Proof.
  intro Hi. destruct (Nat.eq_dec i 0) as [->|H0].
  - left. rewrite classification_nth by assumption. reflexivity.
  - destruct (Nat.lt_ge_cases (S i) (length dy)) as [Hn|Hn].
    + right. split; [lia|]. split; [assumption|]. apply classification_interior; lia.
    + left. rewrite classification_nth by assumption. unfold classify_at.
      rewrite (proj2 (Nat.leb_le _ _) Hn), orb_true_r. reflexivity.
Qed.

(** The contract of spec 4.3 at every index: a row is [max] exactly when
    it is interior, the first derivative goes from positive at [i-1] to
    non-positive at [i], and the second derivative at [i] is below
    [-sensitivity]; [min] under the mirrored conditions. *)
Lemma classification_contract dy d2 s i :
  (i < length dy)%nat ->
  (nth i (inflection_point_classifaction dy d2 s) PNone = PMax <->
     (0 < i)%nat /\ (S i < length dy)%nat /\
     0 < nth (i - 1) dy 0 /\ nth i dy 0 <= 0 /\ nth i d2 0 < - s) /\
  (nth i (inflection_point_classifaction dy d2 s) PNone = PMin <->
     (0 < i)%nat /\ (S i < length dy)%nat /\
     nth (i - 1) dy 0 < 0 /\ 0 <= nth i dy 0 /\ s < nth i d2 0).
Proof.
  intro Hi. destruct (classification_cases dy d2 s i Hi) as [E|(H0 & Hn & E)]; rewrite E.
  - split; split; try discriminate; intros (H0 & Hn & Hc);
      rewrite classification_interior in E by assumption;
      [ rewrite (proj2 (classify_point_max _ _ _ _) Hc) in E
      | rewrite (proj2 (classify_point_min _ _ _ _) Hc) in E ]; discriminate.
  - rewrite classify_point_max, classify_point_min. tauto.
Qed.

(** Noise suppression: where the second derivative lies within
    [-sensitivity, sensitivity] the row is never an extremum. *)
Lemma classification_noise dy d2 s i :
  - s <= nth i d2 0 <= s ->
  nth i (inflection_point_classifaction dy d2 s) PNone = PNone.
Proof.
  intros [Hlo Hhi].
  destruct (Nat.lt_ge_cases i (length dy)) as [Hi|Hi];
    [|rewrite nth_overflow by (rewrite classification_length; assumption); reflexivity].
  destruct (classification_cases dy d2 s i Hi) as [E|(_ & _ & E)]; rewrite E; [reflexivity|].
  unfold classify_point. repeat case_q; lra || reflexivity.
Qed.

(** Two adjacent rows are never both [max] nor both [min]. *)
Lemma classification_no_adjacent_repeat dy d2 s i :
  nth i (inflection_point_classifaction dy d2 s) PNone <> PNone ->
  nth (S i) (inflection_point_classifaction dy d2 s) PNone <>
  nth i (inflection_point_classifaction dy d2 s) PNone.
Proof.
  intros Hne Heq.
  assert (Hi : (S i < length dy)%nat).
  { destruct (Nat.lt_ge_cases (S i) (length dy)) as [H|H]; [assumption|].
    rewrite (nth_overflow _ _ (n := S i)) in Heq by (rewrite classification_length; assumption).
    congruence. }
  pose proof (classification_contract dy d2 s i ltac:(lia)) as [Mi mi].
  pose proof (classification_contract dy d2 s (S i) Hi) as [Ms ms].
  simpl in Ms, ms. rewrite Nat.sub_0_r in Ms, ms.
  destruct (nth i (inflection_point_classifaction dy d2 s) PNone); [| |congruence].
  - apply ms in Heq. destruct (proj1 mi eq_refl) as (_ & _ & _ & H & _). lra.
  - apply Ms in Heq. destruct (proj1 Mi eq_refl) as (_ & _ & _ & H & _). lra.
Qed.

(** Raising the sensitivity only removes extrema: a row labelled at the
    higher sensitivity has the same label at the lower one. *)
Lemma classification_sensitivity_mono dy d2 s s' i :
  s <= s' ->
  nth i (inflection_point_classifaction dy d2 s') PNone = PNone \/
  nth i (inflection_point_classifaction dy d2 s') PNone =
  nth i (inflection_point_classifaction dy d2 s) PNone.
Proof.
  intro Hs.
  destruct (Nat.lt_ge_cases i (length dy)) as [Hi|Hi];
    [|left; rewrite nth_overflow by (rewrite classification_length; assumption); reflexivity].
  destruct (classification_cases dy d2 s' i Hi) as [E|(H0 & Hn & E)]; [left; assumption|].
  rewrite E, classification_interior by assumption.
  destruct (classify_point s' _ _ _) eqn:C; [right; symmetry| right; symmetry |left; reflexivity].
  - apply classify_point_min. apply classify_point_min in C. lra.
  - apply classify_point_max. apply classify_point_max in C. lra.
Qed.

(** Where the first derivative is positive everywhere no row is an
    extremum: a [max] needs a non-positive derivative, a [min] a negative
    one. *)
Lemma classification_positive_derivative dy d2 s :
  Forall (fun d => 0 < d) dy ->
  Forall (fun c => c = PNone) (inflection_point_classifaction dy d2 s).
Proof.
  intro Hpos. apply Forall_nth. intros i d Hi. rewrite classification_length in Hi.
  rewrite nth_indep with (d' := PNone) by (rewrite classification_length; assumption).
  destruct (classification_cases dy d2 s i Hi) as [E|(H0 & Hn & E)]; rewrite E; [reflexivity|].
  assert (0 < nth i dy 0) by (apply (proj1 (Forall_nth _ _) Hpos); assumption).
  assert (0 < nth (i - 1) dy 0) by (apply (proj1 (Forall_nth _ _) Hpos); lia).
  unfold classify_point. repeat case_q; lra || reflexivity.
Qed.

(** The classification depends only on the values of the derivatives. *)
Lemma classification_Qlist_eq dy dy' d2 d2' s :
  Qlist_eq dy dy' -> Qlist_eq d2 d2' ->
  inflection_point_classifaction dy d2 s = inflection_point_classifaction dy' d2' s.
Proof.
  intros H H2. unfold inflection_point_classifaction. rewrite <- (Qlist_eq_length _ _ H).
  apply map_ext. intro i. unfold classify_at. destruct (_ || _)%bool; [reflexivity|].
  apply classify_point_Qeq; apply Qlist_eq_nth; assumption.
Qed.

(** Negating both derivative columns swaps [min] and [max] row by row. *)
Lemma classification_opp dy d2 s :
  inflection_point_classifaction (map Qopp dy) (map Qopp d2) s =
  map swap_class (inflection_point_classifaction dy d2 s).
Proof.
  unfold inflection_point_classifaction. rewrite length_map, map_map. apply map_ext.
  intro i. unfold classify_at. destruct (_ || _)%bool; [reflexivity|].
  rewrite !nth_map_opp. apply classify_point_opp.
Qed.

(** ** The code's classification *)


(** C11: safety of the code's classification: a row whose smoothed
    second derivative lies in [-0.01, 0.01] is never an extremum,
    whatever the first derivative does (noise suppression); and two
    adjacent rows are never both [max] nor both [min]: a [max] at [i]
    needs a non-positive derivative at [i], a [max] at [i+1] a positive
    one, so a plateau of labels never comes from adjacent rows. *)
Theorem classify_frame_safety dy d2 i :
  (- (1#100) <= nth i d2 0 <= (1#100) -> nth i (classify_frame dy d2) PNone = PNone) /\
  (nth i (classify_frame dy d2) PNone <> PNone ->
   nth (S i) (classify_frame dy d2) PNone <> nth i (classify_frame dy d2) PNone).
Proof. split; [apply classification_noise | apply classification_no_adjacent_repeat]. Qed.

(** C13: the code's sensitivity 0.01 sits in a monotone family: any
    higher sensitivity keeps a subset of its extrema (with the same
    labels), any lower one a superset. *)
Theorem classify_frame_sensitivity dy d2 s i :
  ((1#100) <= s ->
   nth i (inflection_point_classifaction dy d2 s) PNone = PNone \/
   nth i (inflection_point_classifaction dy d2 s) PNone = nth i (classify_frame dy d2) PNone) /\
  (s <= (1#100) ->
   nth i (classify_frame dy d2) PNone = PNone \/
   nth i (classify_frame dy d2) PNone = nth i (inflection_point_classifaction dy d2 s) PNone).
Proof. split; intro H; apply classification_sensitivity_mono; assumption. Qed.

(** ** Witnesses *)


Lemma classify_frame_safety_witness :
  - (1#100) <= nth 4 demo_d2 0 <= (1#100) /\
  nth 4 (classify_frame demo_dy demo_d2) PNone = PNone /\
  nth 2 (classify_frame demo_dy demo_d2) PNone <> PNone /\
  nth 3 (classify_frame demo_dy demo_d2) PNone <> nth 2 (classify_frame demo_dy demo_d2) PNone.
Proof.
  split; [simpl; split; lra|]. split; [apply (classify_frame_safety demo_dy demo_d2 4); simpl; split; lra|].
  split; [vm_compute; discriminate|]. apply (classify_frame_safety demo_dy demo_d2 2).
  vm_compute. discriminate.
Defined.

Lemma classify_frame_sensitivity_witness :
  (1#100) <= 2 /\
  (nth 2 (inflection_point_classifaction demo_dy demo_d2 2) PNone = PNone \/
   nth 2 (inflection_point_classifaction demo_dy demo_d2 2) PNone =
   nth 2 (classify_frame demo_dy demo_d2) PNone).
Proof.
  split; [lra|]. apply (classify_frame_sensitivity demo_dy demo_d2 2 2). lra.
Defined.

End Classifier.
