(* ===== verification/Regime.v ===== *)
(** * Regime tracker

    [min_max_flip_by_gen], [time_as_min_max] and [min_max_filter] of the
    repository's [single_sim_analysis] module, called at lines 84, 86 and
    87 of [src/oscillator_classification/multi_sim_analysis.py] to add
    the columns [min_max_flip], [time_as_max_min] and [min_max_filter] to
    the frame.  The module is not under [src/]: the three passes follow
    spec section 4.4, and the one-pass fold with an explicit accumulator
    of spec section 9 is stated as a step relation and proved to compute
    the same three columns; its reachable states are characterized by an
    invariant.  The flips do not depend on which extremum type is called
    [min]. *)

From Stdlib Require Import ZArith QArith List Bool Lia.
From S2P Require Import Prelude Classifier.
Import ListNotations.
Import Classifier.

Module Regime.

(** The "last extremum type" of the scan (spec 9: [Unset],
    [LastWasMin], [LastWasMax]). *)
Inductive last_ext : Type :=
| Unset
| LastWasMin
| LastWasMax.

Definition last_ext_eqb (a b : last_ext) : bool :=
  match a, b with
  | Unset, Unset | LastWasMin, LastWasMin | LastWasMax, LastWasMax => true
  | _, _ => false
  end.

(** The state a label moves the scan to. *)
Definition ext_of (c : point_class) : last_ext :=
  match c with PMin => LastWasMin | PMax => LastWasMax | PNone => Unset end.

(** Whether a label starts a new regime after the state [last]. *)
Definition is_flip (last : last_ext) (c : point_class) : bool :=
  is_extremum c && negb (last_ext_eqb (ext_of c) last).

(** ** The three passes *)

(** [min_max_flip]: a row flips when it is an extremum of a type other
    than the last one seen. *)
Fixpoint flips_from (last : last_ext) (labels : list point_class) : list bool :=
  match labels with
  | [] => []
  | c :: cs =>
      if is_flip last c then true :: flips_from (ext_of c) cs
      else false :: flips_from last cs
  end.

Definition min_max_flip_by_gen (labels : list point_class) : list bool :=
  flips_from Unset labels.

(** [time_as_max_min]: the counter is reset to 1 on a flip and
    incremented otherwise; it starts at 0 so that the first row gets 1. *)
Fixpoint durations_from (counter : nat) (flips : list bool) : list nat :=
  match flips with
  | [] => []
  | f :: fs =>
      let k := if f then 1%nat else S counter in
      k :: durations_from k fs
  end.

Definition time_as_min_max (flips : list bool) : list nat := durations_from 0 flips.

(** [min_max_filter]: every flip but the first one of the series. *)
Fixpoint counted_from (seen : bool) (flips : list bool) : list bool :=
  match flips with
  | [] => []
  | f :: fs => (f && seen) :: counted_from (seen || f) fs
  end.

Definition min_max_filter (flips : list bool) : list bool := counted_from false flips.

(** ** The one-pass tracker of spec 9 *)

(** The accumulator of the fold. *)
Record tracker : Type := Tracker {
  t_last : last_ext;
  t_duration : nat;
  t_seen : bool
}.

(** The per-row output: the three columns. *)
Record regime_row : Type := RegimeRow {
  flip : bool;
  regime_duration : nat;
  counted : bool
}.

Definition tracker_init : tracker := Tracker Unset 0 false.

Definition track_step (s : tracker) (c : point_class) : tracker * regime_row :=
  if is_flip (t_last s) c then
    (Tracker (ext_of c) 1 true, RegimeRow true 1 (t_seen s))
  else
    (Tracker (t_last s) (S (t_duration s)) (t_seen s),
     RegimeRow false (S (t_duration s)) false).

Fixpoint track (s : tracker) (labels : list point_class) : list regime_row :=
  match labels with
  | [] => []
  | c :: cs => let '(s', r) := track_step s c in r :: track s' cs
  end.

(** ** The one pass computes the three columns *)

Fixpoint zip_rows (fl : list bool) (ds : list nat) (cs : list bool) : list regime_row :=
  match fl, ds, cs with
  | f :: fl', d :: ds', c :: cs' => RegimeRow f d c :: zip_rows fl' ds' cs'
  | _, _, _ => []
  end.

(** The three columns of the code, side by side. *)
Definition regime_columns (labels : list point_class) : list regime_row :=
  let fl := min_max_flip_by_gen labels in
  zip_rows fl (time_as_min_max fl) (min_max_filter fl).

(** ** The accumulator as a state machine *)

(** One transition of the scan on some label. *)
Inductive tstep (s : tracker) : tracker -> Prop :=
| tstep_label c : tstep s (fst (track_step s c)).

(** States reachable from the initial accumulator. *)
Inductive reachable : tracker -> Prop :=
| reach_init : reachable tracker_init
| reach_step s s' : reachable s -> tstep s s' -> reachable s'.

(** The states of the scan: before the first extremum nothing is seen;
    after it the last type is set, the first flip is recorded and the
    counter is positive. *)
Definition tracker_ok (s : tracker) : Prop :=
  (t_last s = Unset /\ t_seen s = false) \/
  (t_last s <> Unset /\ t_seen s = true /\ (1 <= t_duration s)%nat).

(** ** Symmetry *)

Definition swap_last (l : last_ext) : last_ext :=
  match l with Unset => Unset | LastWasMin => LastWasMax | LastWasMax => LastWasMin end.

(** ** The flips *)

(** The labels of the flip rows, in order. *)
Definition flip_labels (labels : list point_class) : list point_class :=
  select (min_max_flip_by_gen labels) labels.

(** No two consecutive labels of a list are equal. *)
Fixpoint alternating (l : list point_class) : bool :=
  match l with
  | a :: ((b :: _) as t) => negb (point_class_eqb a b) && alternating t
  | _ => true
  end.

(** ** Witnesses *)

Definition demo_labels : list point_class := [PNone; PMax; PNone; PMax; PNone; PMin; PNone].

(** ** Witnesses *)

Lemma last_ext_eqb_eq a b : last_ext_eqb a b = true <-> a = b.
Proof. destruct a, b; simpl; split; congruence. Qed.

(** ** The one pass computes the three columns *)

(** C4: refinement of the three passes by the one-pass fold of spec 9:
    the explicit accumulator computes, row for row, the [min_max_flip],
    [time_as_max_min] and [min_max_filter] columns of the code. *)
Theorem track_refines labels : track tracker_init labels = regime_columns labels.
Proof.
  unfold regime_columns, min_max_flip_by_gen, time_as_min_max, min_max_filter, tracker_init.
  generalize Unset 0%nat false.
  induction labels as [|c cs IH]; intros last dur seen; [reflexivity|].
  simpl. unfold track_step. simpl. destruct (is_flip last c); simpl; rewrite IH.
  - rewrite orb_true_r. reflexivity.
  - rewrite orb_false_r. reflexivity.
Qed.

(** ** The accumulator as a state machine *)

#[export] Hint Constructors tstep reachable : osc.

Lemma ext_of_flip last c : is_flip last c = true -> ext_of c <> Unset.
Proof. destruct c; simpl; discriminate. Qed.

Lemma tstep_ok s s' : tracker_ok s -> tstep s s' -> tracker_ok s'.
Proof.
  intros Hs [c]. unfold track_step.
  destruct (is_flip (t_last s) c) eqn:F; simpl.
  - right. split; [apply (ext_of_flip _ _ F)|]. split; [reflexivity | simpl; lia].
  - destruct Hs as [[Hl Hs]|(Hl & Hs & Hd)]; [left | right]; simpl.
    + split; assumption.
    + split; [assumption|]. split; [assumption | lia].
Qed.

Lemma reach_none k : reachable (Tracker Unset k false).
Proof.
  induction k as [|k IH]; [constructor|].
  apply reach_step with (1 := IH). exact (tstep_label (Tracker Unset k false) PNone).
Qed.

Lemma reach_set e k : e <> Unset -> reachable (Tracker e (S k) true).
Proof.
  intro He. induction k as [|k IH].
  - destruct e; [congruence| |].
    + exact (reach_step _ _ reach_init (tstep_label tracker_init PMin)).
    + exact (reach_step _ _ reach_init (tstep_label tracker_init PMax)).
  - apply reach_step with (1 := IH). exact (tstep_label (Tracker e (S k) true) PNone).
Qed.

(** The states of the one-pass accumulator reachable from its initial
    state by any sequence of labels are exactly the [tracker_ok] states:
    nothing is counted before the first extremum, and from the first
    extremum on the last type is set, flips are counted and the duration
    counter is positive. *)
Lemma reachable_iff s : reachable s <-> tracker_ok s.
Proof.
  split.
  - induction 1 as [|s s' _ IH Hst]; [left; split; reflexivity|].
    apply (tstep_ok s); assumption.
  - destruct s as [l d seen]. unfold tracker_ok. simpl.
    intros [[-> ->]|(Hl & -> & Hd)]; [apply reach_none|].
    destruct d as [|d]; [lia|]. apply reach_set. assumption.
Qed.

(** ** Symmetry *)

(** Swapping every [min] with [max] leaves the flips unchanged: a flip
    is a change of type, whatever the types are called. *)
Lemma flips_from_swap last labels :
  flips_from (swap_last last) (map swap_class labels) = flips_from last labels.
Proof.
  revert last. induction labels as [|c cs IH]; intro last; [reflexivity|]. simpl.
  replace (is_flip (swap_last last) (swap_class c)) with (is_flip last c)
    by (destruct last, c; reflexivity).
  replace (ext_of (swap_class c)) with (swap_last (ext_of c)) by (destruct c; reflexivity).
  rewrite !IH. reflexivity.
Qed.

Lemma min_max_flip_swap labels :
  min_max_flip_by_gen (map swap_class labels) = min_max_flip_by_gen labels.
Proof. apply (flips_from_swap Unset). Qed.

(** ** The flips *)

Lemma flips_from_length last labels : length (flips_from last labels) = length labels.
Proof.
  revert last. induction labels as [|c cs IH]; intro last; [reflexivity|].
  simpl. destruct (is_flip last c); simpl; rewrite IH; reflexivity.
Qed.

(** The flip labels after state [last] are extrema, alternate, and the
    first one differs from [last]. *)
Lemma flip_labels_from last labels :
  let l := select (flips_from last labels) labels in
  Forall (fun c => c <> PNone) l /\ alternating l = true /\
  (forall c l', l = c :: l' -> ext_of c <> last).
Proof.
  revert last. induction labels as [|c cs IH]; intro last; simpl; [split; [constructor|]; split; [reflexivity | discriminate]|].
  destruct (is_flip last c) eqn:F; simpl.
  - destruct (IH (ext_of c)) as (Hall & Halt & Hhd). unfold is_flip in F.
    apply andb_true_iff in F as [Fe Fl]. apply negb_true_iff in Fl.
    split; [constructor; [destruct c; discriminate | assumption]|]. split.
    + destruct (select (flips_from (ext_of c) cs) cs) as [|c' l'] eqn:E; [reflexivity|].
      rewrite Halt, andb_true_r. apply negb_true_iff.
      destruct (point_class_eqb c c') eqn:Ec; [|reflexivity].
      apply point_class_eqb_eq in Ec. subst c'. exfalso. apply (Hhd c l'); reflexivity.
    + intros c0 l0 E. injection E as <- _. intro Hc. rewrite Hc in Fl.
      rewrite (proj2 (last_ext_eqb_eq last last) eq_refl) in Fl. discriminate.
  - apply IH.
Qed.

(** The flips are extrema and alternate. *)
Lemma flip_labels_alternate labels :
  Forall (fun c => c <> PNone) (flip_labels labels) /\
  alternating (flip_labels labels) = true.
Proof. destruct (flip_labels_from Unset labels) as (H1 & H2 & _). split; assumption. Qed.

Lemma count_counted_from fl seen :
  count_true (counted_from seen fl) = if seen then count_true fl else pred (count_true fl).
Proof.
  revert seen. induction fl as [|f fl IH]; intro seen; [destruct seen; reflexivity|].
  simpl counted_from. rewrite !count_true_cons, IH.
  destruct seen, f; reflexivity.
Qed.

(** Only the first flip is not counted. *)
Lemma counted_flips labels :
  count_true (min_max_filter (min_max_flip_by_gen labels)) =
  pred (count_true (min_max_flip_by_gen labels)).
Proof. apply count_counted_from. Qed.

(** A series without extrema has no flip. *)
Lemma flips_no_extremum last labels :
  Forall (fun c => c = PNone) labels -> count_true (flips_from last labels) = 0%nat.
Proof.
  induction 1 as [|c cs Hc _ IH]; [reflexivity|]. subst c. simpl. exact IH.
Qed.

(** Every flip row is an extremum. *)
Lemma flips_le_extrema last labels :
  (count_true (flips_from last labels) <= count_true (map is_extremum labels))%nat.
Proof.
  revert last. induction labels as [|c cs IH]; intro last; [reflexivity|]. simpl.
  destruct (is_flip last c) eqn:F; rewrite !count_true_cons.
  - unfold is_flip in F. apply andb_true_iff in F as [-> _]. specialize (IH (ext_of c)). lia.
  - specialize (IH last). destruct (is_extremum c); lia.
Qed.

(** ** Durations *)

Lemma durations_from_length k fl : length (durations_from k fl) = length fl.
Proof.
  revert k. induction fl as [|f fl IH]; intro k; simpl; [reflexivity | rewrite IH; reflexivity].
Qed.

Lemma counted_from_durations_one fl seen k :
  Forall (fun d => d = 1%nat) (select (counted_from seen fl) (durations_from k fl)).
Proof.
  revert seen k. induction fl as [|f fl IH]; intros seen k; [constructor|].
  simpl. destruct (f && seen) eqn:E.
  - apply andb_true_iff in E as [-> _]. constructor; [reflexivity | apply IH].
  - apply IH.
Qed.

(** Every counted row has regime duration 1. *)
Lemma counted_durations_one labels :
  let fl := min_max_flip_by_gen labels in
  Forall (fun d => d = 1%nat) (select (min_max_filter fl) (time_as_min_max fl)).
Proof. apply counted_from_durations_one. Qed.

(** A counted row is a flip row. *)
Lemma counted_from_flip fl seen : zip_and fl (counted_from seen fl) = counted_from seen fl.
Proof.
  revert seen. induction fl as [|f fl IH]; intro seen; [reflexivity|].
  simpl. rewrite IH. destruct f, seen; reflexivity.
Qed.

Lemma counted_from_length fl seen : length (counted_from seen fl) = length fl.
Proof.
  revert seen. induction fl as [|f fl IH]; intro seen; simpl; [reflexivity | rewrite IH; reflexivity].
Qed.

(** The duration of row [i]: 1 on a flip, one more than the previous row
    otherwise (the first row counts from 0). *)
Lemma durations_nth k fl i :
  (i < length fl)%nat ->
  nth i (durations_from k fl) 0%nat =
  if nth i fl false then 1%nat
  else S (match i with O => k | S j => nth j (durations_from k fl) 0%nat end).
Proof.
  revert k i. induction fl as [|f fl IH]; intros k i Hi; [simpl in Hi; lia|].
  destruct i as [|i]; [reflexivity|]. simpl in Hi.
  simpl nth at 1 2. rewrite IH by lia.
  destruct i as [|i]; [reflexivity|]. reflexivity.
Qed.

(** The regime duration of row [i] is the number of rows since the last
    flip at or before [i], that row included; before any flip [i + 1]. *)
Lemma duration_since_flip fl i :
  (i < length fl)%nat ->
  (forall j, (j <= i)%nat -> nth j fl false = true ->
     (forall k, (j < k <= i)%nat -> nth k fl false = false) ->
     nth i (time_as_min_max fl) 0%nat = (i - j + 1)%nat) /\
  ((forall k, (k <= i)%nat -> nth k fl false = false) ->
     nth i (time_as_min_max fl) 0%nat = (i + 1)%nat).
Proof.
  unfold time_as_min_max. induction i as [|i IH]; intro Hi.
  - split.
    + intros j Hj Hf _. assert (j = 0%nat) by lia. subst j.
      rewrite durations_nth, Hf by assumption. reflexivity.
    + intro H. rewrite durations_nth, H by (assumption || lia). reflexivity.
  - destruct (IH ltac:(lia)) as [IHj IHn]. split.
    + intros j Hj Hf Hk. rewrite durations_nth by assumption.
      destruct (Nat.eq_dec j (S i)) as [->|Hne]; [rewrite Hf; lia|].
      rewrite (Hk (S i)) by lia. rewrite (IHj j) by (lia || assumption || (intros; apply Hk; lia)).
      lia.
    + intro H. rewrite durations_nth, (H (S i)), IHn by (lia || (intros; apply H; lia)).
      lia.
Qed.

(** ** The columns of the code's frame *)

Lemma zip_rows_proj fl ds cs :
  length ds = length fl -> length cs = length fl ->
  map flip (zip_rows fl ds cs) = fl /\ map regime_duration (zip_rows fl ds cs) = ds /\
  map counted (zip_rows fl ds cs) = cs.
Proof.
  revert ds cs. induction fl as [|f fl IH]; intros [|d ds] [|c cs] Hd Hc; simpl in *;
    try discriminate; [repeat split|].
  destruct (IH ds cs ltac:(lia) ltac:(lia)) as (H1 & H2 & H3).
  rewrite H1, H2, H3. repeat split.
Qed.

Lemma regime_columns_proj labels :
  let fl := min_max_flip_by_gen labels in
  map flip (regime_columns labels) = fl /\
  map regime_duration (regime_columns labels) = time_as_min_max fl /\
  map counted (regime_columns labels) = min_max_filter fl.
Proof.
  apply zip_rows_proj; [apply durations_from_length | apply counted_from_length].
Qed.

Ltac regime_cols labels :=
  destruct (regime_columns_proj labels) as (Hfl & Hdu & Hco);
  rewrite ?Hfl, ?Hdu, ?Hco.

(** C14: the flip rows of the code's columns are extrema and alternate:
    between two flips of the same type there is one of the other type. *)
Theorem regime_flips_alternate labels :
  Forall (fun c => c <> PNone) (select (map flip (regime_columns labels)) labels) /\
  alternating (select (map flip (regime_columns labels)) labels) = true.
Proof. regime_cols labels. apply flip_labels_alternate. Qed.

(** C15: the counted rows of the code's columns: their number is one
    less than the number of flip rows (zero when there is none): only the
    first flip is not counted; and each has regime duration 1: the
    counter is reset to 1 on the very row that records the flip, so the
    durations the flip-time statistics read are all 1. *)
Theorem regime_counted_flips labels :
  count_true (map counted (regime_columns labels)) =
  pred (count_true (map flip (regime_columns labels))) /\
  Forall (fun d => d = 1%nat)
    (select (map counted (regime_columns labels)) (map regime_duration (regime_columns labels))).
Proof. regime_cols labels. split; [apply counted_flips | apply counted_durations_one]. Qed.

(** C16: the regime duration of row [i] is the number of rows since the
    last flip row at or before [i], that row included; before any flip
    it is [i + 1]. *)
Theorem regime_duration_since_flip labels i :
  (i < length labels)%nat ->
  let fl := map flip (regime_columns labels) in
  let du := map regime_duration (regime_columns labels) in
  (forall j, (j <= i)%nat -> nth j fl false = true ->
     (forall k, (j < k <= i)%nat -> nth k fl false = false) ->
     nth i du 0%nat = (i - j + 1)%nat) /\
  ((forall k, (k <= i)%nat -> nth k fl false = false) -> nth i du 0%nat = (i + 1)%nat).
Proof.
  intro Hi. regime_cols labels. apply duration_since_flip.
  unfold min_max_flip_by_gen. rewrite flips_from_length. assumption.
Qed.

(** ** Witnesses *)

Lemma regime_duration_since_flip_witness :
  (4 < length demo_labels)%nat /\
  (forall j, (j <= 4)%nat -> nth j (map flip (regime_columns demo_labels)) false = true ->
     (forall k, (j < k <= 4)%nat -> nth k (map flip (regime_columns demo_labels)) false = false) ->
     nth 4 (map regime_duration (regime_columns demo_labels)) 0%nat = (4 - j + 1)%nat) /\
  ((forall k, (k <= 4)%nat -> nth k (map flip (regime_columns demo_labels)) false = false) ->
     nth 4 (map regime_duration (regime_columns demo_labels)) 0%nat = (4 + 1)%nat).
Proof.
  split; [simpl; lia|]. apply (regime_duration_since_flip demo_labels 4). simpl. lia.
Defined.

End Regime.
