(* ===== verification/Summary.v ===== *)
(** * Series summarizer

    [Experiment_Per_Cycle_Analysis.run_classifacation_algorithm] and
    [Experiment_Per_Cycle_Analysis.nash] of
    [src/oscillator_classification/multi_sim_analysis.py] (lines 62-108):
    the per-series pipeline (derivative, smoothing, second derivative,
    smoothing, classification, regime columns) and the summary row with
    its statistics and stability verdict.  pandas' and numpy's
    statistics are modelled with their NaN results: a statistic is an
    [option Q], [None] standing for NaN, and a standard deviation is kept
    as the variance it is the square root of.  Besides the behaviour of
    the summary on every branch, the file proves its symmetries (under
    negating the series, through one transfer lemma), the
    ranges of its statistics, the role of the sensitivities, and the
    summary of every series alternating at every step, computed in
    closed form through the derivative, smoother and classifier. *)

From Stdlib Require Import String ZArith QArith Qabs Lqa List Bool Lia Morphisms Setoid.
From S2P Require Import Prelude Derivative Smoother Classifier Regime.
Import ListNotations.
Import Derivative Smoother Classifier Regime.
Open Scope Q_scope.
Open Scope osc_scope.

Module Summary.

(** ** Input rows and configuration *)

(** A row of the per-cycle dataset (the columns the code reads). *)
Record cycle_row : Type := CycleRow {
  cycle : Z;
  sim_id : Z;
  org : string;
  experiment : Z;
  generation : Z;
  bush_pw_mean : Q
}.

(** A row with its [bush_pw_mean] value negated. *)
Definition negate_row (r : cycle_row) : cycle_row :=
  CycleRow (cycle r) (sim_id r) (org r) (experiment r) (generation r) (- bush_pw_mean r).

(** The fields of the analysis object the summary reads. *)
Record analysis : Type := Analysis {
  exp_name : string;
  nash_inf_count_sensitivity : Q;
  nash_inf_mag_sensitivity : Q
}.

(** ** Statistics with NaN *)

(** A square root, kept as its radicand: [std] is the root of [var]. *)
Record sqrtQ : Type := Sqrt { radicand : Q }.

(** [Series.mean()] / [ndarray.mean()]: NaN on an empty sequence. *)
Definition mean_nan (l : list Q) : option Q :=
  match l with [] => None | _ => Some (Qred (qsum l / qlen l)) end.

Definition sq_dev (l : list Q) : Q :=
  let m := qsum l / qlen l in qsum (map (fun v => (v - m) * (v - m)) l).

(** [Series.var()]: sample variance (ddof 1), NaN below two values. *)
Definition pd_var (l : list Q) : option Q :=
  if (length l <? 2)%nat then None else Some (Qred (sq_dev l / (qlen l - 1))).

Definition pd_std (l : list Q) : option sqrtQ := option_map Sqrt (pd_var l).

(** [ndarray.var()]: population variance (ddof 0), NaN when empty. *)
Definition np_var (l : list Q) : option Q :=
  match l with [] => None | _ => Some (Qred (sq_dev l / qlen l)) end.

Definition np_std (l : list Q) : option sqrtQ := option_map Sqrt (np_var l).

(** [np.diff(v, 1)]: consecutive differences. *)
Fixpoint np_diff (l : list Q) : list Q :=
  match l with
  | a :: ((b :: _) as t) => (b - a) :: np_diff t
  | _ => []
  end.

(** A comparison [v <= s] where [v] may be NaN (then it is false). *)
Definition nan_le (v : option Q) (s : Q) : bool :=
  match v with Some q => q [<=] s | None => false end.

(** ** The verdict *)

(** [nash]: 1 when both the flip count and the mean flip magnitude are
    within their sensitivities, 0 otherwise. *)
Definition nash (pc_count : nat) (pc_mag_value : option Q)
    (sensitivity_points sensitivity_magnitude : Q) : nat :=
  if (qnat pc_count [<=] sensitivity_points) && nan_le pc_mag_value sensitivity_magnitude
  then 1%nat else 0%nat.

(** ** The frame of the classification *)

(** The data frame [df] built at lines 78-87, column by column. *)
Record frame : Type := Frame {
  fx : list Z;
  fy : list Q;
  f_yx_dx : list Q;
  f_yx_dx2 : list Q;
  point_classifacation : list point_class;
  dot_class : list bool;
  min_max_flip : list bool;
  time_as_max_min : list nat;
  min_max_filter_col : list bool
}.

(** Lines 70-87: derivative, smoothing, second derivative of the
    unsmoothed first derivative (steps [step_size = 1]), smoothing,
    classification at sensitivity 0.01, and the regime columns. *)
Definition classification_frame (x : list Z) (y : list Q) : result frame :=
  let yx_dx := first_derivative y in
  let* smooth_yx_dx := smooth_column yx_dx in
  let yx_dx2 := aprox_derv_central yx_dx 1 1 in
  let* smooth_yx_dx2 := smooth_column yx_dx2 in
  let classifacation := classify_frame smooth_yx_dx smooth_yx_dx2 in
  let flips := min_max_flip_by_gen classifacation in
  Ok (Frame x y smooth_yx_dx smooth_yx_dx2 classifacation (plotable_points classifacation)
        flips (time_as_min_max flips) (min_max_filter flips)).

(** The frame is rectangular with [n] rows: the [zip] of line 78 keeps
    every value only when [x], [y] and the two smoothed derivatives have
    the same length, and the column assignments of lines 81-87 need
    columns of the frame's length. *)
Definition frame_wf (fr : frame) (n : nat) : bool :=
  forallb (Nat.eqb n)
    [length (fx fr); length (fy fr); length (f_yx_dx fr); length (f_yx_dx2 fr);
     length (point_classifacation fr); length (dot_class fr); length (min_max_flip fr);
     length (time_as_max_min fr); length (min_max_filter_col fr)].

(** ** The statistics of a frame *)

(** Lines 88-90: the durations of the counted rows and their mean,
    standard deviation and variance (pandas). *)
Definition flip_times (fr : frame) : list Q :=
  select (min_max_filter_col fr) (map qnat (time_as_max_min fr)).

Definition flip_time_stats (fr : frame) : option Q * option sqrtQ * option Q :=
  let t := flip_times fr in (mean_nan t, pd_std t, pd_var t).

(** Line 91: the number of counted flips. *)
Definition number_of_inf_points (fr : frame) : nat := count_true (min_max_filter_col fr).

(** Lines 92-100: the values at the [min]/[max] rows; 0 for the three
    statistics when there is none, otherwise the numpy statistics of the
    absolute differences between consecutive extrema. *)
Definition extremum_values (fr : frame) : list Q :=
  select (map is_extremum (point_classifacation fr)) (fy fr).

Definition magnitude_stats (fr : frame) : option Q * option sqrtQ * option Q :=
  let ext := extremum_values fr in
  if (length ext =? 0)%nat then (Some 0, Some (Sqrt 0), Some 0)
  else let magnitude_data := map Qabs (np_diff ext) in
       (mean_nan magnitude_data, np_std magnitude_data, np_var magnitude_data).

(** Lines 105-107: the largest value of a column of the group. *)
Definition col_max_Z (l : list Z) : Z :=
  match l with [] => 0%Z | a :: t => fold_left Z.max t a end.

Definition str_max (a b : string) : string :=
  match String.compare a b with Lt => b | _ => a end.

Definition col_max_str (l : list string) : string :=
  match l with [] => EmptyString | a :: t => fold_left str_max t a end.

(** The output row (the header of lines 19-25, the list of line 108). *)
Record summary_row : Type := SummaryRow {
  s_exp_name : string;
  s_sim_id : Z;
  s_exp : Z;
  s_org : string;
  count_str_flip : nat;
  mean_strategy_flip_time : option Q;
  std_strategy_flip_time : option sqrtQ;
  var_strategy_flip_time : option Q;
  mean_magnitude_of_strategy_flip : option Q;
  std_magnitude_of_strategy_flip : option sqrtQ;
  var_magnitude_of_strategy_flip : option Q;
  nash_val : nat
}.

(** The analysis object with the constructor's default sensitivities
    (count 5, magnitude 0.05). *)
Definition default_analysis (name : string) : analysis := Analysis name 5 (5#100).

(** [run_classifacation_algorithm self sim]. *)
Definition run_classifacation_algorithm (a : analysis) (sim : list cycle_row)
  : result summary_row :=
  let* fr := classification_frame (map generation sim) (map bush_pw_mean sim) in
  let '(mft, sft, vft) := flip_time_stats fr in
  let n := number_of_inf_points fr in
  let '(mm, sm, vm) := magnitude_stats fr in
  let nash_val := nash n mm (nash_inf_count_sensitivity a) (nash_inf_mag_sensitivity a) in
  Ok (SummaryRow (exp_name a) (col_max_Z (map sim_id sim)) (col_max_Z (map experiment sim))
        (col_max_str (map org sim)) n mft sft vft mm sm vm nash_val).

(** ** The sensitivities *)

(** The columns of a row other than its verdict. *)
Definition row_stats (r : summary_row) :=
  (s_sim_id r, s_exp r, s_org r, count_str_flip r,
   (mean_strategy_flip_time r, std_strategy_flip_time r, var_strategy_flip_time r),
   (mean_magnitude_of_strategy_flip r, std_magnitude_of_strategy_flip r,
    var_magnitude_of_strategy_flip r)).

(** ** Ranges of the statistics *)

(** A statistic that is NaN or nonnegative, and a standard deviation that
    is NaN or the root of a nonnegative number (a real number). *)
Definition opt_nonneg (o : option Q) : Prop := match o with Some q => 0 <= q | None => True end.

Definition sqrt_defined (o : option sqrtQ) : Prop :=
  match o with Some s => 0 <= radicand s | None => True end.

(** ** Symmetry under negation *)

(** The labels the code computes from a series of values (lines 74-80). *)
Definition closed_labels (y : list Q) : list point_class :=
  inflection_point_classifaction (moving_average3 (aprox_derv_central y 1 1))
    (moving_average3 (aprox_derv_central (aprox_derv_central y 1 1) 1 1)) (1#100).

(** ** Concrete series *)

(** A series of one simulation of [krat] at generations 1, 2, ... *)
Definition series_rows (vals : list Q) : list cycle_row :=
  map (fun '(g, v) => CycleRow g 1 "krat" 1 g v)
      (combine (map Z.of_nat (seq 1 (length vals))) vals).

(** The series of spec 8 that alternates at every step between [v] and
    [v + d]. *)
Definition alternating_series (v d : Q) (n : nat) : list Q :=
  map (fun i => if Nat.even i then v else v + d) (seq 0 n).

(** The label the code gives the third row of such a series. *)
Definition alt_label (d : Q) : point_class :=
  if (6#100) [<] d then PMax else if d [<] -(6#100) then PMin else PNone.

Definition frame_labels (vals : list Q) : list point_class :=
  match classification_frame (map Z.of_nat (seq 1 (length vals))) vals with
  | Ok fr => point_classifacation fr
  | Err _ => []
  end.

Definition empty_frame : frame := Frame [] [] [] [] [] [] [] [] [].

Definition frame_of (sim : list cycle_row) : frame :=
  match classification_frame (map generation sim) (map bush_pw_mean sim) with
  | Ok fr => fr
  | Err _ => empty_frame
  end.

(** ** Witnesses *)

Definition rising_rows : list cycle_row := series_rows [1; 2; (5#2); 4].

Definition short_rows : list cycle_row := series_rows [0; 1].

Definition tri_rows : list cycle_row := series_rows [0; 1; 0].

Definition scenario_rows : list cycle_row := series_rows [0;1;2;1;0;1;2;1;0].

Definition scenario_row : summary_row :=
  SummaryRow "exp" 1 1 "krat" 2 (Some 1) (Some (Sqrt 0)) (Some 0) (Some 2) (Some (Sqrt 0)) (Some 0) 0.

(** ** The pipeline in closed form *)

(** With the code's configuration, the frame is built exactly when the
    series has at least 3 points, from the moving averages of the two
    derivative passes. *)
Lemma classification_frame_eq x y :
  classification_frame x y =
  if (length y <? 3)%nat then Err InvalidWindowError
  else
    let d := moving_average3 (aprox_derv_central y 1 1) in
    let d2 := moving_average3 (aprox_derv_central (aprox_derv_central y 1 1) 1 1) in
    let c := inflection_point_classifaction d d2 (1#100) in
    let fl := min_max_flip_by_gen c in
    Ok (Frame x y d d2 c (plotable_points c) fl (time_as_min_max fl) (min_max_filter fl)).
Proof.
  unfold classification_frame, smooth_column, first_derivative, classify_frame.
  rewrite !savitzky_golay_config, !aprox_derv_central_length.
  destruct (length y <? 3)%nat; reflexivity.
Qed.

(** Case analysis on the two statistics triples of a summary. *)
Ltac destruct_stats :=
  repeat match goal with
  | |- context [flip_time_stats ?f] => destruct (flip_time_stats f) as [[? ?] ?]
  | |- context [magnitude_stats ?f] => destruct (magnitude_stats f) as [[? ?] ?]
  end.

Lemma col_max_Z_const l z : l <> [] -> Forall (fun x => x = z) l -> col_max_Z l = z.
Proof.
  destruct l as [|a t]; [contradiction|]. intros _ H. inversion H as [|? ? -> Ht]; subst. clear H. simpl.
  induction Ht as [|b t -> _ IH]; simpl; [reflexivity|]. rewrite Z.max_id. exact IH.
Qed.

Lemma col_max_str_const l s : l <> [] -> Forall (fun x => x = s) l -> col_max_str l = s.
Proof.
  destruct l as [|a t]; [contradiction|]. intros _ H. inversion H as [|? ? -> Ht]; subst. clear H. simpl.
  assert (Hs : str_max a a = a) by (unfold str_max; destruct (String.compare a a); reflexivity).
  induction Ht as [|b t -> _ IH]; simpl; [reflexivity|]. rewrite Hs. exact IH.
Qed.

(** C2: the summarizer returns a row for every series of at least 3
    points and raises [InvalidWindowError] (from the smoother) for every
    shorter one: it never silently truncates. *)
Theorem run_classification_total a sim :
  (run_classifacation_algorithm a sim = Err InvalidWindowError <-> (length sim < 3)%nat) /\
  ((3 <= length sim)%nat -> exists r, run_classifacation_algorithm a sim = Ok r).
Proof.
  unfold run_classifacation_algorithm. rewrite classification_frame_eq, length_map.
  destruct (Nat.ltb_spec (length sim) 3) as [H|H]; simpl.
  - split; [split; [intros _; assumption | reflexivity] | lia].
  - destruct_stats.
    split; [split; [discriminate | lia]|]. intros _. eexists. reflexivity.
Qed.

(** C31: the frame of [run_classifacation_algorithm] is well typed as a
    table: when the generations and the values have the same length [n],
    every column the code builds (lines 78-87) has [n] rows, so the [zip]
    of line 78 drops no value and each column is aligned with the
    series. *)
Theorem classification_frame_wf x y fr :
  length x = length y -> classification_frame x y = Ok fr -> frame_wf fr (length y) = true.
Proof.
  intro Hx. rewrite classification_frame_eq. destruct (Nat.ltb_spec (length y) 3); [discriminate|].
  intro E. injection E as <-. unfold frame_wf, plotable_points, min_max_flip_by_gen,
    time_as_min_max, min_max_filter. simpl.
  rewrite Hx, ?durations_from_length, ?counted_from_length, ?flips_from_length, ?length_map,
    ?classification_length, !length_moving_average3, !aprox_derv_central_length
    by (rewrite ?aprox_derv_central_length; lia).
  rewrite Nat.eqb_refl. reflexivity.
Qed.

(** ** The verdict *)

(** The identification columns of a row are the maxima of the group's
    columns (lines 105-107). *)
Lemma run_classification_ids a sim r :
  run_classifacation_algorithm a sim = Ok r ->
  s_sim_id r = col_max_Z (map sim_id sim) /\ s_org r = col_max_str (map org sim) /\
  s_exp r = col_max_Z (map experiment sim) /\ s_exp_name r = exp_name a.
Proof.
  unfold run_classifacation_algorithm.
  destruct (classification_frame _ _) as [fr|e]; [|discriminate]. cbv beta iota zeta.
  destruct_stats. intro E. injection E as <-. repeat split.
Qed.

(** A row is the summary of the frame of its series. *)
Lemma run_classification_ok a sim r :
  run_classifacation_algorithm a sim = Ok r ->
  (3 <= length sim)%nat /\
  exists fr, classification_frame (map generation sim) (map bush_pw_mean sim) = Ok fr /\
    count_str_flip r = number_of_inf_points fr /\
    (mean_strategy_flip_time r, std_strategy_flip_time r, var_strategy_flip_time r) =
      flip_time_stats fr /\
    (mean_magnitude_of_strategy_flip r, std_magnitude_of_strategy_flip r,
     var_magnitude_of_strategy_flip r) = magnitude_stats fr /\
    nash_val r = nash (number_of_inf_points fr) (mean_magnitude_of_strategy_flip r)
                   (nash_inf_count_sensitivity a) (nash_inf_mag_sensitivity a).
Proof.
  unfold run_classifacation_algorithm. rewrite classification_frame_eq, length_map.
  destruct (Nat.ltb_spec (length sim) 3); [discriminate|]. cbv beta iota zeta.
  match goal with |- context [flip_time_stats ?f] =>
    destruct (flip_time_stats f) as [[m1 s1] v1] eqn:E1 end.
  match goal with |- context [magnitude_stats ?f] =>
    destruct (magnitude_stats f) as [[m2 s2] v2] eqn:E2 end.
  intro E. injection E as <-. split; [lia|]. eexists. split; [reflexivity|].
  repeat split; [symmetry; exact E1 | symmetry; exact E2].
Qed.


(** ** Monotone series *)

(** A series whose smoothed first derivative is positive everywhere has
    no extremum, hence no flip and no magnitude. *)
Lemma summary_without_extrema a sim :
  (3 <= length sim)%nat ->
  Forall (fun d => 0 < d) (moving_average3 (aprox_derv_central (map bush_pw_mean sim) 1 1)) ->
  exists r, run_classifacation_algorithm a sim = Ok r /\ count_str_flip r = 0%nat /\
    mean_magnitude_of_strategy_flip r = Some 0 /\
    std_magnitude_of_strategy_flip r = Some (Sqrt 0) /\
    var_magnitude_of_strategy_flip r = Some 0 /\
    nash_val r = nash 0 (Some 0) (nash_inf_count_sensitivity a) (nash_inf_mag_sensitivity a).
Proof.
  intros Hn Hpos. unfold run_classifacation_algorithm. rewrite classification_frame_eq, length_map.
  rewrite (proj2 (Nat.ltb_ge _ _) Hn). cbv zeta.
  match goal with |- context [inflection_point_classifaction ?d ?d2 ?s] =>
    pose proof (classification_positive_derivative d d2 s Hpos) as Hc;
    set (c := inflection_point_classifaction d d2 s) in * end.
  assert (Hext : select (map is_extremum c) (map bush_pw_mean sim) = []).
  { apply select_all_false. apply Forall_map.
    apply Forall_impl with (2 := Hc). intros p ->. reflexivity. }
  assert (Hcnt : count_true (min_max_filter (min_max_flip_by_gen c)) = 0%nat).
  { unfold min_max_filter, min_max_flip_by_gen.
    rewrite count_counted_from, flips_no_extremum by assumption.
    reflexivity. }
  unfold magnitude_stats, extremum_values, number_of_inf_points. simpl.
  rewrite Hext, Hcnt. simpl. destruct_stats.
  eexists. split; [reflexivity|]. repeat split; reflexivity.
Qed.

(** C1: spec 8: a strictly increasing series of at least 3 points has no
    counted flip and all three magnitude statistics 0, and its verdict is
    stable exactly when both sensitivities are nonnegative. *)
Theorem increasing_series_stable a sim :
  (3 <= length sim)%nat -> strictly_increasing (map bush_pw_mean sim) = true ->
  exists r, run_classifacation_algorithm a sim = Ok r /\ count_str_flip r = 0%nat /\
    mean_magnitude_of_strategy_flip r = Some 0 /\
    std_magnitude_of_strategy_flip r = Some (Sqrt 0) /\
    var_magnitude_of_strategy_flip r = Some 0 /\
    (nash_val r = 1%nat <->
       0 <= nash_inf_count_sensitivity a /\ 0 <= nash_inf_mag_sensitivity a).
Proof.
  intros Hn Hinc.
  set (y := map bush_pw_mean sim).
  assert (Hy : length y = length sim) by apply length_map.
  assert (Hd : Forall (fun d => 0 < d) (aprox_derv_central y 1 1))
    by (apply aprox_derv_central_increasing_pos; (assumption || lia)).
  assert (Hs : Forall (fun d => 0 < d) (moving_average3 (aprox_derv_central y 1 1))).
  { apply (savitzky_golay_config_pos (aprox_derv_central y 1 1) 1); [assumption|].
    rewrite savitzky_golay_config, aprox_derv_central_length, (proj2 (Nat.ltb_ge _ _)) by lia.
    reflexivity. }
  destruct (summary_without_extrema a sim Hn Hs) as (r & Hr & H0 & H1 & H2 & H3 & H4).
  exists r. repeat (split; [assumption|]). rewrite H4. unfold nash, nan_le.
  change (qnat 0) with 0. case_q; case_q; simpl; split; intro H; try discriminate;
    try reflexivity; try lra; try (destruct H; lra).
Qed.

(** ** What the statistics measure *)

(** The mean of a nonempty list of equal values is that value, and the
    sum of squared deviations is 0. *)
Lemma mean_all_eq c l :
  l <> [] -> Forall (fun q => q == c) l ->
  (exists m, mean_nan l = Some m /\ m == c) /\ sq_dev l == 0.
Proof.
  intros Hne Hall. pose proof (qlen_pos l Hne) as Hlen.
  assert (Hm : qsum l / qlen l == c) by (rewrite (qsum_all_eq c l Hall); field; lra).
  split.
  - destruct l as [|x l]; [congruence|]. eexists. split; [reflexivity|].
    rewrite Qred_correct. exact Hm.
  - unfold sq_dev. cbv zeta. revert Hm. generalize (qsum l / qlen l) as m. intros m Hm.
    clear Hne Hlen. induction Hall as [|x l Hx _ IH]; [reflexivity|].
    cbn [map]. rewrite qsum_cons, IH, Hx, Hm. ring.
Qed.

(** C6: the flip-time statistics are constant: whenever some flip is
    counted, the mean flip time is 1, and with two or more counted flips
    the variance is 0, whatever the series. *)
Theorem flip_time_constant a sim r :
  run_classifacation_algorithm a sim = Ok r -> (1 <= count_str_flip r)%nat ->
  (exists m, mean_strategy_flip_time r = Some m /\ m == 1) /\
  ((2 <= count_str_flip r)%nat -> exists v, var_strategy_flip_time r = Some v /\ v == 0).
Proof.
  unfold run_classifacation_algorithm. rewrite classification_frame_eq, length_map.
  destruct (length sim <? 3)%nat; [discriminate|]. cbv beta iota zeta.
  match goal with |- context [flip_time_stats ?f] => set (fr := f) end.
  unfold flip_time_stats, number_of_inf_points. destruct_stats.
  intro E. injection E as <-. simpl.
  set (t := flip_times fr).
  assert (Ht : Forall (fun q => q == 1) t).
  { unfold t, flip_times. simpl. rewrite select_map. apply Forall_map.
    apply Forall_impl with (2 := counted_from_durations_one _ false 0).
    intros d ->. reflexivity. }
  assert (Hl : length t = count_true (min_max_filter_col fr)).
  { unfold t, flip_times. apply select_count. simpl.
    unfold time_as_min_max, min_max_filter. rewrite length_map, durations_from_length, counted_from_length.
    reflexivity. }
  simpl in Hl. intro H1. assert (Hne : t <> []) by (intro E; rewrite E in Hl; simpl in Hl; lia).
  destruct (mean_all_eq 1 t Hne Ht) as [Hm Hsq]. split; [exact Hm|].
  intro H2. unfold pd_var. rewrite (proj2 (Nat.ltb_ge _ _)) by lia.
  eexists. split; [reflexivity|]. rewrite Qred_correct, Hsq. field.
  assert (1 < qlen t) by (unfold qlen; rewrite Hl; change 1 with (qnat 1); apply qnat_lt; lia). lra.
Qed.

(** C3: spec 8.1: the flip count of the row is the number of rows that
    are both a flip and counted. *)
Theorem count_str_flip_counts_flips a sim r :
  run_classifacation_algorithm a sim = Ok r ->
  exists fr, classification_frame (map generation sim) (map bush_pw_mean sim) = Ok fr /\
    count_str_flip r = count_true (zip_and (min_max_flip fr) (min_max_filter_col fr)).
Proof.
  unfold run_classifacation_algorithm. rewrite classification_frame_eq, length_map.
  destruct (length sim <? 3)%nat; [discriminate|]. cbv beta iota zeta.
  destruct_stats. intro E. injection E as <-.
  eexists. split; [reflexivity|]. simpl. unfold min_max_filter. rewrite counted_from_flip.
  reflexivity.
Qed.

(** C20: the flip count of a row is at most the number of [min]/[max]
    rows of its frame minus one, and 0 when there is none: every counted
    flip is an extremum, and the first flip is never counted. *)
Theorem count_str_flip_bound a sim r :
  run_classifacation_algorithm a sim = Ok r ->
  exists fr, classification_frame (map generation sim) (map bush_pw_mean sim) = Ok fr /\
    (count_str_flip r <= length (extremum_values fr) - 1)%nat.
Proof.
  intro H. destruct (run_classification_ok a sim r H) as (Hl & fr & Hfr & -> & _).
  exists fr. split; [exact Hfr|].
  rewrite classification_frame_eq, length_map, (proj2 (Nat.ltb_ge _ 3) Hl) in Hfr.
  injection Hfr as <-. unfold number_of_inf_points, extremum_values.
  cbn [min_max_filter_col point_classifacation fy].
  set (c := inflection_point_classifaction _ _ _).
  rewrite counted_flips, select_count.
  - pose proof (flips_le_extrema Unset c). unfold min_max_flip_by_gen. lia.
  - unfold c. rewrite !length_map, classification_length, length_moving_average3,
      aprox_derv_central_length, length_map; [reflexivity|].
    rewrite aprox_derv_central_length, length_map. lia.
Qed.

(** ** The sensitivities *)

(** Raising either sensitivity never turns a stable verdict into an
    unstable one. *)
Lemma nash_mono n m cs ms cs' ms' :
  cs <= cs' -> ms <= ms' -> (nash n m cs ms <= nash n m cs' ms')%nat.
Proof.
  intros Hc Hm. unfold nash, nan_le. destruct m as [q|]; [|rewrite !andb_false_r; lia].
  repeat (case_q; cbn [andb]); try lia; exfalso; lra.
Qed.

Lemma run_classification_err a sim e :
  run_classifacation_algorithm a sim = Err e <->
  classification_frame (map generation sim) (map bush_pw_mean sim) = Err e.
Proof.
  unfold run_classifacation_algorithm.
  destruct (classification_frame _ _) as [fr|e']; cbv beta iota zeta;
    [|split; intro E; injection E as ->; reflexivity].
  destruct_stats. split; discriminate.
Qed.

(** The only error of the summarizer is the smoother's, on series
    shorter than the window. *)
Lemma run_classification_err_iff a sim e :
  run_classifacation_algorithm a sim = Err e <-> (length sim < 3)%nat /\ e = InvalidWindowError.
Proof.
  rewrite run_classification_err, classification_frame_eq, length_map.
  destruct (Nat.ltb_spec (length sim) 3); split.
  - intro E. injection E as <-. auto.
  - intros [_ ->]. reflexivity.
  - discriminate.
  - lia.
Qed.

(** C26: the sensitivities of the analysis only decide the verdict: two
    analyses differing in their sensitivities raise the same errors and
    give rows with the same columns but [exp_name] and [nash_val], and
    raising both sensitivities can only turn a verdict 0 into 1. *)
Theorem sensitivities_only_affect_verdict a a' sim :
  nash_inf_count_sensitivity a <= nash_inf_count_sensitivity a' ->
  nash_inf_mag_sensitivity a <= nash_inf_mag_sensitivity a' ->
  (forall e, run_classifacation_algorithm a sim = Err e <-> run_classifacation_algorithm a' sim = Err e) /\
  (forall r r', run_classifacation_algorithm a sim = Ok r -> run_classifacation_algorithm a' sim = Ok r' ->
     row_stats r' = row_stats r /\ (nash_val r <= nash_val r')%nat).
Proof.
  intros Hc Hm. split; [intro e; rewrite !run_classification_err; reflexivity|].
  intros r r' H H'.
  destruct (run_classification_ok a sim r H) as (_ & fr & Hfr & Hn & Hs & Hmg & Hv).
  destruct (run_classification_ok a' sim r' H') as (_ & fr' & Hfr' & Hn' & Hs' & Hmg' & Hv').
  rewrite Hfr in Hfr'. injection Hfr' as <-.
  destruct (run_classification_ids a sim r H) as (Hi & Ho & He & _).
  destruct (run_classification_ids a' sim r' H') as (Hi' & Ho' & He' & _).
  rewrite <- Hs' in Hs. rewrite <- Hmg' in Hmg. injection Hs as Hs1 Hs2 Hs3. injection Hmg as Hm1 Hm2 Hm3.
  split.
  - unfold row_stats. rewrite Hi, Ho, He, Hi', Ho', He', Hn, Hn', Hs1, Hs2, Hs3, Hm1, Hm2, Hm3.
    reflexivity.
  - rewrite Hv, Hv', Hm1. apply nash_mono; assumption.
Qed.

(** ** Ranges of the statistics *)

Lemma sq_dev_nonneg l : 0 <= sq_dev l.
Proof.
  unfold sq_dev. cbv zeta. apply qsum_nonneg, Forall_forall. intros x Hx.
  apply in_map_iff in Hx as (v & <- & _). apply Qsq_nonneg.
Qed.

Lemma pd_var_nonneg l : opt_nonneg (pd_var l).
Proof.
  unfold pd_var, opt_nonneg. destruct (Nat.ltb_spec (length l) 2); cbv beta iota; [exact I|].
  rewrite Qred_correct. apply Qdiv_nonneg; [apply sq_dev_nonneg|].
  change (qlen l) with (qnat (length l)). pose proof (qnat_le 2 (length l) H) as H2.
  change (qnat 2) with 2 in H2. lra.
Qed.

Lemma np_var_nonneg l : opt_nonneg (np_var l).
Proof.
  unfold np_var, opt_nonneg. destruct l as [|x t]; cbv beta iota; [exact I|].
  rewrite Qred_correct. apply Qdiv_nonneg; [apply sq_dev_nonneg | apply qlen_pos; discriminate].
Qed.

Lemma mean_nan_nonneg l : Forall (fun x => 0 <= x) l -> opt_nonneg (mean_nan l).
Proof.
  intro H. unfold mean_nan, opt_nonneg. destruct l as [|x t]; cbv beta iota; [exact I|].
  rewrite Qred_correct. apply Qdiv_nonneg; [apply qsum_nonneg; assumption | apply qlen_pos; discriminate].
Qed.

Lemma sqrt_defined_of (v : option Q) : opt_nonneg v -> sqrt_defined (option_map Sqrt v).
Proof. destruct v; simpl; trivial. Qed.

Lemma flip_time_stats_nonneg fr m sd v :
  flip_time_stats fr = (m, sd, v) -> opt_nonneg m /\ sqrt_defined sd /\ opt_nonneg v.
Proof.
  unfold flip_time_stats, pd_std. intro E. injection E as <- <- <-.
  split; [|split; [apply sqrt_defined_of, pd_var_nonneg | apply pd_var_nonneg]].
  apply mean_nan_nonneg. unfold flip_times. rewrite select_map. apply Forall_map.
  apply Forall_forall. intros. apply qnat_nonneg.
Qed.

Lemma magnitude_stats_nonneg fr m sd v :
  magnitude_stats fr = (m, sd, v) -> opt_nonneg m /\ sqrt_defined sd /\ opt_nonneg v.
Proof.
  unfold magnitude_stats, np_std. cbv zeta.
  match goal with |- context [if ?b then _ else _] => destruct b end;
    intro E; injection E as <- <- <-; [simpl; repeat split; apply Qle_refl|].
  split; [|split; [apply sqrt_defined_of, np_var_nonneg | apply np_var_nonneg]].
  apply mean_nan_nonneg, Forall_map, Forall_forall. intros. apply Qabs_nonneg.
Qed.

(** C25: every statistic of a summary row is NaN or nonnegative, and
    every standard deviation is NaN or the square root of a nonnegative
    number, so the row holds real numbers only. *)
Theorem summary_stats_nonneg a sim r :
  run_classifacation_algorithm a sim = Ok r ->
  opt_nonneg (mean_strategy_flip_time r) /\ sqrt_defined (std_strategy_flip_time r) /\
  opt_nonneg (var_strategy_flip_time r) /\ opt_nonneg (mean_magnitude_of_strategy_flip r) /\
  sqrt_defined (std_magnitude_of_strategy_flip r) /\ opt_nonneg (var_magnitude_of_strategy_flip r).
Proof.
  intro H. destruct (run_classification_ok a sim r H) as (_ & fr & _ & _ & E1 & E2 & _).
  destruct (flip_time_stats_nonneg fr _ _ _ (eq_sym E1)) as (? & ? & ?).
  destruct (magnitude_stats_nonneg fr _ _ _ (eq_sym E2)) as (? & ? & ?).
  repeat split; assumption.
Qed.

(** C5: when exactly one row of the series is a [min] or [max], the
    code's guard (an empty selection only) lets [np.diff] return an empty
    array: the three magnitude statistics are NaN and the verdict is 0
    whatever the sensitivities, where spec 4.5 defines them as 0. *)
Theorem single_extremum_unstable a sim fr :
  classification_frame (map generation sim) (map bush_pw_mean sim) = Ok fr ->
  length (extremum_values fr) = 1%nat ->
  exists r, run_classifacation_algorithm a sim = Ok r /\
    mean_magnitude_of_strategy_flip r = None /\ std_magnitude_of_strategy_flip r = None /\
    var_magnitude_of_strategy_flip r = None /\ nash_val r = 0%nat.
Proof.
  intros Hf H1. unfold run_classifacation_algorithm. rewrite Hf. cbv beta iota zeta.
  unfold magnitude_stats. rewrite H1.
  destruct (extremum_values fr) as [|v [|w l]]; simpl in H1; try discriminate.
  simpl. destruct_stats. eexists. split; [reflexivity|]. simpl.
  repeat split. unfold nash, nan_le. rewrite andb_false_r. reflexivity.
Qed.

(** ** Symmetry under negation *)

(** The statistics depend only on the values of the sequence. *)
Lemma mean_nan_Qlist_eq l l' : Qlist_eq l l' -> mean_nan l = mean_nan l'.
Proof.
  intro H. pose proof (Qlist_eq_length _ _ H) as Hl. unfold mean_nan, qlen.
  destruct l, l'; try discriminate; [reflexivity|].
  f_equal. apply Qred_complete. rewrite Hl, H. reflexivity.
Qed.

Lemma sq_dev_Qlist_eq l l' : Qlist_eq l l' -> sq_dev l == sq_dev l'.
Proof.
  intro H. unfold sq_dev, qlen. cbv zeta. rewrite (Qlist_eq_length _ _ H).
  assert (Hm : qsum l / inject_Z (Z.of_nat (length l')) == qsum l' / inject_Z (Z.of_nat (length l')))
    by (rewrite H; reflexivity).
  apply qsum_Proper, Qlist_eq_map; [|exact H]. intros x y Hxy. rewrite Hxy, Hm. reflexivity.
Qed.

Lemma np_var_Qlist_eq l l' : Qlist_eq l l' -> np_var l = np_var l'.
Proof.
  intro H. pose proof (Qlist_eq_length _ _ H) as Hl. unfold np_var.
  destruct l, l'; try discriminate; [reflexivity|].
  f_equal. apply Qred_complete. unfold qlen. rewrite Hl, (sq_dev_Qlist_eq _ _ H). reflexivity.
Qed.

Lemma np_diff_opp l : Qlist_eq (np_diff (map Qopp l)) (map Qopp (np_diff l)).
Proof.
  induction l as [|a t IH]; [constructor|]. destruct t as [|b t]; [constructor|].
  cbn [map np_diff] in *. constructor; [ring | exact IH].
Qed.

(** The magnitudes of the negated extrema are those of the extrema. *)
Lemma magnitudes_opp e :
  Qlist_eq (map Qabs (np_diff (map Qopp e))) (map Qabs (np_diff e)).
Proof.
  transitivity (map Qabs (map Qopp (np_diff e))).
  - apply Qlist_eq_map; [intros x y Hxy; rewrite Hxy; reflexivity | apply np_diff_opp].
  - rewrite map_map. apply Qlist_eq_map; [|reflexivity]. intros x y Hxy.
    rewrite Qabs_opp, Hxy. reflexivity.
Qed.



(** Two frames whose labels correspond through [g] (keeping extrema),
    whose values correspond through [f] (keeping the magnitudes) and
    with the same regime columns have the same statistics. *)
Lemma frame_stats_map (g : point_class -> point_class) (f : Q -> Q) fr' fr :
  (forall c, is_extremum (g c) = is_extremum c) ->
  (forall l, Qlist_eq (map Qabs (np_diff (map f l))) (map Qabs (np_diff l))) ->
  point_classifacation fr' = map g (point_classifacation fr) -> fy fr' = map f (fy fr) ->
  min_max_filter_col fr' = min_max_filter_col fr -> time_as_max_min fr' = time_as_max_min fr ->
  flip_time_stats fr' = flip_time_stats fr /\ number_of_inf_points fr' = number_of_inf_points fr /\
  magnitude_stats fr' = magnitude_stats fr.
Proof.
  intros Hg Hm Hc Hy Hf Ht. unfold flip_time_stats, flip_times, number_of_inf_points.
  rewrite Hf, Ht. split; [reflexivity|]. split; [reflexivity|].
  unfold magnitude_stats, extremum_values. rewrite Hc, Hy, map_map.
  rewrite (map_ext (fun c => is_extremum (g c)) is_extremum Hg), select_map, length_map.
  destruct (_ =? 0)%nat; [reflexivity|].
  unfold np_std. rewrite (mean_nan_Qlist_eq _ _ (Hm _)), (np_var_Qlist_eq _ _ (Hm _)). reflexivity.
Qed.

(** The frames of two series of the same length whose labels correspond
    through a map [g] that keeps the flips. *)
Lemma classification_frame_transfer x y y' (g : point_class -> point_class) :
  length y' = length y -> closed_labels y' = map g (closed_labels y) ->
  (forall l, min_max_flip_by_gen (map g l) = min_max_flip_by_gen l) ->
  match classification_frame x y', classification_frame x y with
  | Ok fr', Ok fr =>
      point_classifacation fr' = map g (point_classifacation fr) /\ fy fr' = y' /\ fy fr = y /\
      min_max_filter_col fr' = min_max_filter_col fr /\ time_as_max_min fr' = time_as_max_min fr
  | Err e', Err e => e' = e
  | _, _ => False
  end.
Proof.
  intros Hl Hc Hf. rewrite !classification_frame_eq, Hl.
  destruct (length y <? 3)%nat; [reflexivity|]. cbv zeta.
  cbn [point_classifacation fy min_max_filter_col time_as_max_min].
  fold (closed_labels y') (closed_labels y). rewrite Hc, Hf. repeat split.
Qed.

(** The summary of a series is that of any series with the same
    identification columns whose values and labels correspond through
    maps that keep the magnitudes, the extrema and the flips. *)
Lemma run_classification_transfer a sim sim' (g : point_class -> point_class) (f : Q -> Q) :
  map generation sim' = map generation sim -> map sim_id sim' = map sim_id sim ->
  map org sim' = map org sim -> map experiment sim' = map experiment sim ->
  map bush_pw_mean sim' = map f (map bush_pw_mean sim) ->
  (forall c, is_extremum (g c) = is_extremum c) ->
  (forall l, Qlist_eq (map Qabs (np_diff (map f l))) (map Qabs (np_diff l))) ->
  (forall l, min_max_flip_by_gen (map g l) = min_max_flip_by_gen l) ->
  (forall y, closed_labels (map f y) = map g (closed_labels y)) ->
  run_classifacation_algorithm a sim' = run_classifacation_algorithm a sim.
Proof.
  intros Hgen Hid Horg Hexp Hy Hext Hmag Hflip Hlab. unfold run_classifacation_algorithm.
  rewrite Hgen, Hy, Hid, Horg, Hexp.
  pose proof (classification_frame_transfer (map generation sim) (map bush_pw_mean sim)
    (map f (map bush_pw_mean sim)) g (length_map _ _) (Hlab _) Hflip) as H.
  destruct (classification_frame _ (map f _)) as [fr'|e'], (classification_frame _ _) as [fr|e];
    try contradiction; [|subst; reflexivity].
  destruct H as (Hc & Hy' & Hy0 & Hf & Ht). cbv beta iota zeta.
  rewrite <- Hy0 in Hy'.
  destruct (frame_stats_map g f fr' fr Hext Hmag Hc Hy' Hf Ht) as (E1 & E2 & E3).
  rewrite E1, E2, E3. reflexivity.
Qed.

Lemma closed_labels_opp y : closed_labels (map Qopp y) = map swap_class (closed_labels y).
Proof.
  unfold closed_labels. rewrite <- classification_opp. apply classification_Qlist_eq.
  - rewrite aprox_derv_central_opp. apply moving_average3_opp.
  - rewrite !aprox_derv_central_opp. apply moving_average3_opp.
Qed.


(** C23: the summary is symmetric under negating the series: on the
    values [-y] maxima and minima swap, but the flips, their durations,
    the count, the magnitudes and the verdict are those of [y], so
    [run_classifacation_algorithm] returns the same row (or the same
    error). *)
Theorem run_classification_negated a sim :
  run_classifacation_algorithm a (map negate_row sim) = run_classifacation_algorithm a sim.
Proof.
  apply (run_classification_transfer a sim _ swap_class Qopp); try (rewrite !map_map; reflexivity).
  - intros []; reflexivity.
  - apply magnitudes_opp.
  - apply min_max_flip_swap.
  - apply closed_labels_opp.
Qed.


(** ** Concrete series *)

Lemma single_extremum_unstable_witness :
  classification_frame (map generation (series_rows [0;1;2;3;2;1;0]))
    (map bush_pw_mean (series_rows [0;1;2;3;2;1;0])) = Ok (frame_of (series_rows [0;1;2;3;2;1;0])) /\
  length (extremum_values (frame_of (series_rows [0;1;2;3;2;1;0]))) = 1%nat /\
  exists r, run_classifacation_algorithm (default_analysis "exp") (series_rows [0;1;2;3;2;1;0]) = Ok r /\
    mean_magnitude_of_strategy_flip r = None /\ std_magnitude_of_strategy_flip r = None /\
    var_magnitude_of_strategy_flip r = None /\ nash_val r = 0%nat.
Proof.
  split; [vm_compute; reflexivity|]. split; [vm_compute; reflexivity|].
  apply (single_extremum_unstable _ _ (frame_of (series_rows [0;1;2;3;2;1;0])));
    vm_compute; reflexivity.
Defined.

(** The series of spec 8 run through the code.  The scenario
    [0,1,2,1,0,1,2,1,0] has its extrema at generations 3, 5 and 7 (max,
    min, max), two counted flips, flip time 1, mean flip magnitude 2 (the
    extrema are 2, 0, 2 apart by 2, not the spec's 1.0) and an unstable
    verdict.  Spec 8 expects a series alternating at every step to have a
    nonzero flip count and mean magnitude equal to the amplitude; the
    central differences of such a series vanish in the interior, a single
    extremum is found, no flip is counted, the magnitudes are NaN and the
    verdict is 0.  A non-decreasing staircase
    [0,5,10,10,10,10,10,10,15,20,...,20] has two maxima (at generations 5
    and 12) and no minimum: no flip is counted, yet the mean flip
    magnitude is 10 (the distance between the two maxima) and the verdict
    is 0, where spec 3 says that when no flip is counted the magnitude
    statistics are 0. *)
Example spec_example_series :
  frame_labels [0;1;2;1;0;1;2;1;0] = [PNone; PNone; PMax; PNone; PMin; PNone; PMax; PNone; PNone] /\
  run_classifacation_algorithm (default_analysis "exp") (series_rows [0;1;2;1;0;1;2;1;0]) =
  Ok (SummaryRow "exp" 1 1 "krat" 2 (Some 1) (Some (Sqrt 0)) (Some 0)
        (Some 2) (Some (Sqrt 0)) (Some 0) 0) /\
  run_classifacation_algorithm (default_analysis "exp") (series_rows [0;1;0;1;0;1;0;1;0]) =
  Ok (SummaryRow "exp" 1 1 "krat" 0 None None None None None None 0) /\
  frame_labels [0;5;10;10;10;10;10;10;15;20;20;20;20;20;20] =
    [PNone; PNone; PNone; PNone; PMax; PNone; PNone; PNone; PNone; PNone; PNone; PMax;
     PNone; PNone; PNone] /\
  run_classifacation_algorithm (default_analysis "exp")
    (series_rows [0;5;10;10;10;10;10;10;15;20;20;20;20;20;20]) =
  Ok (SummaryRow "exp" 1 1 "krat" 0 None None None (Some 10) (Some (Sqrt 0)) (Some 0) 0).
Proof. repeat split; vm_compute; reflexivity. Qed.

(** ** A series alternating at every step *)

Section Alternating.

Variables (v d : Q) (n : nat).

Hypothesis Hn : (6 <= n)%nat.

Let y := alternating_series v d n.
Let dy := aprox_derv_central y 1 1.
Let d2 := aprox_derv_central dy 1 1.

Lemma alt_length : length y = n.
Proof. apply length_map_seq. Qed.

Lemma alt_nth i : (i < n)%nat -> nth i y 0 = if Nat.even i then v else v + d.
Proof. apply nth_map_seq. Qed.

(** The central differences vanish inside: both neighbours of a row are
    equal. *)
Lemma alt_dy_first : nth 0 dy 0 == d.
Proof.
  unfold dy. rewrite aprox_derv_central_nth by (rewrite alt_length; lia).
  unfold derv_at. rewrite alt_length, (proj2 (Nat.ltb_lt (0 + 1) n)) by lia. simpl andb.
  rewrite !alt_nth by lia. simpl. change (qnat 1) with 1. field.
Qed.

Lemma alt_dy_inner i : (0 < i)%nat -> (S i < n)%nat -> nth i dy 0 == 0.
Proof.
  intros H0 Hi. unfold dy. rewrite aprox_derv_central_nth by (rewrite alt_length; lia).
  rewrite derv_at_central by (rewrite ?alt_length; lia).
  destruct i as [|j]; [lia|]. replace (S j + 1)%nat with (S (S j)) by lia.
  replace (S j - 1)%nat with j by lia. rewrite !alt_nth by lia. cbn [Nat.even].
  unfold Qdiv. destruct (Nat.even j); ring.
Qed.

Lemma alt_dy_length : length dy = n.
Proof. unfold dy. rewrite aprox_derv_central_length. apply alt_length. Qed.

(** The smoothed first derivative: [d/3] at the first two rows, 0 from
    the third to the third-last. *)
Lemma alt_sdy_0 : nth 0 (moving_average3 dy) 0 == d / 3.
Proof.
  rewrite moving_average3_first by (rewrite alt_dy_length; lia).
  rewrite alt_dy_first, (alt_dy_inner 1) by lia. field.
Qed.

Lemma alt_sdy_1 : nth 1 (moving_average3 dy) 0 == d / 3.
Proof.
  rewrite moving_average3_interior by (rewrite ?alt_dy_length; lia). simpl (1 - 1)%nat.
  rewrite alt_dy_first, (alt_dy_inner 1), (alt_dy_inner 2) by lia. field.
Qed.

Lemma alt_sdy_inner i : (2 <= i)%nat -> (i + 2 < n)%nat -> nth i (moving_average3 dy) 0 == 0.
Proof.
  intros H2 Hi. rewrite moving_average3_interior by (rewrite ?alt_dy_length; lia).
  rewrite !alt_dy_inner by lia. field.
Qed.

(** The smoothed second derivative at the third row is [-d/6]. *)
Lemma alt_sd2_2 : nth 2 (moving_average3 d2) 0 == - (d / 6).
Proof.
  assert (Hl : length d2 = n) by (unfold d2; rewrite aprox_derv_central_length; apply alt_dy_length).
  rewrite moving_average3_interior by (rewrite ?Hl; lia). simpl (2 - 1)%nat.
  unfold d2. rewrite !aprox_derv_central_nth by (rewrite alt_dy_length; lia).
  rewrite !derv_at_central by (rewrite ?alt_dy_length; lia). simpl Nat.add; simpl Nat.sub.
  rewrite alt_dy_first, !alt_dy_inner by lia. unfold qnat. simpl. field.
Qed.

Lemma classify_point_same s p k : classify_point s p p k = PNone.
Proof. unfold classify_point. repeat case_q; reflexivity || (exfalso; lra). Qed.

Lemma classify_point_flat s c k : classify_point s 0 c k = PNone.
Proof. unfold classify_point. repeat case_q; reflexivity || (exfalso; lra). Qed.

Lemma classify_point_alt : classify_point (1#100) (d / 3) 0 (- (d / 6)) = alt_label d.
Proof.
  unfold classify_point, alt_label.
  assert (H3 : d / 3 == (1#3) * d) by field. assert (H6 : - (d / 6) == (-1#6) * d) by field.
  repeat case_q; reflexivity || (exfalso; lra).
Qed.

(** The code's labels: only the third row can be an extremum. *)
Lemma alternating_labels :
  closed_labels y = PNone :: PNone :: alt_label d :: repeat PNone (n - 3).
Proof.
  unfold closed_labels. fold dy d2.
  set (sdy := moving_average3 dy). set (sd2 := moving_average3 d2).
  assert (Hl : length sdy = n) by (unfold sdy; rewrite length_moving_average3; rewrite ?alt_dy_length; lia).
  apply nth_ext with (d := PNone) (d' := PNone).
  - rewrite classification_length, Hl. simpl. rewrite repeat_length. lia.
  - rewrite classification_length, Hl. intros i Hi.
    destruct i as [|[|[|j]]].
    + rewrite classification_nth by lia. reflexivity.
    + rewrite classification_interior by lia. simpl (1 - 1)%nat.
      rewrite (classify_point_Qeq _ _ (d / 3) _ (d / 3) _ (nth 1 sd2 0)) by
        (reflexivity || apply alt_sdy_0 || apply alt_sdy_1).
      apply classify_point_same.
    + rewrite classification_interior by lia. simpl (2 - 1)%nat.
      rewrite (classify_point_Qeq _ _ (d / 3) _ 0 _ (- (d / 6))) by
        (apply alt_sdy_1 || apply alt_sd2_2 || (apply alt_sdy_inner; lia)).
      apply classify_point_alt.
    + simpl nth at 2. rewrite nth_repeat.
      destruct (classification_cases sdy sd2 (1#100) (S (S (S j)))) as [E|(_ & Hs & E)];
        [lia | exact E|]. rewrite E.
      rewrite (classify_point_Qeq _ _ 0 _ (nth (S (S (S j))) sdy 0) _ (nth (S (S (S j))) sd2 0))
        by (reflexivity || (apply alt_sdy_inner; lia)).
      apply classify_point_flat.
Qed.

End Alternating.

(** A NaN mean magnitude fails the comparison of line 64. *)
Lemma nash_nan n cs ms : nash n None cs ms = 0%nat.
Proof. unfold nash, nan_le. rewrite andb_false_r. reflexivity. Qed.

Lemma alt_label_extremum d : is_extremum (alt_label d) = (6#100 [<] Qabs d).
Proof.
  unfold alt_label. destruct (Qlt_le_dec d 0).
  - rewrite Qabs_neg by lra. repeat case_q; reflexivity || (exfalso; lra).
  - rewrite Qabs_pos by lra. repeat case_q; reflexivity || (exfalso; lra).
Qed.

(** The rows selected by a mask with at most the third row set. *)
Lemma select_third (b : bool) k (l : list Q) :
  (3 <= length l)%nat ->
  select (false :: false :: b :: repeat false k) l = if b then [nth 2 l 0] else [].
Proof.
  destruct l as [|x0 [|x1 [|x2 l]]]; simpl; intro H; try lia.
  rewrite select_all_false by (apply Forall_forall; intros x Hx; apply repeat_spec in Hx; exact Hx).
  destruct b; reflexivity.
Qed.

(** C7: spec 8 expects a series alternating at every step to have a
    nonzero flip count and a mean flip magnitude equal to its amplitude.
    For every such series of at least 6 points, between [v] and [v + d],
    the code counts no flip and has no flip time: the central
    differences vanish inside, so the only row it can label is the third
    one.  When [|d| > 0.06] that row is the series' single extremum, the
    magnitude statistics are NaN and the verdict is 0; otherwise there
    is no extremum, the magnitudes are 0 and the series is judged as a
    flat one (stable with the default sensitivities). *)
Theorem alternating_series_misjudged a sim v d :
  (6 <= length sim)%nat -> map bush_pw_mean sim = alternating_series v d (length sim) ->
  exists r, run_classifacation_algorithm a sim = Ok r /\ count_str_flip r = 0%nat /\
    mean_strategy_flip_time r = None /\
    (6#100 < Qabs d ->
       mean_magnitude_of_strategy_flip r = None /\ std_magnitude_of_strategy_flip r = None /\
       var_magnitude_of_strategy_flip r = None /\ nash_val r = 0%nat) /\
    (Qabs d <= 6#100 ->
       mean_magnitude_of_strategy_flip r = Some 0 /\
       std_magnitude_of_strategy_flip r = Some (Sqrt 0) /\ var_magnitude_of_strategy_flip r = Some 0 /\
       nash_val r = nash 0 (Some 0) (nash_inf_count_sensitivity a) (nash_inf_mag_sensitivity a)).
Proof.
  intros Hn Hy. unfold run_classifacation_algorithm. rewrite classification_frame_eq, length_map.
  rewrite (proj2 (Nat.ltb_ge _ _)) by lia. cbv zeta.
  fold (closed_labels (map bush_pw_mean sim)). rewrite Hy, alternating_labels by exact Hn.
  set (L := PNone :: PNone :: alt_label d :: repeat PNone (length sim - 3)).
  match goal with |- context [flip_time_stats ?f] => set (fr := f) end.
  assert (Hc : number_of_inf_points fr = 0%nat).
  { unfold number_of_inf_points. cbn [min_max_filter_col fr]. rewrite counted_flips.
    pose proof (flips_le_extrema Unset L) as H1.
    assert (H2 : (count_true (map is_extremum L) <= 1)%nat).
    { unfold L. cbn [map]. rewrite map_repeat, !count_true_cons, count_true_repeat_false.
      destruct (is_extremum (alt_label d)); simpl; lia. }
    unfold min_max_flip_by_gen. lia. }
  assert (Hf : flip_time_stats fr = (None, None, None)).
  { unfold flip_time_stats, flip_times. rewrite select_count_zero by exact Hc. reflexivity. }
  assert (He : extremum_values fr =
               if 6#100 [<] Qabs d then [nth 2 (alternating_series v d (length sim)) 0] else []).
  { unfold extremum_values. cbn [point_classifacation fy fr]. unfold L. cbn [map].
    rewrite map_repeat, alt_label_extremum. apply select_third.
    unfold alternating_series. rewrite length_map_seq. lia. }
  rewrite Hf, Hc. unfold magnitude_stats. rewrite He.
  destruct (6#100 [<] Qabs d) eqn:Ed; qb; cbv beta iota zeta;
    eexists; (split; [reflexivity|]); repeat split; first [reflexivity | exfalso; lra | apply nash_nan].
Qed.

(** ** Witnesses *)

Lemma classification_frame_wf_witness :
  match classification_frame [0; 1; 2; 3]%Z [0; 1; 4; 9] with
  | Ok fr => frame_wf fr 4 = true
  | Err _ => False
  end.
Proof.
  destruct (classification_frame [0; 1; 2; 3]%Z [0; 1; 4; 9]) as [fr|e] eqn:E.
  - apply (classification_frame_wf [0; 1; 2; 3]%Z [0; 1; 4; 9] fr); [reflexivity | exact E].
  - vm_compute in E. discriminate.
Defined.

Lemma increasing_series_stable_witness :
  (3 <= length rising_rows)%nat /\
  strictly_increasing (map bush_pw_mean rising_rows) = true /\
  exists r, run_classifacation_algorithm (default_analysis "exp") rising_rows = Ok r /\
    count_str_flip r = 0%nat /\
    mean_magnitude_of_strategy_flip r = Some 0 /\
    std_magnitude_of_strategy_flip r = Some (Sqrt 0) /\
    var_magnitude_of_strategy_flip r = Some 0 /\
    (nash_val r = 1%nat <-> 0 <= 5 /\ 0 <= (5#100)).
Proof.
  split; [simpl; lia|]. split; [vm_compute; reflexivity|].
  apply increasing_series_stable; [simpl; lia | vm_compute; reflexivity].
Defined.

Lemma run_classification_total_witness :
  (3 <= length tri_rows)%nat /\
  ((run_classifacation_algorithm (default_analysis "exp") short_rows = Err InvalidWindowError <->
     (length short_rows < 3)%nat) /\
   ((3 <= length short_rows)%nat ->
     exists r, run_classifacation_algorithm (default_analysis "exp") short_rows = Ok r)) /\
  (exists r, run_classifacation_algorithm (default_analysis "exp") tri_rows = Ok r).
Proof.
  split; [simpl; lia|]. split; [apply run_classification_total|].
  apply (run_classification_total (default_analysis "exp") tri_rows). simpl. lia.
Defined.

Lemma flip_time_constant_witness :
  run_classifacation_algorithm (default_analysis "exp") scenario_rows = Ok scenario_row /\
  (1 <= count_str_flip scenario_row)%nat /\
  (exists m, mean_strategy_flip_time scenario_row = Some m /\ m == 1) /\
  ((2 <= count_str_flip scenario_row)%nat -> exists v, var_strategy_flip_time scenario_row = Some v /\ v == 0).
Proof.
  split; [vm_compute; reflexivity|]. split; [simpl; lia|].
  apply (flip_time_constant (default_analysis "exp") scenario_rows);
    [vm_compute; reflexivity | simpl; lia].
Defined.

Lemma count_str_flip_counts_flips_witness :
  run_classifacation_algorithm (default_analysis "exp") scenario_rows = Ok scenario_row /\
  exists fr, classification_frame (map generation scenario_rows)
               (map bush_pw_mean scenario_rows) = Ok fr /\
    count_str_flip scenario_row = count_true (zip_and (min_max_flip fr) (min_max_filter_col fr)).
Proof.
  split; [vm_compute; reflexivity|].
  apply (count_str_flip_counts_flips (default_analysis "exp")). vm_compute. reflexivity.
Defined.

Lemma count_str_flip_bound_witness :
  run_classifacation_algorithm (default_analysis "exp") scenario_rows = Ok scenario_row /\
  exists fr, classification_frame (map generation scenario_rows) (map bush_pw_mean scenario_rows) = Ok fr /\
    (count_str_flip scenario_row <= length (extremum_values fr) - 1)%nat.
Proof.
  assert (H : run_classifacation_algorithm (default_analysis "exp") scenario_rows = Ok scenario_row)
    by (vm_compute; reflexivity).
  split; [exact H | apply (count_str_flip_bound _ _ _ H)].
Defined.

Lemma summary_stats_nonneg_witness :
  run_classifacation_algorithm (default_analysis "exp") scenario_rows = Ok scenario_row /\
  opt_nonneg (mean_strategy_flip_time scenario_row) /\ sqrt_defined (std_strategy_flip_time scenario_row) /\
  opt_nonneg (var_strategy_flip_time scenario_row) /\
  opt_nonneg (mean_magnitude_of_strategy_flip scenario_row) /\
  sqrt_defined (std_magnitude_of_strategy_flip scenario_row) /\
  opt_nonneg (var_magnitude_of_strategy_flip scenario_row).
Proof.
  assert (H : run_classifacation_algorithm (default_analysis "exp") scenario_rows = Ok scenario_row)
    by (vm_compute; reflexivity).
  split; [exact H | apply (summary_stats_nonneg _ _ _ H)].
Defined.

Lemma sensitivities_only_affect_verdict_witness :
  nash_inf_count_sensitivity (default_analysis "exp") <=
    nash_inf_count_sensitivity (Analysis "exp" 5 3) /\
  nash_inf_mag_sensitivity (default_analysis "exp") <= nash_inf_mag_sensitivity (Analysis "exp" 5 3) /\
  (forall e, run_classifacation_algorithm (default_analysis "exp") scenario_rows = Err e <->
     run_classifacation_algorithm (Analysis "exp" 5 3) scenario_rows = Err e) /\
  (forall r r', run_classifacation_algorithm (default_analysis "exp") scenario_rows = Ok r ->
     run_classifacation_algorithm (Analysis "exp" 5 3) scenario_rows = Ok r' ->
     row_stats r' = row_stats r /\ (nash_val r <= nash_val r')%nat).
Proof.
  assert (Hc : nash_inf_count_sensitivity (default_analysis "exp") <=
    nash_inf_count_sensitivity (Analysis "exp" 5 3)) by (vm_compute; discriminate).
  assert (Hm : nash_inf_mag_sensitivity (default_analysis "exp") <=
    nash_inf_mag_sensitivity (Analysis "exp" 5 3)) by (vm_compute; discriminate).
  split; [exact Hc|]. split; [exact Hm|].
  exact (sensitivities_only_affect_verdict _ _ scenario_rows Hc Hm).
Defined.

Lemma alternating_series_misjudged_witness :
  (6 <= length (series_rows (alternating_series 0 1 8)))%nat /\
  map bush_pw_mean (series_rows (alternating_series 0 1 8)) =
    alternating_series 0 1 (length (series_rows (alternating_series 0 1 8))) /\
  exists r, run_classifacation_algorithm (default_analysis "exp") (series_rows (alternating_series 0 1 8)) = Ok r /\
    count_str_flip r = 0%nat /\ mean_strategy_flip_time r = None /\
    (6#100 < Qabs 1 ->
       mean_magnitude_of_strategy_flip r = None /\ std_magnitude_of_strategy_flip r = None /\
       var_magnitude_of_strategy_flip r = None /\ nash_val r = 0%nat) /\
    (Qabs 1 <= 6#100 ->
       mean_magnitude_of_strategy_flip r = Some 0 /\
       std_magnitude_of_strategy_flip r = Some (Sqrt 0) /\ var_magnitude_of_strategy_flip r = Some 0 /\
       nash_val r = nash 0 (Some 0) (nash_inf_count_sensitivity (default_analysis "exp"))
                      (nash_inf_mag_sensitivity (default_analysis "exp"))).
Proof.
  split; [vm_compute; lia|]. split; [vm_compute; reflexivity|].
  apply (alternating_series_misjudged _ _ 0 1); [vm_compute; lia | vm_compute; reflexivity].
Defined.

End Summary.
