(* ===== verification/Orchestrator.v ===== *)
(** * Run orchestrator

    The class [Experiment_Per_Cycle_Analysis] of
    [src/oscillator_classification/multi_sim_analysis.py] around the
    summarizer: the generation-boundary filter ([by_gen_filter],
    [per_gen_data_format]), the grouping by [(sim_id, org)] of
    [loop_through_sims], and the output file ([__init__], [create_csv],
    [append_data]).  The file system is an explicit state: the output
    path holds nothing, a directory or a CSV file (a list of lines).  The
    loop is defined and proved for any per-series analysis (a Section
    variable), and instantiated with [run_classifacation_algorithm].
    Repeated invocations of the script on one path are a sequence of
    runs threading the file ([run_seq]). *)

From Stdlib Require Import String ZArith QArith List Bool Lia Permutation Sorted.
From S2P Require Import Prelude Summary.
Import ListNotations.
Import Summary.
Local Open Scope nat_scope.

Module Orchestrator.

(** ** Generation boundaries *)

(** A row of the parameter file (the two columns the code reads). *)
Record param_row : Type := ParamRow {
  krat_reproduction_freq_per_x_cycles : Z;
  snake_reproduction_freq_per_x_cycles : Z
}.

(** [Series.max()] of an integer column: NaN ([None]) when empty. *)
Definition col_max (l : list Z) : option Z :=
  match l with [] => None | a :: t => Some (fold_left Z.max t a) end.

(** [row['cycle'] % freq == 0], false when the frequency is NaN.  The
    frequency is the numpy integer returned by [max()], and numpy's
    remainder by 0 is 0, so a zero frequency keeps every row. *)
Definition cycle_divisible (freq : option Z) (c : Z) : bool :=
  match freq with
  | Some k => if (k =? 0)%Z then true else (c mod k =? 0)%Z
  | None => false
  end.

(** The value the loop body of [by_gen_filter] appends for one row. *)
Definition by_gen_value (krat_reproduction_freq snake_reproduction_freq : option Z)
    (row : cycle_row) : nat :=
  if String.eqb (org row) "krat" && cycle_divisible krat_reproduction_freq (cycle row) then 1
  else if String.eqb (org row) "snake" && cycle_divisible snake_reproduction_freq (cycle row) then 1
  else 0.

(** [by_gen_filter]: the column built by appending one value per row in
    the order of [iterrows]. *)
Definition by_gen_filter (per_cycle : list cycle_row)
    (krat_reproduction_freq snake_reproduction_freq : option Z) : list nat :=
  fold_left (fun acc row => acc ++ [by_gen_value krat_reproduction_freq snake_reproduction_freq row])
    per_cycle [].

(** [per_gen_data_format]: the frequencies (column maxima) and the rows
    whose filter value is 1, in their original order. *)
Definition per_gen_data_format (per_cycle : list cycle_row) (parameters : list param_row)
  : option Z * option Z * list cycle_row :=
  let kf := col_max (map krat_reproduction_freq_per_x_cycles parameters) in
  let sf := col_max (map snake_reproduction_freq_per_x_cycles parameters) in
  let col := by_gen_filter per_cycle kf sf in
  (kf, sf, select (map (fun v => Nat.eqb v 1) col) per_cycle).

(** ** Grouping by [(sim_id, org)] *)

Definition key : Type := (Z * string)%type.

Definition key_of (r : cycle_row) : key := (sim_id r, org r).

Definition key_eqb (a b : key) : bool := Z.eqb (fst a) (fst b) && String.eqb (snd a) (snd b).

(** The order of pandas' sorted group keys: by [sim_id], then by [org]. *)
Definition key_ltb (a b : key) : bool :=
  Z.ltb (fst a) (fst b) ||
  (Z.eqb (fst a) (fst b) && match String.compare (snd a) (snd b) with Lt => true | _ => false end).

Definition key_eq_dec (a b : key) : {a = b} + {a <> b}.
Proof. decide equality; [apply string_dec | apply Z.eq_dec]. Defined.

(** Insert a key into a sorted list of keys. *)
Fixpoint insert_key (k : key) (ks : list key) : list key :=
  match ks with
  | [] => [k]
  | k' :: ks' => if key_ltb k' k then k' :: insert_key k ks' else k :: ks
  end.

(** The distinct keys of the rows, sorted. *)
Definition group_keys (rows : list cycle_row) : list key :=
  fold_right insert_key [] (nodup key_eq_dec (map key_of rows)).

(** [groupby(['sim_id','org'])]: one group per key, in key order, each
    holding the rows of that key in their original order. *)
Definition groupby (rows : list cycle_row) : list (key * list cycle_row) :=
  map (fun k => (k, filter (fun r => key_eqb (key_of r) k) rows)) (group_keys rows).

(** ** The output file *)

(** A line of the output CSV: the header of [__init__] or a summary. *)
Inductive csv_line : Type :=
| HeaderLine
| DataLine (r : summary_row).

(** What the output path holds. *)
Inductive fs_entry : Type :=
| NoEntry
| Directory
| CsvFile (lines : list csv_line).

(** [append_data]: open in append mode and write one line. *)
Definition append_data (f : list csv_line) (d_row : csv_line) : list csv_line := f ++ [d_row].

(** [create_csv]: truncate (or create), then append the header. *)
Definition create_csv (p : fs_entry) : result (list csv_line) :=
  match p with
  | Directory => Err IsADirectoryError
  | _ => Ok (append_data [] HeaderLine)
  end.

(** The output part of [__init__]: an existing file is kept as it is,
    anything else goes through [create_csv]. *)
Definition init_output (p : fs_entry) : result (list csv_line) :=
  match p with
  | CsvFile lines => Ok lines
  | _ => create_csv p
  end.

(** ** Boundary rows *)

(** The reproduction frequency of an organism (spec 9: [frequency[org]]). *)
Definition frequency_of (kf sf : option Z) (o : string) : option Z :=
  if String.eqb o "krat" then kf else if String.eqb o "snake" then sf else None.

(** The declarative boundary predicate of spec 9. *)
Definition is_boundary (kf sf : option Z) (row : cycle_row) : bool :=
  cycle_divisible (frequency_of kf sf (org row)) (cycle row).

(** ** The loop, for any per-series analysis *)

Section LoopDef.

Variable analyse : list cycle_row -> result summary_row.

(** [loop_through_sims]: one appended row per group, in group order; an
    exception of the analysis leaves the rows already written and stops
    the loop (it is not caught). *)
Fixpoint loop_groups (groups : list (key * list cycle_row)) (f : list csv_line)
  : list csv_line * option err :=
  match groups with
  | [] => (f, None)
  | (_, sim) :: gs =>
      match analyse sim with
      | Ok data => loop_groups gs (append_data f (DataLine data))
      | Err e => (f, Some e)
      end
  end.

End LoopDef.

Definition loop_through_sims (a : analysis) (by_gen_data : list cycle_row) (f : list csv_line)
  : list csv_line * option err :=
  loop_groups (run_classifacation_algorithm a) (groupby by_gen_data) f.

(** The whole run: the constructor (boundary filter, then the output
    file) followed by [loop_through_sims]. *)
Definition run_analysis (p : fs_entry) (a : analysis) (per_cycle : list cycle_row)
    (parameters : list param_row) : result (list csv_line * option err) :=
  let '(_, _, by_gen_data) := per_gen_data_format per_cycle parameters in
  let* f := init_output p in
  Ok (loop_through_sims a by_gen_data f).

(** Repeated invocations of the script on one output path: each run
    leaves the file as its loop left it (an exception ends that run, not
    the file), and the next run starts from that file. *)
Definition run_on (p : fs_entry) (job : analysis * list cycle_row * list param_row)
  : result fs_entry :=
  let '(a, per_cycle, parameters) := job in
  let* out := run_analysis p a per_cycle parameters in
  Ok (CsvFile (fst out)).

Fixpoint run_seq (p : fs_entry) (jobs : list (analysis * list cycle_row * list param_row))
  : result fs_entry :=
  match jobs with
  | [] => Ok p
  | j :: js => let* p' := run_on p j in run_seq p' js
  end.

(** ** The order of the groups *)

Definition key_lt (a b : key) : Prop := key_ltb a b = true.

(** ** The output file across runs *)

Definition is_header (l : csv_line) : bool := match l with HeaderLine => true | _ => false end.

(** ** Witnesses *)

(** A five-point series of one simulation, and the output it gives. *)
Definition demo_rows : list cycle_row := series_rows [0;1;2;3;4]%Q.

Definition demo_row : summary_row :=
  SummaryRow "exp" 1 1 "krat" 0 None None None (Some 0%Q) (Some (Sqrt 0)) (Some 0%Q) 1.

Definition demo_file : list csv_line :=
  match run_analysis NoEntry (default_analysis "exp") demo_rows [ParamRow 1 1] with
  | Ok (f, _) => f
  | Err _ => []
  end.

(** ** Boundary rows *)

Lemma by_gen_value_boundary kf sf row :
  by_gen_value kf sf row = if is_boundary kf sf row then 1 else 0.
Proof.
  unfold by_gen_value, is_boundary, frequency_of.
  destruct (String.eqb_spec (org row) "krat") as [->|Hk]; simpl.
  - destruct (cycle_divisible kf (cycle row)); reflexivity.
  - destruct (String.eqb (org row) "snake"); simpl; [|reflexivity].
    destruct (cycle_divisible sf (cycle row)); reflexivity.
Qed.

Lemma fold_append_map {A B} (g : A -> B) (l : list A) (acc : list B) :
  fold_left (fun acc x => acc ++ [g x]) l acc = acc ++ map g l.
Proof.
  revert acc. induction l as [|x l IH]; intro acc; simpl; [rewrite app_nil_r; reflexivity|].
  rewrite IH, <- app_assoc. reflexivity.
Qed.

(** The loop of [by_gen_filter] is the per-row predicate mapped over the
    rows. *)
Lemma by_gen_filter_map rows kf sf :
  by_gen_filter rows kf sf = map (fun r => if is_boundary kf sf r then 1 else 0) rows.
Proof.
  unfold by_gen_filter. rewrite fold_append_map. simpl.
  apply map_ext. apply by_gen_value_boundary.
Qed.

Lemma select_filter {A} (p : A -> bool) (l : list A) :
  select (map (fun x => Nat.eqb (if p x then 1 else 0) 1) l) l = filter p l.
Proof.
  induction l as [|x l IH]; [reflexivity|]. simpl. destruct (p x); simpl; rewrite IH; reflexivity.
Qed.

(** ** The loop, for any per-series analysis *)

Section Loop.

Variable analyse : list cycle_row -> result summary_row.

Local Abbreviation loop_groups := (loop_groups analyse).

(** The lines a run of the loop writes do not depend on what the file
    held before: they are appended. *)
Lemma loop_groups_frame groups f :
  loop_groups groups f = (f ++ fst (loop_groups groups []), snd (loop_groups groups [])).
Proof.
  revert f. induction groups as [|[k sim] gs IH]; intro f; simpl; [rewrite app_nil_r; reflexivity|].
  destruct (analyse sim) as [data|e]; simpl; [|rewrite app_nil_r; reflexivity].
  unfold append_data. simpl app.
  rewrite (IH (f ++ [DataLine data])), (IH [DataLine data]). simpl.
  rewrite <- app_assoc. reflexivity.
Qed.

(** When every group is analysed, the loop appends one line per group,
    in group order. *)
Lemma loop_groups_all groups f rs :
  Forall2 (fun g r => analyse (snd g) = Ok r) groups rs ->
  loop_groups groups f = (f ++ map DataLine rs, None).
Proof.
  intro H. revert f. induction H as [|[k sim] r gs rs Hr _ IH]; intro f; simpl.
  - rewrite app_nil_r. reflexivity.
  - simpl in Hr. rewrite Hr. unfold append_data. rewrite IH, <- app_assoc. reflexivity.
Qed.

(** Any run of the loop analyses a prefix of the groups, appends one
    line per group of that prefix, and stops early only on an error. *)
Lemma loop_groups_split groups f :
  exists pre post rs, groups = pre ++ post /\
    Forall2 (fun g r => analyse (snd g) = Ok r) pre rs /\
    fst (loop_groups groups f) = f ++ map DataLine rs /\
    ((snd (loop_groups groups f) = None /\ post = []) \/
     (exists g post' e, post = g :: post' /\ analyse (snd g) = Err e /\
        snd (loop_groups groups f) = Some e)).
Proof.
  revert f. induction groups as [|[k sim] gs IH]; intro f.
  - exists [], [], []. simpl. rewrite app_nil_r. repeat split; auto.
  - simpl. destruct (analyse sim) as [data|e] eqn:Ha.
    + destruct (IH (append_data f (DataLine data))) as (pre & post & rs & -> & HF & Hf & Hn).
      exists ((k, sim) :: pre), post, (data :: rs). split; [reflexivity|].
      split; [constructor; assumption|]. split; [|assumption].
      rewrite Hf. unfold append_data. rewrite <- app_assoc. reflexivity.
    + exists [], ((k, sim) :: gs), []. simpl. rewrite app_nil_r.
      split; [reflexivity|]. split; [constructor|]. split; [reflexivity|].
      right. exists (k, sim), gs, e. auto.
Qed.

(** What the loop writes: when every group is analysed, one line per
    group in group order and no error; when the analysis of a group
    raises, the lines of the groups before it, the error, and no line for
    that group or any later one. *)
Lemma loop_groups_writes pre k sim post f rs :
  Forall2 (fun g r => analyse (snd g) = Ok r) pre rs ->
  loop_groups pre f = (f ++ map DataLine rs, None) /\
  (forall e, analyse sim = Err e ->
     loop_groups (pre ++ (k, sim) :: post) f = (f ++ map DataLine rs, Some e)).
Proof.
  intro H. split; [apply loop_groups_all; assumption|].
  intros e He. revert f. induction H as [|[k' sim'] r gs rs Hr _ IH]; intro f; simpl.
  - rewrite He, app_nil_r. reflexivity.
  - simpl in Hr. rewrite Hr. unfold append_data. rewrite IH, <- app_assoc. reflexivity.
Qed.

End Loop.

(** ** Properties of the filter *)

(** With an empty parameter table both frequencies are NaN and no row
    is a boundary. *)
Lemma empty_parameters_no_rows per_cycle :
  per_gen_data_format per_cycle [] = (None, None, []).
Proof.
  unfold per_gen_data_format. simpl. rewrite by_gen_filter_map, map_map, select_filter.
  f_equal. induction per_cycle as [|r rs IH]; [reflexivity|]. simpl.
  unfold is_boundary, frequency_of at 1. simpl.
  destruct (String.eqb (org r) "krat"), (String.eqb (org r) "snake"); exact IH.
Qed.

(** C17: the boundary filter of [per_gen_data_format], written as a loop
    appending one value per row, keeps exactly the rows satisfying the
    declarative predicate of spec 9 ([cycle mod frequency[org] == 0],
    with the frequencies the column maxima of the parameter table), in
    their original order; with an empty parameter table both frequencies
    are NaN, no row is a boundary, and the run has no series to
    classify. *)
Theorem per_gen_data_is_filter per_cycle parameters :
  (let '(kf, sf, by_gen_data) := per_gen_data_format per_cycle parameters in
   kf = col_max (map krat_reproduction_freq_per_x_cycles parameters) /\
   sf = col_max (map snake_reproduction_freq_per_x_cycles parameters) /\
   by_gen_data = filter (is_boundary kf sf) per_cycle) /\
  per_gen_data_format per_cycle [] = (None, None, []).
Proof.
  split; [|apply empty_parameters_no_rows].
  unfold per_gen_data_format. rewrite by_gen_filter_map, map_map, select_filter.
  split; [reflexivity|]. split; reflexivity.
Qed.

(** ** Properties of the grouping *)

Lemma key_eqb_eq a b : key_eqb a b = true <-> a = b.
Proof.
  destruct a as [z s], b as [z' s']. unfold key_eqb. simpl.
  rewrite andb_true_iff, Z.eqb_eq, String.eqb_eq. split; [intros [-> ->]; reflexivity|].
  intro E. injection E as -> ->. split; reflexivity.
Qed.

Lemma insert_key_perm k ks : Permutation (insert_key k ks) (k :: ks).
Proof.
  induction ks as [|k' ks IH]; simpl; [reflexivity|].
  destruct (key_ltb k' k); [|reflexivity].
  rewrite IH. apply perm_swap.
Qed.

Lemma fold_insert_perm l : Permutation (fold_right insert_key [] l) l.
Proof.
  induction l as [|k ks IH]; simpl; [reflexivity|]. rewrite insert_key_perm, IH. reflexivity.
Qed.

Lemma group_keys_perm rows :
  Permutation (group_keys rows) (nodup key_eq_dec (map key_of rows)).
Proof. apply fold_insert_perm. Qed.

Lemma In_group_keys rows k : In k (group_keys rows) <-> exists r, In r rows /\ key_of r = k.
Proof.
  pose proof (group_keys_perm rows) as P. split.
  - intro H. apply (Permutation_in _ P), nodup_In, in_map_iff in H as (r & H1 & H2).
    exists r. split; assumption.
  - intros (r & H1 & H2). apply (Permutation_in _ (Permutation_sym P)), nodup_In, in_map_iff.
    exists r. split; assumption.
Qed.

Lemma filter_nonempty {A} (p : A -> bool) (l : list A) x :
  In x l -> p x = true -> filter p l <> [].
Proof.
  intros Hin Hp E. assert (Hf : In x (filter p l)) by (apply filter_In; split; assumption).
  rewrite E in Hf. contradiction.
Qed.

(** Every group of [groupby] is nonempty and holds rows of its key only. *)
Lemma In_groupby rows k g :
  In (k, g) (groupby rows) -> g <> [] /\ Forall (fun r => key_of r = k) g.
Proof.
  unfold groupby. intro Hin. apply in_map_iff in Hin as (k' & E & Hk). injection E as -> <-.
  apply In_group_keys in Hk as (r & Hr & Hkr). split.
  - apply (filter_nonempty _ _ r Hr). apply key_eqb_eq. assumption.
  - apply Forall_forall. intros x Hx. apply filter_In in Hx as [_ Hx].
    apply key_eqb_eq. assumption.
Qed.

Lemma groupby_keys_nodup rows : NoDup (map fst (groupby rows)).
Proof.
  unfold groupby. rewrite map_map. simpl. rewrite map_id.
  apply (Permutation_NoDup (Permutation_sym (group_keys_perm rows))). apply NoDup_nodup.
Qed.

(** ** The order of the groups *)

(** Two distinct keys are ordered one way or the other. *)
Lemma key_ltb_total a b : a <> b -> key_ltb a b = false -> key_ltb b a = true.
Proof.
  destruct a as [z s], b as [z' s']. unfold key_ltb. simpl. intros Hne H.
  apply orb_false_iff in H as [H1 H2]. apply Z.ltb_ge in H1.
  destruct (Z.eq_dec z z') as [<-|Hz]; [|apply orb_true_iff; left; apply Z.ltb_lt; lia].
  rewrite Z.eqb_refl in *. simpl in *. apply orb_true_iff. right.
  destruct (String.compare s' s) eqn:C.
  - apply String.compare_eq_iff in C as ->. contradiction.
  - reflexivity.
  - rewrite String.compare_antisym, C in H2. discriminate.
Qed.

Lemma insert_key_hd k0 k ks : HdRel key_lt k0 ks -> key_lt k0 k -> HdRel key_lt k0 (insert_key k ks).
Proof.
  intros H Hk. destruct ks as [|k' ks]; simpl; [constructor; assumption|].
  destruct (key_ltb k' k); constructor; [inversion H; assumption | assumption].
Qed.

Lemma insert_key_sorted k ks : Sorted key_lt ks -> ~ In k ks -> Sorted key_lt (insert_key k ks).
Proof.
  induction 1 as [|k' ks Hs IH Hhd]; intro Hin; simpl; [repeat constructor|].
  destruct (key_ltb k' k) eqn:E.
  - constructor; [apply IH; intro; apply Hin; right; assumption|].
    apply insert_key_hd; assumption.
  - constructor; [constructor; assumption|]. constructor.
    apply key_ltb_total; [intro; apply Hin; left; congruence | assumption].
Qed.

Lemma fold_insert_sorted l : NoDup l -> Sorted key_lt (fold_right insert_key [] l).
Proof.
  induction 1 as [|k ks Hk _ IH]; simpl; [constructor|].
  apply insert_key_sorted; [assumption|].
  intro H. apply Hk. apply (Permutation_in _ (fold_insert_perm ks)). assumption.
Qed.

(** [groupby] yields its groups in strictly increasing order of key. *)
Lemma groupby_keys_sorted rows : Sorted key_lt (map fst (groupby rows)).
Proof.
  unfold groupby. rewrite map_map. simpl. rewrite map_id. unfold group_keys.
  apply fold_insert_sorted, NoDup_nodup.
Qed.

(** [groupby] partitions the rows: the keys are distinct, every
    group is nonempty (so a group without boundary rows never reaches the
    summarizer) and holds only rows of its key, and every row is in the
    group of its key; the groups come in strictly increasing order of
    [(sim_id, org)] (pandas' default [sort=True]), so
    [loop_through_sims] visits the series, and appends their rows, in
    that order. *)
Theorem groupby_partition rows :
  NoDup (map fst (groupby rows)) /\
  (forall k g, In (k, g) (groupby rows) -> g <> [] /\ Forall (fun r => key_of r = k) g) /\
  (forall r, In r rows -> exists g, In (key_of r, g) (groupby rows) /\ In r g) /\
  Sorted key_lt (map fst (groupby rows)).
Proof.
  split; [apply groupby_keys_nodup | split; [apply In_groupby|split; [|apply groupby_keys_sorted]]].
  intros r Hr. unfold groupby. eexists. split.
  - apply in_map_iff. exists (key_of r). split; [reflexivity|].
    apply In_group_keys. exists r. split; [assumption | reflexivity].
  - apply filter_In. split; [assumption|]. apply key_eqb_eq. reflexivity.
Qed.

(** ** The rows the loop writes *)

(** The analysis of a group of [groupby] gives a row whose [sim_id] and
    [org] are the group's key. *)
Lemma analysed_group_key a rows k g r :
  In (k, g) (groupby rows) -> run_classifacation_algorithm a g = Ok r ->
  (s_sim_id r, s_org r) = k.
Proof.
  intros Hin Hr. destruct (In_groupby rows k g Hin) as [Hne Hk].
  destruct (run_classification_ids a g r Hr) as (-> & -> & _).
  destruct k as [z o]. f_equal.
  - apply col_max_Z_const; [destruct g; simpl; congruence|].
    apply Forall_map. apply Forall_impl with (2 := Hk). intros x Hx. unfold key_of in Hx. congruence.
  - apply col_max_str_const; [destruct g; simpl; congruence|].
    apply Forall_map. apply Forall_impl with (2 := Hk). intros x Hx. unfold key_of in Hx. congruence.
Qed.

Lemma analysed_keys a rows pre rs :
  Forall2 (fun g r => run_classifacation_algorithm a (snd g) = Ok r) pre rs ->
  (forall g, In g pre -> In g (groupby rows)) ->
  map (fun r => (s_sim_id r, s_org r)) rs = map fst pre.
Proof.
  induction 1 as [|[k g] r pre rs Hr _ IH]; intro Hin; [reflexivity|]. simpl.
  rewrite (analysed_group_key a rows k g r (Hin _ (or_introl eq_refl)) Hr).
  rewrite IH; [reflexivity|]. intros g' H'. apply Hin. right. assumption.
Qed.

(** C22: the lines [loop_through_sims] appends are summaries keyed by
    the groups: the [(sim_id, org)] of the appended rows are the first
    group keys in [groupby] order, one row per group, and when no error
    stops the loop every group has its row. *)
Theorem loop_through_sims_keys a by_gen_data f :
  exists rs, fst (loop_through_sims a by_gen_data f) = f ++ map DataLine rs /\
    map (fun r => (s_sim_id r, s_org r)) rs = firstn (length rs) (map fst (groupby by_gen_data)) /\
    NoDup (map (fun r => (s_sim_id r, s_org r)) rs) /\
    (snd (loop_through_sims a by_gen_data f) = None -> length rs = length (groupby by_gen_data)).
Proof.
  unfold loop_through_sims.
  destruct (loop_groups_split (run_classifacation_algorithm a) (groupby by_gen_data) f)
    as (pre & post & rs & E & HF & Hf & Hn).
  assert (Hk : map (fun r => (s_sim_id r, s_org r)) rs = map fst pre).
  { apply (analysed_keys a by_gen_data); [assumption|].
    intros g Hg. rewrite E. apply in_or_app. left. assumption. }
  exists rs. split; [assumption|]. rewrite E, <- (Forall2_length HF), Hk.
  split; [|split].
  - rewrite map_app, firstn_app, length_map, Nat.sub_diag, firstn_0, app_nil_r, firstn_all2
      by (rewrite length_map; lia).
    reflexivity.
  - pose proof (groupby_keys_nodup by_gen_data) as Hnd. rewrite E, map_app in Hnd.
    apply NoDup_app_remove_r in Hnd. exact Hnd.
  - intro H. rewrite <- E in H.
    destruct Hn as [[_ ->] | (g & post' & e & _ & _ & He)]; [rewrite app_nil_r; reflexivity|].
    congruence.
Qed.

(** C27: the outcome of [loop_through_sims]: the groups, in [groupby]
    order, split into a prefix of series of at least 3 rows, each of
    which gets one summary line, and the rest; the loop ends without
    error exactly when the rest is empty, and otherwise raises
    [InvalidWindowError] at the first group of fewer than 3 rows,
    writing nothing for it or any later group. *)
Theorem loop_through_sims_outcome a by_gen_data f :
  exists pre post rs,
    groupby by_gen_data = pre ++ post /\
    Forall (fun g => (3 <= length (snd g))%nat) pre /\ length rs = length pre /\
    fst (loop_through_sims a by_gen_data f) = f ++ map DataLine rs /\
    ((post = [] /\ snd (loop_through_sims a by_gen_data f) = None) \/
     (exists g post', post = g :: post' /\ (length (snd g) < 3)%nat /\
        snd (loop_through_sims a by_gen_data f) = Some InvalidWindowError)).
Proof.
  unfold loop_through_sims.
  destruct (loop_groups_split (run_classifacation_algorithm a) (groupby by_gen_data) f)
    as (pre & post & rs & E & HF & Hf & Hn).
  exists pre, post, rs. split; [assumption|]. split.
  - clear -HF. induction HF as [|g r pre rs Hr _ IH]; constructor; [|assumption].
    destruct (Nat.lt_ge_cases (length (snd g)) 3) as [Hl|Hl]; [|assumption].
    pose proof (proj2 (run_classification_err_iff a (snd g) InvalidWindowError) (conj Hl eq_refl)).
    congruence.
  - split; [symmetry; apply (Forall2_length HF)|]. split; [assumption|].
    destruct Hn as [[He ->] | (g & post' & e & -> & Ha & He)]; [left; auto | right].
    apply run_classification_err_iff in Ha as [Hl ->]. exists g, post'. auto.
Qed.

(** ** The output file across runs *)

Lemma loop_groups_no_header analyse groups :
  Forall (fun l => is_header l = false) (fst (loop_groups analyse groups [])).
Proof.
  induction groups as [|[k sim] gs IH]; simpl; [constructor|].
  destruct (analyse sim); simpl; [|constructor].
  rewrite loop_groups_frame. simpl. constructor; [reflexivity | exact IH].
Qed.

(** A run on a fresh path writes the header exactly once, as the first
    line, and a run on an existing file appends the lines a fresh run
    writes after its header. *)
Lemma fresh_then_rerun a per_cycle parameters ls :
  exists ext e, run_analysis NoEntry a per_cycle parameters = Ok (HeaderLine :: ext, e) /\
    Forall (fun l => is_header l = false) ext /\
    run_analysis (CsvFile ls) a per_cycle parameters = Ok (ls ++ ext, e).
Proof.
  unfold run_analysis, loop_through_sims.
  destruct (per_gen_data_format per_cycle parameters) as [[kf sf] d]. simpl.
  rewrite (loop_groups_frame _ _ [HeaderLine]), (loop_groups_frame _ _ ls).
  do 2 eexists. split; [reflexivity|]. split; [apply loop_groups_no_header | reflexivity].
Qed.

(** A run appends summary lines to an existing file, and writes the
    header and then summary lines to a fresh path. *)
Lemma run_analysis_appends p a per_cycle parameters :
  p <> Directory ->
  exists ext e, run_analysis p a per_cycle parameters =
      Ok ((match p with CsvFile ls => ls | _ => [HeaderLine] end) ++ ext, e) /\
    Forall (fun l => is_header l = false) ext.
Proof.
  intro Hp. unfold run_analysis, loop_through_sims.
  destruct (per_gen_data_format per_cycle parameters) as [[kf sf] d].
  destruct p as [| |ls]; [| contradiction |]; simpl; rewrite loop_groups_frame;
    do 2 eexists; (split; [reflexivity | apply loop_groups_no_header]).
Qed.

Lemma run_seq_file ls body jobs :
  ls = HeaderLine :: body -> Forall (fun l => is_header l = false) body ->
  exists body', run_seq (CsvFile ls) jobs = Ok (CsvFile (ls ++ body')) /\
    Forall (fun l => is_header l = false) (body ++ body').
Proof.
  revert ls body. induction jobs as [|[[a pc] ps] js IH]; intros ls body Hls Hb.
  - exists []. rewrite !app_nil_r. split; [reflexivity | assumption].
  - destruct (run_analysis_appends (CsvFile ls) a pc ps ltac:(discriminate)) as (ext & e & E & He).
    cbn [run_seq run_on]. rewrite E. simpl.
    destruct (IH (ls ++ ext) (body ++ ext)) as (body' & E' & Hb');
      [rewrite Hls; reflexivity | apply Forall_app; split; assumption |].
    exists (ext ++ body'). rewrite app_assoc. split; [exact E'|]. rewrite app_assoc. exact Hb'.
Qed.

(** C24: over any sequence of invocations on one output path that starts
    fresh, every invocation succeeds and the file holds the header exactly
    once, as its first line (spec 6), whatever the runs raise; on a path
    that is a directory the first invocation raises [IsADirectoryError];
    and running again on an existing file appends, after its contents,
    every line a fresh run writes after the header: re-use is not
    idempotent against duplicate rows. *)
Theorem repeated_runs_one_header job jobs :
  (exists body, run_seq NoEntry (job :: jobs) = Ok (CsvFile (HeaderLine :: body)) /\
     Forall (fun l => is_header l = false) body) /\
  run_seq Directory (job :: jobs) = Err IsADirectoryError /\
  (forall a per_cycle parameters ls,
     exists ext e, run_analysis NoEntry a per_cycle parameters = Ok (HeaderLine :: ext, e) /\
       run_analysis (CsvFile ls) a per_cycle parameters = Ok (ls ++ ext, e)).
Proof.
  split; [|split; [destruct job as [[a pc] ps]; reflexivity|]].
  2:{ intros a pc ps ls. destruct (fresh_then_rerun a pc ps ls) as (ext & e & E1 & _ & E2).
      exists ext, e. split; assumption. }
  destruct job as [[a pc] ps].
  destruct (run_analysis_appends NoEntry a pc ps ltac:(discriminate)) as (ext & e & E & He).
  cbn [run_seq run_on]. rewrite E. simpl.
  destruct (run_seq_file (HeaderLine :: ext) ext jobs eq_refl He) as (body' & E' & Hb').
  exists (ext ++ body'). split; [exact E' | exact Hb'].
Qed.

End Orchestrator.
