(* ===== verification/NumpyInt.v ===== *)
(** * numpy's integer remainder

    The boundary test of [by_gen_filter] (lines 45 and 47 of
    [src/oscillator_classification/multi_sim_analysis.py]) is
    [row['cycle'] % krat_reproduction_freq == 0], where the frequency is
    the [max()] of an [int64] column, so [%] is numpy's [int64]
    remainder.  numpy computes it with C's truncating [%] and corrects
    the sign the way Python does; a zero divisor gives 0 (with a
    warning), and [INT64_MIN % -1], undefined in C, gives 0.  The file
    proves that this is the [Z.modulo] the model's [cycle_divisible]
    uses, and that the remainder never leaves the [int64] range. *)

From Stdlib Require Import ZArith Bool Lia.
From S2P Require Import Prelude Orchestrator.
Import Orchestrator.
Local Open Scope Z_scope.

Module NumpyInt.

Definition int64_min : Z := - 2 ^ 63.
Definition int64_max : Z := 2 ^ 63 - 1.

(** A value of numpy's [int64]. *)
Definition in_int64 (z : Z) : bool := (int64_min <=? z) && (z <=? int64_max).

(** numpy's [remainder] on [int64]: [rem = in1 % in2] (C, truncating),
    kept when [(in1 > 0) == (in2 > 0)] or [rem == 0], otherwise
    [rem + in2]. *)
Definition np_remainder (a b : Z) : Z :=
  if b =? 0 then 0
  else if (a =? int64_min) && (b =? -1) then 0
  else
    let rem := Z.rem a b in
    if Bool.eqb (0 <? a) (0 <? b) || (rem =? 0) then rem else rem + b.

(** Numpy's [int64] remainder, as the code's [%] computes it, is
    [Z.modulo] for every nonzero divisor (Python's floored remainder, the
    sign of the divisor) and 0 for a zero divisor; so the model's
    boundary test [cycle_divisible] is exactly [cycle % freq == 0] in
    numpy, and the remainder of an [int64] divisor never leaves the
    [int64] range. *)
Theorem numpy_remainder_mod c k :
  in_int64 k = true ->
  np_remainder c k = (if k =? 0 then 0 else c mod k) /\
  cycle_divisible (Some k) c = (np_remainder c k =? 0) /\
  in_int64 (np_remainder c k) = true.
Proof.
  intro Hk. unfold in_int64, int64_min, int64_max in *.
  apply andb_true_iff in Hk as [Hk1 Hk2]. apply Z.leb_le in Hk1, Hk2.
  assert (E : np_remainder c k = (if k =? 0 then 0 else c mod k)).
  { unfold np_remainder. destruct (Z.eqb_spec k 0) as [->|Hk0]; [reflexivity|].
    destruct ((c =? int64_min) && (k =? -1)) eqn:Hmin.
    { apply andb_true_iff in Hmin as [H1 H2]. apply Z.eqb_eq in H1, H2. subst.
      reflexivity. }
    pose proof (Z.quot_rem' c k) as Hq. pose proof (Z.rem_bound_abs c k Hk0) as Hb.
    assert (Hs1 : 0 <= c -> 0 <= Z.rem c k) by (intro; apply Z.rem_nonneg; assumption).
    assert (Hs2 : c <= 0 -> Z.rem c k <= 0) by (intro; apply Z.rem_nonpos; assumption).
    destruct (Z.ltb_spec 0 c), (Z.ltb_spec 0 k), (Z.eqb_spec (Z.rem c k) 0); simpl;
      first [ apply (Z.mod_unique c k (Z.quot c k)); [lia | lia]
            | apply (Z.mod_unique c k (Z.quot c k - 1)); [lia | nia] ].
  }
  split; [exact E|]. rewrite E. split.
  - unfold cycle_divisible. destruct (k =? 0); reflexivity.
  - destruct (Z.eqb_spec k 0); [reflexivity|].
    destruct (Z.ltb_spec 0 k).
    + pose proof (Z.mod_pos_bound c k ltac:(lia)). apply andb_true_iff; split; apply Z.leb_le; lia.
    + pose proof (Z.mod_neg_bound c k ltac:(lia)). apply andb_true_iff; split; apply Z.leb_le; lia.
Qed.

(** ** Witnesses *)

Lemma numpy_remainder_mod_witness :
  in_int64 (-3) = true /\
  np_remainder 7 (-3) = 7 mod (-3) /\
  cycle_divisible (Some (-3)) 7 = (np_remainder 7 (-3) =? 0) /\
  in_int64 (np_remainder 7 (-3)) = true.
Proof.
  split; [vm_compute; reflexivity|].
  apply (numpy_remainder_mod 7 (-3)). vm_compute. reflexivity.
Defined.

End NumpyInt.
