(* ===== verification/LoopSteps.v ===== *)
(** * The loop of [loop_through_sims] as a transition system

    Lines 113-115 of [src/oscillator_classification/multi_sim_analysis.py]:
    [for name, sim in sim_groupings: data = ...; self.append_data(...)].
    A configuration holds the groups the loop has still to visit, the
    lines of the output file and the exception raised, if any; one
    transition is one iteration of the loop body.  The file proves that
    the transition system is deterministic, that every execution stops
    within as many steps as there are groups, in the final configuration
    computed by [Orchestrator.loop_groups] (the big-step loop), and that
    when every series is long enough each group's summary line is
    eventually written. *)

From Stdlib Require Import String ZArith QArith List Bool Lia.
From S2P Require Import Prelude Summary Orchestrator.
Import ListNotations.
Import Summary Orchestrator.
Local Open Scope nat_scope.

Module LoopSteps.

(** The state of the loop: the groups not yet visited, the output file,
    and the exception that ended the loop. *)
Record conf : Type := Conf {
  pending : list (key * list cycle_row);
  written : list csv_line;
  raised : option err
}.

Section StepDefs.

Variable analyse : list cycle_row -> result summary_row.

(** One iteration of the loop body: analyse the next group and append its
    row, or raise; nothing steps once the groups are exhausted or an
    exception has been raised. *)
Inductive red : conf -> conf -> Prop :=
| red_append k sim gs f data :
    analyse sim = Ok data ->
    red (Conf ((k, sim) :: gs) f None) (Conf gs (append_data f (DataLine data)) None)
| red_raise k sim gs f e :
    analyse sim = Err e ->
    red (Conf ((k, sim) :: gs) f None) (Conf gs f (Some e)).

(** The same iteration as a function. *)
Definition loop_step (c : conf) : option conf :=
  match c with
  | Conf ((_, sim) :: gs) f None =>
      match analyse sim with
      | Ok data => Some (Conf gs (append_data f (DataLine data)) None)
      | Err e => Some (Conf gs f (Some e))
      end
  | _ => None
  end.

End StepDefs.

(** ** The step relation *)

Section Steps.

Variable analyse : list cycle_row -> result summary_row.

Local Abbreviation red := (red analyse).

Lemma red_loop_step c c' : red c c' <-> loop_step analyse c = Some c'.
Proof.
  split.
  - intros [k sim gs f data H | k sim gs f e H]; simpl; rewrite H; reflexivity.
  - destruct c as [[|[k sim] gs] f [e|]]; simpl; try discriminate.
    destruct (analyse sim) eqn:H; intro E; injection E as <-; constructor; assumption.
Qed.

Lemma red_determ c c1 c2 : red c c1 -> red c c2 -> c1 = c2.
Proof. intros H1 H2. inversion H1; inversion H2; subst; congruence. Qed.

Lemma irred_iff c : irred red c <-> pending c = [] \/ raised c <> None.
Proof.
  split.
  - intro H. destruct c as [[|[k sim] gs] f [e|]]; simpl;
      [left; reflexivity | left; reflexivity | right; discriminate|].
    exfalso. destruct (analyse sim) eqn:Ha; eapply H; econstructor; eassumption.
  - intros Hc c' Hr. inversion Hr; subst; simpl in Hc; destruct Hc; congruence.
Qed.

(** Every sequence of steps from [Conf groups f None] is at most as long
    as [groups]. *)
Lemma starN_length n groups f c : starN red n (Conf groups f None) c -> n <= length groups.
Proof.
  revert groups f. induction n as [|n IH]; intros groups f H; [lia|].
  inversion H as [|? ? b ? Hs Hn]; subst.
  inversion Hs as [k sim gs f' data Ha | k sim gs f' e Ha]; subst; simpl;
    first [apply le_n_S, (IH _ _ Hn) | inversion Hn as [|? ? ? ? Hs']; subst; [lia | inversion Hs']].
Qed.

(** A configuration without pending groups is final. *)
Lemma irred_done f e : irred red (Conf [] f e).
Proof. apply irred_iff. left. reflexivity. Qed.

(** A configuration that has raised is final. *)
Lemma irred_raised gs f e : irred red (Conf gs f (Some e)).
Proof. apply irred_iff. right. discriminate. Qed.

(** From a configuration that has not raised, every execution stops. *)
Lemma eventually_irred groups f :
  eventually red (irred red) (Conf groups f None).
Proof.
  revert f. induction groups as [|[k sim] gs IH]; intro f.
  - apply ev_now, irred_done.
  - apply ev_step.
    + destruct (analyse sim) eqn:Ha; eexists; econstructor; eassumption.
    + intros b Hb. inversion Hb; subst; first [apply IH | apply ev_now, irred_raised].
Qed.

(** Lines once written stay written. *)
Lemma red_written c c' l : red c c' -> In l (written c) -> In l (written c').
Proof.
  intros [k sim gs f data _ | k sim gs f e _]; simpl; unfold append_data;
    rewrite ?in_app_iff; auto.
Qed.

Lemma star_written c c' l : star red c c' -> In l (written c) -> In l (written c').
Proof. induction 1; eauto using red_written. Qed.

End Steps.

(** ** The loop of the program *)

(** The loop of [loop_through_sims] as a transition system
    terminates: from the start of the loop every execution reaches a
    configuration where no iteration applies, no execution is longer than
    the number of groups, the final configuration is unique, and its
    file and exception are those of the big-step loop [loop_groups]. *)
Theorem loop_steps_terminate analyse groups f :
  eventually (red analyse) (irred (red analyse)) (Conf groups f None) /\
  (forall n c, starN (red analyse) n (Conf groups f None) c -> n <= length groups) /\
  (forall c c', star (red analyse) (Conf groups f None) c -> irred (red analyse) c ->
     star (red analyse) (Conf groups f None) c' -> irred (red analyse) c' -> c = c') /\
  (forall c, star (red analyse) (Conf groups f None) c -> irred (red analyse) c ->
     (written c, raised c) = loop_groups analyse groups f).
Proof.
  split; [apply eventually_irred|]. split; [|split].
  - intros n c. apply starN_length.
  - intros c c' H Hi H' Hi'. eapply finseq_unique; [apply red_determ | eassumption ..].
  - intros c H Hi. revert f H. induction groups as [|[k sim] gs IH]; intros f H.
    + inversion H as [|? b ? Hs]; subst; [reflexivity | inversion Hs].
    + inversion H as [? | ? b ? Hs Hb]; subst.
      * exfalso. destruct (analyse sim) eqn:Ha; eapply Hi; econstructor; eassumption.
      * inversion Hs as [? ? ? ? data Ha | ? ? ? ? e Ha]; subst; simpl; rewrite Ha; [apply IH, Hb|].
        inversion Hb as [|? ? ? Hs']; subst; [reflexivity | inversion Hs'].
Qed.

(** C29: liveness of [loop_through_sims]: when every group of the
    boundary rows has at least 3 rows, every group's summary is computed
    and every execution of the loop eventually writes its line to the
    file, where it stays in every later configuration. *)
Theorem loop_through_sims_live a by_gen_data f :
  Forall (fun g => 3 <= length (snd g)) (groupby by_gen_data) ->
  forall k sim, In (k, sim) (groupby by_gen_data) ->
  exists r, run_classifacation_algorithm a sim = Ok r /\
    eventually (red (run_classifacation_algorithm a)) (fun c => In (DataLine r) (written c))
      (Conf (groupby by_gen_data) f None) /\
    (forall c c', star (red (run_classifacation_algorithm a)) c c' ->
       In (DataLine r) (written c) -> In (DataLine r) (written c')).
Proof.
  intros Hall k sim Hin.
  assert (Hok : forall g, In g (groupby by_gen_data) ->
            exists d, run_classifacation_algorithm a (snd g) = Ok d).
  { intros g Hg. destruct (run_classifacation_algorithm a (snd g)) as [d|e] eqn:E; [eauto|].
    apply run_classification_err_iff in E as [E _].
    apply (proj1 (Forall_forall _ _) Hall) in Hg. lia. }
  destruct (Hok _ Hin) as [r Hr]. exists r. split; [exact Hr|].
  split; [|intros c c'; apply star_written].
  apply in_split in Hin as (pre & post & E). rewrite E.
  assert (Hpre : Forall (fun g => exists d, run_classifacation_algorithm a (snd g) = Ok d) pre).
  { apply Forall_forall. intros g Hg. apply Hok. rewrite E. apply in_or_app. left. exact Hg. }
  simpl in Hr. clear - Hpre Hr. revert f. induction Hpre as [|[k' sim'] pre [d Hd] _ IH]; intro f; simpl.
  - apply ev_step; [eexists; econstructor; eassumption|].
    intros b Hb. inversion Hb; subst; [|congruence].
    apply ev_now. simpl. unfold append_data. apply in_or_app. right. left. congruence.
  - simpl in Hd. apply ev_step; [eexists; econstructor; eassumption|].
    intros b Hb. inversion Hb; subst; [apply IH | congruence].
Qed.

(** ** Witnesses *)

Lemma loop_through_sims_live_witness :
  Forall (fun g => 3 <= length (snd g)) (groupby demo_rows) /\
  exists r, run_classifacation_algorithm (default_analysis "exp") demo_rows = Ok r /\
    eventually (red (run_classifacation_algorithm (default_analysis "exp")))
      (fun c => In (DataLine r) (written c)) (Conf (groupby demo_rows) [HeaderLine] None) /\
    (forall c c', star (red (run_classifacation_algorithm (default_analysis "exp"))) c c' ->
       In (DataLine r) (written c) -> In (DataLine r) (written c')).
Proof.
  assert (H : Forall (fun g => 3 <= length (snd g)) (groupby demo_rows))
    by (vm_compute; repeat constructor).
  split; [exact H|].
  apply (loop_through_sims_live (default_analysis "exp") demo_rows [HeaderLine] H (1%Z, "krat"%string)).
  vm_compute. left. reflexivity.
Defined.

End LoopSteps.
