(* ===== verification/Loading.v ===== *)
(** * Loading the input tables

    Lines 12-13 of [src/oscillator_classification/multi_sim_analysis.py]
    read the per-cycle and parameter tables with [pd.read_csv]; the code
    then reads their columns by name ([row['org']], [row['cycle']] in
    [by_gen_filter], [parameters[...]] in [per_gen_data_format],
    [groupby(['sim_id','org'])], [sim['generation']], ... in
    [run_classifacation_algorithm]), and a missing column raises
    [KeyError] at the first access.  An input path holds nothing, a
    directory, or a CSV table: its header (the column names) and its rows
    (the values of the columns the code reads; the tokenizer that turns
    the text into records is [Csv.parse_csv], and the conversion of the
    records into typed columns is [LoadText.load_text]).  The run [run_loaded] is the
    constructor followed by [loop_through_sims] with every column access
    of the code, in the code's order. *)

From Stdlib Require Import String ZArith QArith List Bool Lia.
From S2P Require Import Prelude Summary Orchestrator.
Import ListNotations.
Import Summary Orchestrator.
Open Scope string_scope.

Module Loading.

(** What an input path holds. *)
Inductive input_entry (A : Type) : Type :=
| InMissing
| InDirectory
| InCsv (columns : list string) (rows : list A).

Arguments InMissing {A}.
Arguments InDirectory {A}.
Arguments InCsv {A} columns rows.

(** [pd.read_csv(path, header=0, index_col=None)]. *)
Definition read_csv {A} (p : input_entry A) : result (list string * list A) :=
  match p with
  | InMissing => Err FileNotFoundError
  | InDirectory => Err IsADirectoryError
  | InCsv cols rows => Ok (cols, rows)
  end.

(** [df[c]] or [row[c]]: [KeyError] when [c] is not a column. *)
Definition column (cols : list string) (c : string) : result unit :=
  if string_in c cols then Ok tt else Err KeyError.

(** The rows whose [cycle] the loop of [by_gen_filter] reads: the
    [and] of lines 45 and 47 evaluates [row['cycle']] only for a [krat]
    or a [snake]. *)
Definition reads_cycle (r : cycle_row) : bool :=
  String.eqb (org r) "krat" || String.eqb (org r) "snake".

(** The column accesses of the loop of [by_gen_filter] (lines 44-50),
    row by row. *)
Fixpoint by_gen_filter_access (cols : list string) (rows : list cycle_row) : result unit :=
  match rows with
  | [] => Ok tt
  | r :: rs =>
      let* _ := column cols "org" in
      let* _ := (if String.eqb (org r) "krat" then column cols "cycle"
                 else let* _ := column cols "org" in
                      if String.eqb (org r) "snake" then column cols "cycle" else Ok tt) in
      by_gen_filter_access cols rs
  end.

(** [per_gen_data_format] (lines 54-60) with its column accesses: the
    two parameter columns, then the loop over the per-cycle rows. *)
Definition per_gen_data_format_access (pcols cols : list string) (per_cycle : list cycle_row)
    (parameters : list param_row) : result (option Z * option Z * list cycle_row) :=
  let* _ := column pcols "krat_reproduction_freq_per_x_cycles" in
  let* _ := column pcols "snake_reproduction_freq_per_x_cycles" in
  let* _ := by_gen_filter_access cols per_cycle in
  Ok (per_gen_data_format per_cycle parameters).

(** [run_classifacation_algorithm] with its column accesses: [generation]
    and [bush_pw_mean] (lines 72-73) before the analysis, [sim_id], [org]
    and [experiment] (lines 105-107) after it. *)
Definition analyse_access (cols : list string) (a : analysis) (sim : list cycle_row)
  : result summary_row :=
  let* _ := column cols "generation" in
  let* _ := column cols "bush_pw_mean" in
  let* r := run_classifacation_algorithm a sim in
  let* _ := column cols "sim_id" in
  let* _ := column cols "org" in
  let* _ := column cols "experiment" in
  Ok r.

(** [loop_through_sims]: [groupby(['sim_id','org'])] reads both key
    columns before the first group. *)
Definition loop_through_sims_access (cols : list string) (a : analysis)
    (by_gen_data : list cycle_row) (f : list csv_line) : list csv_line * option err :=
  match (let* _ := column cols "sim_id" in column cols "org") with
  | Ok _ => loop_groups (analyse_access cols a) (groupby by_gen_data) f
  | Err e => (f, Some e)
  end.

(** The constructor (lines 12-29: the two reads, [per_gen_data_format],
    the output file) followed by [loop_through_sims]. *)
Definition run_loaded (pc_in : input_entry cycle_row) (par_in : input_entry param_row)
    (p : fs_entry) (a : analysis) : result (list csv_line * option err) :=
  let* pc := read_csv pc_in in
  let* par := read_csv par_in in
  let* fmt := per_gen_data_format_access (fst par) (fst pc) (snd pc) (snd par) in
  let* f := init_output p in
  Ok (loop_through_sims_access (fst pc) a (snd fmt) f).

(** The columns the code reads. *)
Definition per_cycle_columns : list string :=
  ["cycle"; "sim_id"; "org"; "experiment"; "generation"; "bush_pw_mean"].

Definition parameter_columns : list string :=
  ["krat_reproduction_freq_per_x_cycles"; "snake_reproduction_freq_per_x_cycles"].

(** Rows of one simulation of an organism that is neither a [krat] nor a
    [snake]. *)
Definition hare_rows : list cycle_row :=
  [CycleRow 0 1 "hare" 1 0 0; CycleRow 1 1 "hare" 1 1 1; CycleRow 2 1 "hare" 1 2 0].

(** ** Column accesses *)

Lemma column_ok cols c : In c cols -> column cols c = Ok tt.
Proof. intro H. unfold column. apply string_in_iff in H. rewrite H. reflexivity. Qed.

Lemma column_err cols c : ~ In c cols -> column cols c = Err KeyError.
Proof.
  intro H. unfold column. destruct (string_in c cols) eqn:E; [|reflexivity].
  apply string_in_iff in E. contradiction.
Qed.

(** The loop of [by_gen_filter] raises exactly when a row exists and
    [org] is missing, or a [krat] or [snake] row exists and [cycle] is
    missing. *)
Lemma by_gen_filter_access_eq cols rows :
  by_gen_filter_access cols rows =
  if (Nat.ltb 0 (length rows) && negb (string_in "org" cols)) ||
     (existsb reads_cycle rows && negb (string_in "cycle" cols))
  then Err KeyError else Ok tt.
Proof.
  destruct (string_in "org" cols) eqn:Ho, (string_in "cycle" cols) eqn:Hc;
    induction rows as [|r rs IH]; simpl; auto; unfold column, reads_cycle; rewrite Ho, ?Hc;
    destruct (String.eqb (org r) "krat"), (String.eqb (org r) "snake");
    simpl in *; rewrite ?andb_false_r, ?andb_true_r in *; auto.
Qed.

(** With every column present, the accesses of an analysis all succeed. *)
Lemma analyse_access_all cols a sim :
  incl per_cycle_columns cols -> analyse_access cols a sim = run_classifacation_algorithm a sim.
Proof.
  intro H. unfold analyse_access.
  rewrite !column_ok by (apply H; simpl; tauto).
  destruct (run_classifacation_algorithm a sim); reflexivity.
Qed.

Lemma loop_groups_ext (g1 g2 : list cycle_row -> result summary_row) gs f :
  (forall sim, g1 sim = g2 sim) -> loop_groups g1 gs f = loop_groups g2 gs f.
Proof.
  intro H. revert f. induction gs as [|[k sim] gs IH]; intro f; simpl; [reflexivity|].
  rewrite H. destruct (g2 sim); [apply IH | reflexivity].
Qed.

Lemma loop_access_all cols a d f :
  incl per_cycle_columns cols -> loop_through_sims_access cols a d f = loop_through_sims a d f.
Proof.
  intro H. unfold loop_through_sims_access, loop_through_sims.
  rewrite !column_ok by (apply H; simpl; tauto).
  apply loop_groups_ext. intro. apply analyse_access_all, H.
Qed.

(** Without a [krat] or [snake] row no row is a generation boundary. *)
Lemma no_reads_no_boundary pc ps :
  existsb reads_cycle pc = false -> snd (per_gen_data_format pc ps) = [].
Proof.
  unfold per_gen_data_format. rewrite by_gen_filter_map, map_map, select_filter. simpl.
  induction pc as [|r rs IH]; [reflexivity|]. simpl. unfold reads_cycle.
  intro H. apply orb_false_iff in H as [H1 H]. apply orb_false_iff in H1 as [Hk Hs].
  unfold is_boundary, frequency_of at 1. rewrite Hk, Hs. apply IH, H.
Qed.

(** With every column present, the run on the loaded tables is the run
    of the model on their rows. *)
Lemma run_loaded_all_columns cols pcols pc ps p a :
  incl per_cycle_columns cols -> incl parameter_columns pcols ->
  run_loaded (InCsv cols pc) (InCsv pcols ps) p a = run_analysis p a pc ps.
Proof.
  intros Hc Hp. unfold run_loaded, per_gen_data_format_access, run_analysis.
  cbn -[per_gen_data_format column by_gen_filter_access].
  rewrite !(column_ok pcols) by (apply Hp; simpl; tauto).
  rewrite by_gen_filter_access_eq, !(proj2 (string_in_iff _ _)) by (apply Hc; simpl; tauto).
  rewrite !andb_false_r. simpl.
  destruct (per_gen_data_format pc ps) as [[kf sf] d]. destruct (init_output p); [|reflexivity].
  simpl. rewrite loop_access_all by exact Hc. reflexivity.
Qed.

(** C30: loading the inputs.  When both tables have the columns the code
    reads, the run on the loaded tables is the run of the model on their
    rows ([Orchestrator.run_analysis]); a missing input raises
    [FileNotFoundError] (a directory [IsADirectoryError]) before anything
    is written; a missing parameter column raises [KeyError] in the
    constructor, before the output file is created; and without the
    [cycle] column the run raises [KeyError] exactly when some row is a
    [krat] or a [snake], and otherwise runs as if the column were there
    (the filter reads [cycle] only for those rows). *)
Theorem run_loaded_spec cols pcols pc ps p a :
  incl per_cycle_columns cols -> incl parameter_columns pcols ->
  run_loaded (InCsv cols pc) (InCsv pcols ps) p a = run_analysis p a pc ps /\
  run_loaded InMissing (InCsv pcols ps) p a = Err FileNotFoundError /\
  run_loaded (InCsv cols pc) InMissing p a = Err FileNotFoundError /\
  run_loaded InDirectory (InCsv pcols ps) p a = Err IsADirectoryError /\
  (forall c, In c parameter_columns ->
     run_loaded (InCsv cols pc) (InCsv (remove string_dec c pcols) ps) p a = Err KeyError) /\
  run_loaded (InCsv (remove string_dec "cycle" cols) pc) (InCsv pcols ps) p a =
    (if existsb reads_cycle pc then Err KeyError else run_analysis p a pc ps).
Proof.
  intros Hc Hp. split; [apply run_loaded_all_columns; assumption|].
  unfold run_loaded, per_gen_data_format_access, run_analysis.
  cbn -[per_gen_data_format column by_gen_filter_access].
  rewrite !(column_ok pcols) by (apply Hp; simpl; tauto).
  split; [reflexivity|split; [reflexivity|split; [reflexivity|split]]].
  - intros c Hin. pose proof (remove_In string_dec pcols c) as Hr.
    destruct Hin as [<- | [<- | []]]; simpl; [rewrite column_err by exact Hr; reflexivity|].
    rewrite (column_ok _ "krat_reproduction_freq_per_x_cycles"), column_err by
      (first [exact Hr | apply in_in_remove; [discriminate | apply Hp; simpl; tauto]]).
    reflexivity.
  - assert (Hin : forall x, In x per_cycle_columns -> x <> "cycle" -> In x (remove string_dec "cycle" cols)).
    { intros x Hx Hne. apply in_in_remove; [exact Hne | apply Hc, Hx]. }
    rewrite by_gen_filter_access_eq, (proj2 (string_in_iff "org" _)) by (apply Hin; simpl; tauto || discriminate).
    destruct (string_in "cycle" (remove string_dec "cycle" cols)) eqn:Hcy.
    { apply string_in_iff, remove_In in Hcy. contradiction. }
    rewrite andb_false_r, orb_false_l, andb_true_r.
    destruct (existsb reads_cycle pc) eqn:Hr; [reflexivity|].
    pose proof (no_reads_no_boundary pc ps Hr) as Hd.
    destruct (per_gen_data_format pc ps) as [[kf sf] d]. simpl in Hd. subst d.
    destruct (init_output p); [|reflexivity]. simpl.
    unfold loop_through_sims_access. rewrite !column_ok by (apply Hin; simpl; tauto || discriminate).
    reflexivity.
Qed.

(** ** Witnesses *)

Lemma run_loaded_spec_witness :
  incl per_cycle_columns per_cycle_columns /\ incl parameter_columns parameter_columns /\
  run_loaded (InCsv (remove string_dec "cycle" per_cycle_columns) hare_rows)
    (InCsv parameter_columns [ParamRow 2 5]) NoEntry (default_analysis "exp") =
    run_analysis NoEntry (default_analysis "exp") hare_rows [ParamRow 2 5].
Proof.
  split; [apply incl_refl|]. split; [apply incl_refl|].
  destruct (run_loaded_spec per_cycle_columns parameter_columns hare_rows [ParamRow 2 5] NoEntry
              (default_analysis "exp") (incl_refl _) (incl_refl _)) as (_ & _ & _ & _ & _ & H).
  rewrite H. reflexivity.
Defined.

End Loading.
