(* ===== verification/Csv.v ===== *)
(** * The CSV text of the output file

    [append_data] (lines 37-41 of
    [src/oscillator_classification/multi_sim_analysis.py]) writes each
    row with [csv.writer(f).writerow(d_row)]: the default dialect
    (delimiter [,], quote character [dquote], doubled quotes, line terminator
    CR LF, [QUOTE_MINIMAL]) quotes a field exactly when it holds the
    delimiter, the quote character, CR or LF, and a row made of one empty
    field is written as two quotes.  Integers are written by [str()]; the
    text of floats ([repr()]) is a parameter of the file, since [Q] does
    not model floating point.  The reader is the tokenizer of
    [pd.read_csv] (the loader of lines 12-13) for the same dialect, as a
    state machine over characters: quoted fields, doubled quotes, CR, LF
    or CR LF ending a record, blank lines skipped, and [ParserError] at
    the end of the text inside a quoted field.  The file proves that
    reading what the writer wrote gives back the rows, field for field,
    whatever the fields hold. *)

From Stdlib Require Import String Ascii List Bool ZArith QArith Lia DecimalString DecimalZ.
From S2P Require Import Prelude Summary Orchestrator.
Import ListNotations.
Import Summary Orchestrator.
Open Scope string_scope.

Module Csv.

(** ** Writing *)

Definition comma : ascii := ","%char.
Definition dquote : ascii := "034"%char.
Definition cr : ascii := "013"%char.
Definition lf : ascii := "010"%char.

Definition crlf : string := String cr (String lf EmptyString).

(** The characters that make [QUOTE_MINIMAL] quote a field. *)
Definition special (c : ascii) : bool :=
  Ascii.eqb c comma || Ascii.eqb c dquote || Ascii.eqb c cr || Ascii.eqb c lf.

Definition needs_quotes (s : string) : bool := existsb special (list_ascii_of_string s).

(** [doublequote=True]: a quote inside a quoted field is written twice. *)
Fixpoint double_quotes (s : string) : string :=
  match s with
  | EmptyString => EmptyString
  | String c s' =>
      if Ascii.eqb c dquote then String dquote (String dquote (double_quotes s'))
      else String c (double_quotes s')
  end.

Definition quote_field (s : string) : string :=
  if needs_quotes s then String dquote (double_quotes s ++ String dquote EmptyString) else s.

(** The fields joined by the delimiter. *)
Fixpoint join_fields (fs : list string) : string :=
  match fs with
  | [] => EmptyString
  | [f] => quote_field f
  | f :: fs' => quote_field f ++ String comma (join_fields fs')
  end.

(** [writer.writerow(fields)]. *)
Definition writerow (fields : list string) : string :=
  match fields with
  | [EmptyString] => String dquote (String dquote crlf)
  | _ => join_fields fields ++ crlf
  end.

(** Successive [writerow] calls on one file. *)
Fixpoint write_rows (rows : list (list string)) : string :=
  match rows with
  | [] => EmptyString
  | r :: rs => writerow r ++ write_rows rs
  end.

(** [str()] of an integer field: its decimal digits, with [-] when
    negative. *)
Definition str_Z (z : Z) : string := NilZero.string_of_int (Z.to_int z).

(** The header of [__init__] (lines 19-25). *)
Definition header_fields : list string :=
  ["exp_name"; "sim_id"; "exp"; "org"; "count_str_flip";
   "mean_strategy_flip_time"; "std_strategy_flip_time"; "var_strategy_flip_time";
   "mean_magnitude_of_strategy_flip"; "std_magnitude_of_strategy_flip";
   "var_magnitude_of_strategy_flip"; "nash_val"].

Section Fields.

(** The text [writerow] gives a float field (its [repr()]), and a
    standard deviation. *)
Variable render_float : option Q -> string.
Variable render_std : option sqrtQ -> string.

(** The row returned by [run_classifacation_algorithm] (line 108) as the
    strings [writerow] writes. *)
Definition summary_fields (r : summary_row) : list string :=
  [s_exp_name r; str_Z (s_sim_id r); str_Z (s_exp r); s_org r;
   str_Z (Z.of_nat (count_str_flip r));
   render_float (mean_strategy_flip_time r); render_std (std_strategy_flip_time r);
   render_float (var_strategy_flip_time r);
   render_float (mean_magnitude_of_strategy_flip r);
   render_std (std_magnitude_of_strategy_flip r);
   render_float (var_magnitude_of_strategy_flip r);
   str_Z (Z.of_nat (nash_val r))].

Definition line_fields (l : csv_line) : list string :=
  match l with
  | HeaderLine => header_fields
  | DataLine r => summary_fields r
  end.

(** The text of an output file. *)
Definition file_text (f : list csv_line) : string := write_rows (map line_fields f).

End Fields.

(** ** Reading *)

(** The states of the tokenizer. *)
Inductive tstate : Type :=
| StartRecord
| StartField
| InField
| InQuotedField
| QuoteInQuotedField
| EatCRNL.

(** The tokenizer: its state, the characters of the current field
    (last first), the fields of the current record (last first), and the
    records read (last first). *)
Record tokenizer : Type := Tokenizer {
  state : tstate;
  field : list ascii;
  record : list string;
  records : list (list string)
}.

Definition end_field (t : tokenizer) : tokenizer :=
  Tokenizer StartField [] (string_of_list_ascii (rev (field t)) :: record t) (records t).

Definition end_record (next : tstate) (t : tokenizer) : tokenizer :=
  let t' := end_field t in Tokenizer next [] [] (rev (record t') :: records t').

Definition add_char (next : tstate) (c : ascii) (t : tokenizer) : tokenizer :=
  Tokenizer next (c :: field t) (record t) (records t).

(** The first character of a field. *)
Definition start_field (c : ascii) (t : tokenizer) : tokenizer :=
  if Ascii.eqb c dquote then Tokenizer InQuotedField (field t) (record t) (records t)
  else if Ascii.eqb c comma then end_field t
  else if Ascii.eqb c cr then end_record EatCRNL t
  else if Ascii.eqb c lf then end_record StartRecord t
  else add_char InField c t.

(** The first character of a line: a blank line is skipped. *)
Definition start_record (c : ascii) (t : tokenizer) : tokenizer :=
  if Ascii.eqb c cr then Tokenizer EatCRNL [] [] (records t)
  else if Ascii.eqb c lf then Tokenizer StartRecord [] [] (records t)
  else start_field c t.

(** One character. *)
Definition tok_char (t : tokenizer) (c : ascii) : tokenizer :=
  match state t with
  | StartRecord => start_record c t
  | StartField => start_field c t
  | InField =>
      if Ascii.eqb c comma then end_field t
      else if Ascii.eqb c cr then end_record EatCRNL t
      else if Ascii.eqb c lf then end_record StartRecord t
      else add_char InField c t
  | InQuotedField =>
      if Ascii.eqb c dquote then Tokenizer QuoteInQuotedField (field t) (record t) (records t)
      else add_char InQuotedField c t
  | QuoteInQuotedField =>
      if Ascii.eqb c dquote then add_char InQuotedField c t
      else if Ascii.eqb c comma then end_field t
      else if Ascii.eqb c cr then end_record EatCRNL t
      else if Ascii.eqb c lf then end_record StartRecord t
      else add_char InField c t
  | EatCRNL =>
      if Ascii.eqb c lf then Tokenizer StartRecord [] [] (records t) else start_record c t
  end.

Fixpoint tok_string (t : tokenizer) (s : string) : tokenizer :=
  match s with
  | EmptyString => t
  | String c s' => tok_string (tok_char t c) s'
  end.

(** The end of the text: the last record ends, unless the text ends
    inside a quoted field. *)
Definition tok_finish (t : tokenizer) : result (list (list string)) :=
  match state t with
  | StartRecord | EatCRNL => Ok (rev (records t))
  | StartField | InField | QuoteInQuotedField => Ok (rev (records (end_record StartRecord t)))
  | InQuotedField => Err ParserError
  end.

Definition parse_csv (s : string) : result (list (list string)) :=
  tok_finish (tok_string (Tokenizer StartRecord [] [] []) s).

(** Reading an integer field back. *)
Definition int_of_str (s : string) : option Z := option_map Z.of_int (NilZero.int_of_string s).

(** The integer columns of a summary record, as a reader of the output
    table gets them. *)
Definition read_keys (fields : list string) : option (string * Z * Z * string * Z * Z) :=
  match fields with
  | [n; sid; ex; o; cnt; _; _; _; _; _; _; nv] =>
      match int_of_str sid, int_of_str ex, int_of_str cnt, int_of_str nv with
      | Some sid', Some ex', Some cnt', Some nv' => Some (n, sid', ex', o, cnt', nv')
      | _, _, _, _ => None
      end
  | _ => None
  end.

(** ** Writing then reading *)

Lemma append_assoc (s1 s2 s3 : string) : (s1 ++ s2) ++ s3 = s1 ++ (s2 ++ s3).
Proof. induction s1 as [|c s1 IH]; simpl; [reflexivity | rewrite IH; reflexivity]. Qed.

Lemma tok_string_app t s1 s2 : tok_string t (s1 ++ s2) = tok_string (tok_string t s1) s2.
Proof. revert t. induction s1 as [|c s1 IH]; intro t; [reflexivity|]. apply IH. Qed.

Lemma needs_quotes_cons c s : needs_quotes (String c s) = special c || needs_quotes s.
Proof. reflexivity. Qed.

Lemma special_false c :
  special c = false ->
  Ascii.eqb c comma = false /\ Ascii.eqb c dquote = false /\
  Ascii.eqb c cr = false /\ Ascii.eqb c lf = false.
Proof. unfold special. rewrite !orb_false_iff. tauto. Qed.

(** Inside an unquoted field, a text without special characters is read
    as it is. *)
Lemma tok_plain s t :
  state t = InField -> needs_quotes s = false ->
  tok_string t s = Tokenizer InField (rev_append (list_ascii_of_string s) (field t)) (record t) (records t).
Proof.
  revert t. induction s as [|c s IH]; intros [st fl rc rcs] Hs Hq; simpl in Hs; subst st;
    [reflexivity|].
  rewrite needs_quotes_cons, orb_false_iff in Hq. destruct Hq as [Hc Hq].
  destruct (special_false c Hc) as (H1 & _ & H3 & H4). simpl.
  unfold tok_char. simpl. rewrite H1, H3, H4. apply IH; [reflexivity | exact Hq].
Qed.

(** Inside a quoted field, the doubled text is read as the text. *)
Lemma tok_quoted s t :
  state t = InQuotedField ->
  tok_string t (double_quotes s) =
  Tokenizer InQuotedField (rev_append (list_ascii_of_string s) (field t)) (record t) (records t).
Proof.
  revert t. induction s as [|c s IH]; intros [st fl rc rcs] Hs; simpl in Hs; subst st;
    [reflexivity|].
  simpl. destruct (Ascii.eqb_spec c dquote) as [->|Hc]; simpl; unfold tok_char; simpl.
  - apply IH. reflexivity.
  - destruct (Ascii.eqb_spec c dquote); [contradiction|]. apply IH. reflexivity.
Qed.

(** A written field leaves the tokenizer in a state where the next
    delimiter or line end closes it, with the field's characters read. *)
Lemma tok_quote_field f rc rcs :
  exists st, (st = StartField \/ st = InField \/ st = QuoteInQuotedField) /\
    tok_string (Tokenizer StartField [] rc rcs) (quote_field f) =
    Tokenizer st (rev (list_ascii_of_string f)) rc rcs.
Proof.
  unfold quote_field. destruct (needs_quotes f) eqn:Hq.
  - exists QuoteInQuotedField. split; [auto|]. simpl. unfold tok_char, start_field at 1. simpl.
    rewrite tok_string_app, tok_quoted by reflexivity. simpl. unfold tok_char. simpl.
    rewrite <- rev_alt. reflexivity.
  - destruct f as [|c f].
    + exists StartField. auto.
    + exists InField. split; [auto|].
      rewrite needs_quotes_cons, orb_false_iff in Hq. destruct Hq as [Hc Hq].
      destruct (special_false c Hc) as (H1 & H2 & H3 & H4). simpl.
      unfold tok_char, start_field. simpl. rewrite H1, H2, H3, H4.
      rewrite tok_plain by (reflexivity || assumption). simpl. rewrite rev_append_rev. reflexivity.
Qed.

(** The delimiter and the line end close a field in each of those
    states. *)
Lemma tok_close_comma st fl rc rcs :
  st = StartField \/ st = InField \/ st = QuoteInQuotedField ->
  tok_char (Tokenizer st fl rc rcs) comma = end_field (Tokenizer st fl rc rcs).
Proof. intros [-> | [-> | ->]]; reflexivity. Qed.

Lemma tok_close_crlf st fl rc rcs :
  st = StartField \/ st = InField \/ st = QuoteInQuotedField ->
  tok_string (Tokenizer st fl rc rcs) crlf =
  Tokenizer StartRecord [] [] (rev (string_of_list_ascii (rev fl) :: rc) :: rcs).
Proof. intros [-> | [-> | ->]]; reflexivity. Qed.

Lemma string_of_rev_rev s : string_of_list_ascii (rev (rev (list_ascii_of_string s))) = s.
Proof. rewrite rev_involutive. apply string_of_list_ascii_of_string. Qed.

(** The fields of a row, from the start of a field to the end of the
    line. *)
Lemma tok_join fs rc rcs :
  fs <> [] ->
  tok_string (Tokenizer StartField [] rc rcs) (join_fields fs ++ crlf) =
  Tokenizer StartRecord [] [] ((rev rc ++ fs)%list :: rcs).
Proof.
  revert rc. induction fs as [|f fs IH]; intros rc Hne; [contradiction|].
  destruct (tok_quote_field f rc rcs) as (st & Hst & E).
  destruct fs as [|f2 fs].
  - simpl join_fields. rewrite tok_string_app, E, tok_close_crlf by exact Hst.
    rewrite string_of_rev_rev. reflexivity.
  - change (join_fields (f :: f2 :: fs)) with (quote_field f ++ String comma (join_fields (f2 :: fs))).
    rewrite append_assoc, tok_string_app, E. simpl. rewrite tok_close_comma by exact Hst.
    unfold end_field. simpl. rewrite string_of_rev_rev, IH by discriminate. simpl.
    rewrite <- app_assoc. reflexivity.
Qed.

(** A written row that is not the lone empty field starts with a
    character that is neither CR nor LF. *)
Definition starts_line (s : string) : bool :=
  match s with
  | String c _ => negb (Ascii.eqb c cr || Ascii.eqb c lf)
  | EmptyString => false
  end.

Lemma quote_field_start f :
  f <> EmptyString -> starts_line (quote_field f ++ crlf) = true.
Proof.
  intro Hf. unfold quote_field. destruct (needs_quotes f) eqn:Hq; [reflexivity|].
  destruct f as [|c f]; [contradiction|].
  rewrite needs_quotes_cons, orb_false_iff in Hq. destruct Hq as [Hc _].
  destruct (special_false c Hc) as (_ & _ & H3 & H4). simpl. rewrite H3, H4. reflexivity.
Qed.

Lemma join_start fs :
  fs <> [] -> fs <> [EmptyString] -> starts_line (join_fields fs ++ crlf) = true.
Proof.
  intros H1 H2. destruct fs as [|f [|f2 fs]]; [contradiction| |].
  - apply quote_field_start. intros ->. contradiction.
  - change (join_fields (f :: f2 :: fs)) with (quote_field f ++ String comma (join_fields (f2 :: fs))).
    destruct f as [|c f]; [reflexivity|].
    rewrite append_assoc. pose proof (quote_field_start (String c f) ltac:(discriminate)) as H.
    destruct (quote_field (String c f)) as [|c' s']; [discriminate|]. exact H.
Qed.

Lemma tok_start_record s rcs :
  starts_line s = true ->
  tok_string (Tokenizer StartRecord [] [] rcs) s = tok_string (Tokenizer StartField [] [] rcs) s.
Proof.
  destruct s as [|c s]; [discriminate|]. simpl. intro H.
  apply negb_true_iff, orb_false_iff in H as [H1 H2].
  unfold tok_char, start_record. simpl. rewrite H1, H2. reflexivity.
Qed.

(** Reading one written row. *)
Lemma tok_writerow r rcs :
  r <> [] -> tok_string (Tokenizer StartRecord [] [] rcs) (writerow r) = Tokenizer StartRecord [] [] (r :: rcs).
Proof.
  intro Hne. destruct (list_eq_dec string_dec r [EmptyString]) as [->|Hr]; [reflexivity|].
  assert (E : writerow r = join_fields r ++ crlf).
  { destruct r as [|f [|f2 fs]]; [contradiction| |]; destruct f; (contradiction || reflexivity). }
  rewrite E, tok_start_record by (apply join_start; assumption).
  rewrite tok_join by assumption. reflexivity.
Qed.

Lemma tok_write_rows rows rcs :
  Forall (fun r => r <> []) rows ->
  tok_string (Tokenizer StartRecord [] [] rcs) (write_rows rows) =
  Tokenizer StartRecord [] [] (rev rows ++ rcs)%list.
Proof.
  intro H. revert rcs. induction H as [|r rows Hr _ IH]; intro rcs; [reflexivity|].
  simpl. rewrite tok_string_app, tok_writerow, IH by assumption.
  rewrite <- app_assoc. reflexivity.
Qed.

(** Integer fields read back as written. *)
Lemma int_of_str_Z z : int_of_str (str_Z z) = Some z.
Proof.
  unfold int_of_str, str_Z. rewrite <- (DecimalZ.of_to z) at 2.
  destruct (Z.to_int z) as [u|u]; destruct u; try reflexivity;
    rewrite NilZero.isi by discriminate; reflexivity.
Qed.

(** Reading what the writer wrote. *)
Lemma parse_write_rows rows :
  Forall (fun r => r <> []) rows -> parse_csv (write_rows rows) = Ok rows.
Proof.
  intro H. unfold parse_csv. rewrite tok_write_rows by exact H.
  unfold tok_finish. simpl. rewrite app_nil_r, rev_involutive. reflexivity.
Qed.

Lemma double_quotes_id s :
  existsb (Ascii.eqb dquote) (list_ascii_of_string s) = false -> double_quotes s = s.
Proof.
  induction s as [|c s IH]; [reflexivity|]. cbn [double_quotes list_ascii_of_string existsb].
  intro H. apply orb_false_iff in H as [Hc H]. rewrite Ascii.eqb_sym, Hc, IH by exact H.
  reflexivity.
Qed.

(** A text that ends inside a quoted field does not parse. *)
Lemma parse_unterminated rows s :
  Forall (fun r => r <> []) rows -> existsb (Ascii.eqb dquote) (list_ascii_of_string s) = false ->
  parse_csv (write_rows rows ++ String dquote s) = Err ParserError.
Proof.
  intros H Hs. unfold parse_csv. rewrite tok_string_app, tok_write_rows by exact H. simpl.
  unfold tok_char, start_record, start_field. simpl.
  rewrite <- (double_quotes_id s Hs), tok_quoted by reflexivity. reflexivity.
Qed.

Lemma line_fields_length render_float render_std l :
  length (line_fields render_float render_std l) = length header_fields.
Proof. destruct l; reflexivity. Qed.

(** Reading the text [csv.writer] wrote gives back the rows written,
    field for field, whatever the fields hold (delimiters, quotes, CR,
    LF, empty fields), for every sequence of rows that are not empty (an
    empty row is written as a blank line, which the reader skips); and a
    text that ends inside a quoted field raises [ParserError]. *)
Theorem csv_roundtrip rows :
  Forall (fun r => r <> []) rows ->
  parse_csv (write_rows rows) = Ok rows /\
  (forall s, existsb (Ascii.eqb dquote) (list_ascii_of_string s) = false ->
     parse_csv (write_rows rows ++ String dquote s) = Err ParserError).
Proof.
  intro H. split; [apply parse_write_rows, H|]. intros s Hs. apply parse_unterminated; assumption.
Qed.

(** C21: the output file reads back: the text of any output file the
    program writes (header and summary lines, in any order and number)
    parses into one record per line, the header's 12 names for the
    header and the 12 written fields of each summary, whatever the
    experiment name and the organism hold and whatever text the floats
    are written as; the integer columns of a summary ([sim_id], [exp],
    [count_str_flip], [nash_val]) read back as their values; and the
    file of a fresh run parses into the header followed by the summaries
    it wrote. *)
Theorem output_file_roundtrip render_float render_std :
  (forall f, parse_csv (file_text render_float render_std f) =
     Ok (map (line_fields render_float render_std) f)) /\
  (forall r, read_keys (summary_fields render_float render_std r) =
     Some (s_exp_name r, s_sim_id r, s_exp r, s_org r,
           Z.of_nat (count_str_flip r), Z.of_nat (nash_val r))) /\
  (forall a per_cycle parameters, exists body e,
     run_analysis NoEntry a per_cycle parameters = Ok (HeaderLine :: body, e) /\
     parse_csv (file_text render_float render_std (HeaderLine :: body)) =
       Ok (header_fields :: map (line_fields render_float render_std) body)).
Proof.
  assert (Hf : forall f, parse_csv (file_text render_float render_std f) =
                 Ok (map (line_fields render_float render_std) f)).
  { intro f. unfold file_text. apply parse_write_rows.
    apply Forall_forall. intros l Hl. apply in_map_iff in Hl as (x & <- & _).
    intro E. pose proof (line_fields_length render_float render_std x) as Hx.
    rewrite E in Hx. discriminate. }
  split; [exact Hf|]. split.
  - intro r. unfold read_keys, summary_fields. rewrite !int_of_str_Z. reflexivity.
  - intros a pc ps. destruct (fresh_then_rerun a pc ps []) as (body & e & E & _).
    exists body, e. split; [exact E | apply Hf].
Qed.

(** ** Witnesses *)

Lemma csv_roundtrip_witness :
  Forall (fun r => r <> []) [["a,b"; EmptyString]; [EmptyString]; ["1"; "2"]] /\
  parse_csv (write_rows [["a,b"; EmptyString]; [EmptyString]; ["1"; "2"]]) =
    Ok [["a,b"; EmptyString]; [EmptyString]; ["1"; "2"]] /\
  (forall s, existsb (Ascii.eqb dquote) (list_ascii_of_string s) = false ->
     parse_csv (write_rows [["a,b"; EmptyString]; [EmptyString]; ["1"; "2"]] ++ String dquote s) =
       Err ParserError).
Proof.
  assert (H : Forall (fun r => r <> []) [["a,b"; EmptyString]; [EmptyString]; ["1"; "2"]])
    by (repeat constructor; discriminate).
  split; [exact H|]. apply csv_roundtrip, H.
Defined.

End Csv.
