(* ===== verification/LoadText.v ===== *)
(** * Loading the inputs from their text

    [pd.read_csv(path, header=0, index_col=None)] at lines 12-13 of
    [src/oscillator_classification/multi_sim_analysis.py], from the text
    of the file to the rows the code reads.  The text is split into
    records by the tokenizer of [Csv.v]; the first record is the header;
    each field is read as pandas' C parser reads it ([classify]: one of
    the default NA strings, an [int64], a float with an optional
    fraction and exponent, an infinity, a boolean, or a string); each
    column gets the type pandas infers from its fields ([dtype_of]:
    [int64] when all are integers, [float64] when all are numbers or NA,
    [bool] when all are booleans, [object] otherwise); a record shorter
    than the header is padded with NA.

    The model's rows hold integers in [cycle], [sim_id], [experiment] and
    [generation], a string in [org] and a rational in [bush_pw_mean]:
    [decode_cycle] gives them for the tables whose columns have those
    types, and [None] (not modelled) for the others: a [float64] or
    [object] integer column, an NA or non-string organism, an infinite or
    NA value, a repeated or empty column name, a record longer than
    the header, or a number with spaces around it.  A column the header
    does not name is never read by the code before the [KeyError] of its first access ([Loading.v]), so its
    value in the rows is immaterial.  [run_text] is the run of the program
    on the texts of its two input files. *)

From Stdlib Require Import String Ascii List Bool ZArith QArith Lia DecimalString DecimalZ.
From S2P Require Import Prelude Summary Orchestrator NumpyInt Loading Csv.
Import ListNotations.
Import Summary Orchestrator NumpyInt Loading Csv.
Open Scope string_scope.

Module LoadText.

(** What an input path holds: nothing, a directory, or a file's text. *)
Inductive text_entry : Type :=
| TMissing
| TDirectory
| TFile (contents : string).

(** ** Fields *)

(** pandas' default NA strings. *)
Definition na_values : list string :=
  [""; "#N/A"; "#N/A N/A"; "#NA"; "-1.#IND"; "-1.#QNAN"; "-NaN"; "-nan"; "1.#IND";
   "1.#QNAN"; "<NA>"; "N/A"; "NA"; "NULL"; "NaN"; "None"; "n/a"; "nan"; "null"].

Definition is_digit (c : ascii) : bool :=
  let n := nat_of_ascii c in Nat.leb 48 n && Nat.leb n 57.

Definition digits_only (s : string) : bool := forallb is_digit (list_ascii_of_string s).

Definition is_exp_mark (c : ascii) : bool := Ascii.eqb c "e"%char || Ascii.eqb c "E"%char.

Definition is_dot (c : ascii) : bool := Ascii.eqb c "."%char.

(** The text before the first character satisfying [p], and the text
    after it if there is one. *)
Fixpoint split_at (p : ascii -> bool) (s : string) : string * option string :=
  match s with
  | EmptyString => (EmptyString, None)
  | String c s' =>
      if p c then (EmptyString, Some s')
      else let (a, b) := split_at p s' in (String c a, b)
  end.

(** An integer field: an optional sign and decimal digits. *)
Definition int_cell (s : string) : option Z :=
  match s with
  | String c r =>
      if Ascii.eqb c "+"%char then
        match r with
        | String d _ => if Ascii.eqb d "-"%char then None else int_of_str r
        | EmptyString => None
        end
      else int_of_str s
  | EmptyString => None
  end.

(** A float field: an optionally signed mantissa of digits with an
    optional fraction (at least one digit in all), and an optional
    exponent [e] or [E] with an optionally signed integer. *)
Definition float_cell (s : string) : option Q :=
  let (mant, ex) := split_at is_exp_mark s in
  let (ip, fp) := split_at is_dot mant in
  let frac := match fp with Some f => f | None => EmptyString end in
  if digits_only frac then
    match int_cell (ip ++ frac), (match ex with None => Some 0%Z | Some t => int_cell t end) with
    | Some d, Some x =>
        Some (inject_Z d * Qpower (inject_Z 10) (x - Z.of_nat (String.length frac)))
    | _, _ => None
    end
  else None.

Definition lower_ascii (c : ascii) : ascii :=
  let n := nat_of_ascii c in if Nat.leb 65 n && Nat.leb n 90 then ascii_of_nat (n + 32) else c.

Definition lower (s : string) : string := string_of_list_ascii (map lower_ascii (list_ascii_of_string s)).

(** [inf], [infinity], signed or not, in any case. *)
Definition inf_cell (s : string) : bool :=
  let body := match s with
              | String c r => if Ascii.eqb c "+"%char || Ascii.eqb c "-"%char then r else s
              | EmptyString => s
              end in
  string_in (lower body) ["inf"; "infinity"].

(** The default [true_values] and [false_values]. *)
Definition bool_cell (s : string) : option bool :=
  if string_in s ["True"; "TRUE"; "true"] then Some true
  else if string_in s ["False"; "FALSE"; "false"] then Some false
  else None.

(** A field as the parser reads it. *)
Inductive cell : Type :=
| CNa
| CInt (z : Z)
| CFloat (q : Q)
| CInf
| CBool (b : bool)
| CStr (s : string).

(** A field that is not an [int64]: a float, an infinity, a boolean or a
    string. *)
Definition non_int_cell (s : string) : cell :=
  match float_cell s with
  | Some q => CFloat q
  | None =>
      if inf_cell s then CInf
      else match bool_cell s with Some b => CBool b | None => CStr s end
  end.

Definition classify (s : string) : cell :=
  if string_in s na_values then CNa
  else match int_cell s with
       | Some z => if in_int64 z then CInt z else non_int_cell s
       | None => non_int_cell s
       end.

(** ** Column types *)

Inductive dtype : Type :=
| DInt
| DFloat
| DBool
| DObject.

Definition is_int_cell (c : cell) : bool := match c with CInt _ => true | _ => false end.

Definition is_num_cell (c : cell) : bool :=
  match c with CNa | CInt _ | CFloat _ | CInf => true | _ => false end.

Definition is_bool_cell (c : cell) : bool := match c with CBool _ => true | _ => false end.

Definition is_na_cell (c : cell) : bool := match c with CNa => true | _ => false end.

(** The type pandas infers for a column of fields; a column without
    rows is [object]. *)
Definition dtype_of (cs : list cell) : dtype :=
  match cs with
  | [] => DObject
  | _ =>
      if forallb is_int_cell cs then DInt
      else if forallb is_num_cell cs then DFloat
      else if forallb is_bool_cell cs then DBool
      else DObject
  end.

(** ** Tables *)

Fixpoint distinct (l : list string) : bool :=
  match l with
  | [] => true
  | x :: t => negb (string_in x t) && distinct t
  end.

Fixpoint index_of (x : string) (l : list string) : option nat :=
  match l with
  | [] => None
  | y :: t => if String.eqb x y then Some 0%nat else option_map S (index_of x t)
  end.

(** The header names columns once each and none is empty, and no record
    is longer than the header. *)
Definition table_ok (hdr : list string) (recs : list (list string)) : bool :=
  distinct hdr && forallb (fun n => negb (String.eqb n EmptyString)) hdr &&
  forallb (fun r => Nat.leb (length r) (length hdr)) recs.

(** The text of a record in the column [name] (NA past its end). *)
Definition text_at (hdr r : list string) (name : string) : string :=
  match index_of name hdr with Some i => nth i r EmptyString | None => EmptyString end.

Definition cell_at (hdr r : list string) (name : string) : cell := classify (text_at hdr r name).

Definition column_is (ok : list cell -> bool) (hdr : list string) (recs : list (list string))
    (name : string) : bool :=
  match index_of name hdr with
  | Some i => ok (map (fun r => classify (nth i r EmptyString)) recs)
  | None => true
  end.

Definition int_column (cs : list cell) : bool :=
  match dtype_of cs with DInt => true | _ => false end.

Definition str_column (cs : list cell) : bool :=
  match dtype_of cs with DObject => forallb (fun c => negb (is_na_cell c)) cs | _ => false end.

Definition num_column (cs : list cell) : bool :=
  match dtype_of cs with
  | DInt | DFloat => forallb (fun c => match c with CInt _ | CFloat _ => true | _ => false end) cs
  | _ => false
  end.

Definition int_of_cell (c : cell) : Z := match c with CInt z => z | _ => 0%Z end.

Definition q_of_cell (c : cell) : Q :=
  match c with CInt z => inject_Z z | CFloat q => q | _ => 0%Q end.

(** The columns of the per-cycle table hold what the model's rows hold. *)
Definition cycle_columns_ok (hdr : list string) (recs : list (list string)) : bool :=
  match recs with
  | [] => true
  | _ =>
      column_is int_column hdr recs "cycle" && column_is int_column hdr recs "sim_id" &&
      column_is str_column hdr recs "org" && column_is int_column hdr recs "experiment" &&
      column_is int_column hdr recs "generation" && column_is num_column hdr recs "bush_pw_mean"
  end.

Definition decode_cycle_record (hdr r : list string) : cycle_row :=
  CycleRow (int_of_cell (cell_at hdr r "cycle")) (int_of_cell (cell_at hdr r "sim_id"))
    (text_at hdr r "org") (int_of_cell (cell_at hdr r "experiment"))
    (int_of_cell (cell_at hdr r "generation")) (q_of_cell (cell_at hdr r "bush_pw_mean")).

Definition decode_cycle (hdr : list string) (recs : list (list string)) : option (list cycle_row) :=
  if table_ok hdr recs && cycle_columns_ok hdr recs
  then Some (map (decode_cycle_record hdr) recs) else None.

Definition param_columns_ok (hdr : list string) (recs : list (list string)) : bool :=
  match recs with
  | [] => true
  | _ =>
      column_is int_column hdr recs "krat_reproduction_freq_per_x_cycles" &&
      column_is int_column hdr recs "snake_reproduction_freq_per_x_cycles"
  end.

Definition decode_param_record (hdr r : list string) : param_row :=
  ParamRow (int_of_cell (cell_at hdr r "krat_reproduction_freq_per_x_cycles"))
    (int_of_cell (cell_at hdr r "snake_reproduction_freq_per_x_cycles")).

Definition decode_param (hdr : list string) (recs : list (list string)) : option (list param_row) :=
  if table_ok hdr recs && param_columns_ok hdr recs
  then Some (map (decode_param_record hdr) recs) else None.

(** [pd.read_csv] of an input path: [FileNotFoundError],
    [IsADirectoryError], the tokenizer's [ParserError], [EmptyDataError]
    for a text without any record, or the header and the rows; [None]
    for a table the model does not represent. *)
Definition load_text {A} (decode : list string -> list (list string) -> option (list A))
    (e : text_entry) : option (result (list string * list A)) :=
  match e with
  | TMissing => Some (Err FileNotFoundError)
  | TDirectory => Some (Err IsADirectoryError)
  | TFile s =>
      match parse_csv s with
      | Err err => Some (Err err)
      | Ok [] => Some (Err EmptyDataError)
      | Ok (hdr :: recs) => option_map (fun rows => Ok (hdr, rows)) (decode hdr recs)
      end
  end.

(** The program run on the texts of its two inputs: the per-cycle file is
    read first (line 12), then the parameter file (line 13), then the run
    of [Loading.run_loaded]. *)
Definition run_text (pc_t par_t : text_entry) (p : fs_entry) (a : analysis)
  : option (result (list csv_line * option err)) :=
  match load_text decode_cycle pc_t with
  | None => None
  | Some (Err e) => Some (Err e)
  | Some (Ok (cols, rows)) =>
      match load_text decode_param par_t with
      | None => None
      | Some (Err e) => Some (Err e)
      | Some (Ok (pcols, prows)) => Some (run_loaded (InCsv cols rows) (InCsv pcols prows) p a)
      end
  end.

(** ** Input files written from rows *)

(** A float written in scientific notation, [m e-k], and its value. *)
Definition sci (m : Z) (k : nat) : string :=
  str_Z m ++ String "e"%char (String "-"%char (str_Z (Z.of_nat k))).

Definition sci_value (m : Z) (k : nat) : Q := inject_Z m * Qpower (inject_Z 10) (- Z.of_nat k).

(** A per-cycle row whose [bush_pw_mean] is the decimal [m * 10^-k]. *)
Record sample : Type := Sample {
  sm_cycle : Z;
  sm_sim_id : Z;
  sm_org : string;
  sm_experiment : Z;
  sm_generation : Z;
  sm_mantissa : Z;
  sm_scale : nat
}.

Definition sample_row (s : sample) : cycle_row :=
  CycleRow (sm_cycle s) (sm_sim_id s) (sm_org s) (sm_experiment s) (sm_generation s)
    (sci_value (sm_mantissa s) (sm_scale s)).

Definition sample_record (s : sample) : list string :=
  [str_Z (sm_cycle s); str_Z (sm_sim_id s); sm_org s; str_Z (sm_experiment s);
   str_Z (sm_generation s); sci (sm_mantissa s) (sm_scale s)].

Definition per_cycle_text (ss : list sample) : string :=
  write_rows (per_cycle_columns :: map sample_record ss).

Definition param_record (pr : param_row) : list string :=
  [str_Z (krat_reproduction_freq_per_x_cycles pr); str_Z (snake_reproduction_freq_per_x_cycles pr)].

Definition param_text (ps : list param_row) : string :=
  write_rows (parameter_columns :: map param_record ps).

(** The rows such files can hold: integers of [int64], and an organism
    the parser reads as a string. *)
Definition sample_ok (s : sample) : bool :=
  in_int64 (sm_cycle s) && in_int64 (sm_sim_id s) && in_int64 (sm_experiment s) &&
  in_int64 (sm_generation s) &&
  match classify (sm_org s) with CStr _ => true | _ => false end.

Definition param_ok (pr : param_row) : bool :=
  in_int64 (krat_reproduction_freq_per_x_cycles pr) && in_int64 (snake_reproduction_freq_per_x_cycles pr).

(** Two rows with [bush_pw_mean] [1.25] and [-3]. *)
Definition demo_samples : list sample :=
  [Sample 1 0 "bush" 1 1 125 2; Sample 2 0 "bush" 1 1 (-3) 0].

(** ** Fields written by [str()] and in scientific notation *)

(** A character of a written integer: a digit or a minus sign. *)
Definition num_char (c : ascii) : bool := is_digit c || Ascii.eqb c "-"%char.

Definition is_str_cell (c : cell) : bool := match c with CStr _ => true | _ => false end.

Definition is_float_cell (c : cell) : bool := match c with CFloat _ => true | _ => false end.

(** ** Lemmas *)

Lemma uint_chars u : forallb num_char (list_ascii_of_string (NilEmpty.string_of_uint u)) = true.
Proof. induction u; simpl; rewrite ?IHu; reflexivity. Qed.

Lemma str_Z_chars z : forallb num_char (list_ascii_of_string (str_Z z)) = true.
Proof.
  unfold str_Z. destruct (Z.to_int z) as [u|u]; simpl;
    destruct u; simpl; rewrite ?uint_chars; reflexivity.
Qed.

Lemma num_char_not_mark c : num_char c = true -> is_exp_mark c = false /\ is_dot c = false /\
  Ascii.eqb c "+"%char = false.
Proof.
  intro H. unfold is_exp_mark, is_dot.
  destruct (Ascii.eqb_spec c "e"%char); [subst; discriminate|].
  destruct (Ascii.eqb_spec c "E"%char); [subst; discriminate|].
  destruct (Ascii.eqb_spec c "."%char); [subst; discriminate|].
  destruct (Ascii.eqb_spec c "+"%char); [subst; discriminate|]. auto.
Qed.

Lemma split_none p s :
  forallb (fun c => negb (p c)) (list_ascii_of_string s) = true -> split_at p s = (s, None).
Proof.
  induction s as [|c s IH]; [reflexivity|]. simpl. intro H.
  apply andb_true_iff in H as [Hc H]. apply negb_true_iff in Hc. rewrite Hc, IH by exact H.
  reflexivity.
Qed.

Lemma split_app p s c t :
  forallb (fun c => negb (p c)) (list_ascii_of_string s) = true -> p c = true ->
  split_at p (s ++ String c t) = (s, Some t).
Proof.
  intros H Hc. induction s as [|c' s IH]; simpl; [rewrite Hc; reflexivity|].
  simpl in H. apply andb_true_iff in H as [Hc' H]. apply negb_true_iff in Hc'.
  rewrite Hc', IH by exact H. reflexivity.
Qed.

Lemma str_Z_no p z :
  (forall c, num_char c = true -> p c = false) ->
  forallb (fun c => negb (p c)) (list_ascii_of_string (str_Z z)) = true.
Proof.
  intro Hp. pose proof (str_Z_chars z) as H. rewrite forallb_forall in *.
  intros c Hc. rewrite Hp by (apply H, Hc). reflexivity.
Qed.

Lemma append_nil_r (s : string) : s ++ EmptyString = s.
Proof. induction s as [|c s IH]; simpl; [reflexivity | rewrite IH; reflexivity]. Qed.

Lemma int_cell_str_Z z : int_cell (str_Z z) = Some z.
Proof.
  pose proof (int_of_str_Z z) as E. pose proof (str_Z_chars z) as Hc.
  destruct (str_Z z) as [|c r]; [discriminate|]. simpl in Hc.
  apply andb_true_iff in Hc as [Hc _]. destruct (num_char_not_mark c Hc) as (_ & _ & Hp).
  unfold int_cell. rewrite Hp. exact E.
Qed.

(** The exponent [-k] of a written float. *)
Lemma int_cell_minus z : (0 <= z)%Z -> int_cell (String "-"%char (str_Z z)) = Some (- z)%Z.
Proof.
  intro Hz. change (int_cell (String "-"%char (str_Z z))) with (int_of_str (String "-"%char (str_Z z))).
  pose proof (DecimalZ.of_to z) as Ez. unfold int_of_str, str_Z.
  destruct (Z.to_int z) as [u|u] eqn:E; [|destruct z; try lia; discriminate].
  change (String "-"%char (NilZero.string_of_int (Decimal.Pos u)))
    with (NilZero.string_of_int (Decimal.Neg u)).
  destruct u; [subst z; reflexivity|..];
    rewrite NilZero.isi by discriminate; simpl in *; rewrite <- Ez; reflexivity.
Qed.

Lemma uint_e s t : NilEmpty.uint_of_string (s ++ String "e"%char t) = None.
Proof.
  induction s as [|c s IH]; simpl.
  - destruct (NilEmpty.uint_of_string t); reflexivity.
  - rewrite IH. reflexivity.
Qed.

Lemma uint_e0 s t : NilZero.uint_of_string (s ++ String "e"%char t) = None.
Proof.
  destruct s as [|c r]; [simpl; destruct (NilEmpty.uint_of_string t); reflexivity|].
  exact (uint_e (String c r) t).
Qed.

Lemma int_of_str_e s t : int_of_str (s ++ String "e"%char t) = None.
Proof.
  unfold int_of_str.
  destruct s as [|c r]; [simpl; destruct (NilEmpty.uint_of_string t); reflexivity|].
  change (String c r ++ String "e"%char t) with (String c (r ++ String "e"%char t)).
  unfold NilZero.int_of_string. destruct (Ascii.eqb c "-"%char).
  - rewrite uint_e0. reflexivity.
  - change (String c (r ++ String "e"%char t)) with (String c r ++ String "e"%char t).
    rewrite uint_e0. reflexivity.
Qed.

Lemma int_cell_head c r : Ascii.eqb c "+"%char = false -> int_cell (String c r) = int_of_str (String c r).
Proof. intro H. unfold int_cell. rewrite H. reflexivity. Qed.

(** A written float is not an integer field. *)
Lemma int_cell_sci m k : int_cell (sci m k) = None.
Proof.
  unfold sci. pose proof (int_of_str_Z m) as E. pose proof (str_Z_chars m) as Hc.
  pose proof (int_of_str_e (str_Z m) (String "-"%char (str_Z (Z.of_nat k)))) as He.
  destruct (str_Z m) as [|c r]; [discriminate|]. simpl in Hc.
  apply andb_true_iff in Hc as [Hc _]. destruct (num_char_not_mark c Hc) as (_ & _ & Hp).
  change (String c r ++ String "e"%char (String "-"%char (str_Z (Z.of_nat k))))
    with (String c (r ++ String "e"%char (String "-"%char (str_Z (Z.of_nat k))))) in *.
  rewrite int_cell_head by exact Hp. exact He.
Qed.

Lemma float_cell_sci m k : float_cell (sci m k) = Some (sci_value m k).
Proof.
  unfold float_cell, sci.
  rewrite split_app by (reflexivity || (apply str_Z_no; intros c Hc; apply (num_char_not_mark c Hc))).
  rewrite split_none by (apply str_Z_no; intros c Hc; apply (num_char_not_mark c Hc)).
  simpl digits_only. cbv iota beta. rewrite append_nil_r, int_cell_str_Z, int_cell_minus by lia.
  unfold sci_value. simpl String.length. rewrite Z.sub_0_r. reflexivity.
Qed.

Lemma na_int s : string_in s na_values = true -> int_cell s = None.
Proof.
  intro H. apply string_in_iff in H. repeat (destruct H as [<-|H]; [reflexivity|]). destruct H.
Qed.

Lemma na_float s : string_in s na_values = true -> float_cell s = None.
Proof.
  intro H. apply string_in_iff in H. repeat (destruct H as [<-|H]; [vm_compute; reflexivity|]).
  destruct H.
Qed.

Lemma classify_str_Z z : in_int64 z = true -> classify (str_Z z) = CInt z.
Proof.
  intro H. unfold classify. destruct (string_in (str_Z z) na_values) eqn:Hn.
  - apply na_int in Hn. rewrite int_cell_str_Z in Hn. discriminate.
  - rewrite int_cell_str_Z, H. reflexivity.
Qed.

Lemma classify_sci m k : classify (sci m k) = CFloat (sci_value m k).
Proof.
  unfold classify. destruct (string_in (sci m k) na_values) eqn:Hn.
  - apply na_float in Hn. rewrite float_cell_sci in Hn. discriminate.
  - rewrite int_cell_sci. unfold non_int_cell. rewrite float_cell_sci. reflexivity.
Qed.

(** ** Columns *)

Lemma column_is_cells ok hdr recs name :
  index_of name hdr <> None ->
  column_is ok hdr recs name = ok (map (fun r => cell_at hdr r name) recs).
Proof. unfold column_is, cell_at, text_at. destruct (index_of name hdr); congruence. Qed.

Lemma int_column_ints cs : cs <> [] -> forallb is_int_cell cs = true -> int_column cs = true.
Proof. intros Hn H. destruct cs as [|c cs]; [congruence|]. unfold int_column, dtype_of. rewrite H. reflexivity. Qed.

Lemma str_column_strs cs : cs <> [] -> forallb is_str_cell cs = true -> str_column cs = true.
Proof.
  intros Hn H. destruct cs as [|c cs]; [congruence|]. pose proof H as H'.
  simpl in H. apply andb_true_iff in H as [Hc _]. destruct c; try discriminate.
  unfold str_column, dtype_of. simpl forallb at 1 2 3. cbv iota.
  apply (forallb_impl is_str_cell); [intros [] E; simpl in *; congruence | exact H'].
Qed.

Lemma num_column_floats cs : cs <> [] -> forallb is_float_cell cs = true -> num_column cs = true.
Proof.
  intros Hn H. destruct cs as [|c cs]; [congruence|]. pose proof H as H'.
  simpl in H. apply andb_true_iff in H as [Hc _]. destruct c; try discriminate.
  unfold num_column, dtype_of. simpl forallb at 1.
  rewrite (forallb_impl is_float_cell is_num_cell) by first [exact H' | intros [] E; simpl in *; congruence].
  cbv iota.
  apply (forallb_impl is_float_cell); [intros [] E; simpl in *; congruence | exact H'].
Qed.

(** A column every record of which has a field [q] accepts. *)
Lemma column_is_map {B} (ok : list cell -> bool) (q : cell -> bool) (f : B -> list string)
    hdr name (xs : list B) :
  index_of name hdr <> None ->
  (forall cs, cs <> [] -> forallb q cs = true -> ok cs = true) -> xs <> [] ->
  (forall x, In x xs -> q (cell_at hdr (f x) name) = true) ->
  column_is ok hdr (map f xs) name = true.
Proof.
  intros Hi Hok Hn Hx. rewrite column_is_cells by exact Hi. rewrite map_map. apply Hok.
  - destruct xs; simpl; congruence.
  - apply forallb_forall. intros c Hc. apply in_map_iff in Hc as (x & <- & Hx'). auto.
Qed.

(** ** Records written from rows *)

Lemma records_nonempty {B} (f : B -> list string) hdr xs :
  hdr <> [] -> (forall x, f x <> []) -> Forall (fun r => r <> []) (hdr :: map f xs).
Proof.
  intros Hh Hf. constructor; [exact Hh|]. apply Forall_forall. intros r Hr.
  apply in_map_iff in Hr as (x & <- & _). apply Hf.
Qed.

Lemma sample_cells s : sample_ok s = true ->
  decode_cycle_record per_cycle_columns (sample_record s) = sample_row s /\
  is_int_cell (cell_at per_cycle_columns (sample_record s) "cycle") = true /\
  is_int_cell (cell_at per_cycle_columns (sample_record s) "sim_id") = true /\
  is_str_cell (cell_at per_cycle_columns (sample_record s) "org") = true /\
  is_int_cell (cell_at per_cycle_columns (sample_record s) "experiment") = true /\
  is_int_cell (cell_at per_cycle_columns (sample_record s) "generation") = true /\
  is_float_cell (cell_at per_cycle_columns (sample_record s) "bush_pw_mean") = true.
Proof.
  unfold sample_ok. rewrite !andb_true_iff. intros ((((Hc & Hs) & He) & Hg) & Ho).
  assert (Ec : cell_at per_cycle_columns (sample_record s) "cycle" = CInt (sm_cycle s))
    by exact (classify_str_Z _ Hc).
  assert (Es : cell_at per_cycle_columns (sample_record s) "sim_id" = CInt (sm_sim_id s))
    by exact (classify_str_Z _ Hs).
  assert (Ee : cell_at per_cycle_columns (sample_record s) "experiment" = CInt (sm_experiment s))
    by exact (classify_str_Z _ He).
  assert (Eg : cell_at per_cycle_columns (sample_record s) "generation" = CInt (sm_generation s))
    by exact (classify_str_Z _ Hg).
  assert (Eb : cell_at per_cycle_columns (sample_record s) "bush_pw_mean" =
               CFloat (sci_value (sm_mantissa s) (sm_scale s))) by exact (classify_sci _ _).
  unfold decode_cycle_record. rewrite Ec, Es, Ee, Eg, Eb. repeat split; exact Ho.
Qed.

Lemma param_cells pr : param_ok pr = true ->
  decode_param_record parameter_columns (param_record pr) = pr /\
  is_int_cell (cell_at parameter_columns (param_record pr) "krat_reproduction_freq_per_x_cycles") = true /\
  is_int_cell (cell_at parameter_columns (param_record pr) "snake_reproduction_freq_per_x_cycles") = true.
Proof.
  destruct pr as [k n]. unfold param_ok. rewrite andb_true_iff. intros [Hk Hn].
  assert (Ek : cell_at parameter_columns (param_record (ParamRow k n))
                 "krat_reproduction_freq_per_x_cycles" = CInt k) by exact (classify_str_Z _ Hk).
  assert (En : cell_at parameter_columns (param_record (ParamRow k n))
                 "snake_reproduction_freq_per_x_cycles" = CInt n) by exact (classify_str_Z _ Hn).
  unfold decode_param_record. rewrite Ek, En. auto.
Qed.

(** The steps of [column_is_map] for the columns of a table. *)
Ltac columns_of cells Hs :=
  repeat split;
  first [ apply (column_is_map int_column is_int_cell)
        | apply (column_is_map str_column is_str_cell)
        | apply (column_is_map num_column is_float_cell) ];
  first [ discriminate | exact int_column_ints | exact str_column_strs | exact num_column_floats
        | let x := fresh "x" in let Hx := fresh "Hx" in
          intros x Hx; pose proof (cells x (Hs x Hx)); intuition ].

Lemma table_ok_records {B} hdr (f : B -> list string) xs :
  distinct hdr && forallb (fun n => negb (String.eqb n EmptyString)) hdr = true ->
  (forall x, length (f x) = length hdr) -> table_ok hdr (map f xs) = true.
Proof.
  intros Hh Hf. unfold table_ok. rewrite Hh. simpl. apply forallb_forall. intros r Hr.
  apply in_map_iff in Hr as (x & <- & _). rewrite Hf. apply Nat.leb_refl.
Qed.

Lemma decode_samples ss : forallb sample_ok ss = true ->
  decode_cycle per_cycle_columns (map sample_record ss) = Some (map sample_row ss).
Proof.
  intro H. rewrite forallb_forall in H. unfold decode_cycle.
  rewrite table_ok_records by reflexivity.
  replace (cycle_columns_ok per_cycle_columns (map sample_record ss)) with true.
  - cbn [andb]. rewrite map_map. f_equal. apply map_ext_in. intros x Hx.
    apply (sample_cells x (H x Hx)).
  - destruct ss as [|s0 ss']; [reflexivity|]. symmetry. unfold cycle_columns_ok.
    change (map sample_record (s0 :: ss')) with (sample_record s0 :: map sample_record ss').
    cbv iota. change (sample_record s0 :: map sample_record ss') with (map sample_record (s0 :: ss')).
    rewrite !andb_true_iff. assert (Hs : forall x, In x (s0 :: ss') -> sample_ok x = true) by exact H.
    columns_of sample_cells Hs.
Qed.

Lemma decode_params ps : forallb param_ok ps = true ->
  decode_param parameter_columns (map param_record ps) = Some ps.
Proof.
  intro H. rewrite forallb_forall in H. unfold decode_param.
  rewrite table_ok_records by reflexivity.
  replace (param_columns_ok parameter_columns (map param_record ps)) with true.
  - cbn [andb]. rewrite map_map. f_equal. rewrite <- (map_id ps) at 2. apply map_ext_in.
    intros x Hx. apply (param_cells x (H x Hx)).
  - destruct ps as [|p0 ps']; [reflexivity|]. symmetry. unfold param_columns_ok.
    change (map param_record (p0 :: ps')) with (param_record p0 :: map param_record ps').
    cbv iota. change (param_record p0 :: map param_record ps') with (map param_record (p0 :: ps')).
    rewrite !andb_true_iff. assert (Hs : forall x, In x (p0 :: ps') -> param_ok x = true) by exact H.
    columns_of param_cells Hs.
Qed.

Lemma load_samples ss : forallb sample_ok ss = true ->
  load_text decode_cycle (TFile (per_cycle_text ss)) = Some (Ok (per_cycle_columns, map sample_row ss)).
Proof.
  intro H. unfold load_text, per_cycle_text.
  rewrite parse_write_rows by (apply records_nonempty; discriminate).
  cbv iota. rewrite decode_samples by exact H. reflexivity.
Qed.

Lemma load_params ps : forallb param_ok ps = true ->
  load_text decode_param (TFile (param_text ps)) = Some (Ok (parameter_columns, ps)).
Proof.
  intro H. unfold load_text, param_text.
  rewrite parse_write_rows by (apply records_nonempty; discriminate).
  cbv iota. rewrite decode_params by exact H. reflexivity.
Qed.

Lemma load_empty {B} (decode : list string -> list (list string) -> option (list B)) :
  load_text decode (TFile EmptyString) = Some (Err EmptyDataError).
Proof. reflexivity. Qed.

(** ** Properties *)

(** [pd.read_csv] reads back the per-cycle and parameter files
    written from rows, with the column types pandas infers: each integer
    written by [str()] is read as an [int64] field of an [int64] column,
    the organism as a string of an [object] column, and [bush_pw_mean],
    written in scientific notation, as the float [m * 10^-k] of a
    [float64] column; so the rows are the rows written.  A quote opened
    and never closed is a [ParserError], and an empty file an
    [EmptyDataError]. *)
Theorem per_cycle_file_roundtrip ss ps s :
  forallb sample_ok ss = true -> forallb param_ok ps = true ->
  existsb (Ascii.eqb dquote) (list_ascii_of_string s) = false ->
  load_text decode_cycle (TFile (per_cycle_text ss)) = Some (Ok (per_cycle_columns, map sample_row ss)) /\
  load_text decode_param (TFile (param_text ps)) = Some (Ok (parameter_columns, ps)) /\
  load_text decode_cycle (TFile (per_cycle_text ss ++ String dquote s)) = Some (Err ParserError) /\
  load_text decode_cycle (TFile EmptyString) = Some (Err EmptyDataError).
Proof.
  intros Hs Hp Hq. split; [apply load_samples, Hs|]. split; [apply load_params, Hp|].
  split; [|apply load_empty]. unfold load_text, per_cycle_text.
  rewrite parse_unterminated by (exact Hq || (apply records_nonempty; discriminate)). reflexivity.
Qed.

(** C12: the program run on the texts of its two input files: on files
    written from rows it is the analysis of those rows
    ([Orchestrator.run_analysis]); a missing per-cycle file is a
    [FileNotFoundError], a parameter path that is a directory an
    [IsADirectoryError] once the per-cycle file is read, and the
    per-cycle file is read first, so an empty per-cycle file is an
    [EmptyDataError] even when the parameter file is missing. *)
Theorem run_from_files ss ps p a :
  forallb sample_ok ss = true -> forallb param_ok ps = true ->
  run_text (TFile (per_cycle_text ss)) (TFile (param_text ps)) p a =
    Some (run_analysis p a (map sample_row ss) ps) /\
  run_text TMissing (TFile (param_text ps)) p a = Some (Err FileNotFoundError) /\
  run_text (TFile (per_cycle_text ss)) TDirectory p a = Some (Err IsADirectoryError) /\
  run_text (TFile EmptyString) TMissing p a = Some (Err EmptyDataError).
Proof.
  intros Hs Hp. unfold run_text. rewrite load_samples by exact Hs.
  rewrite load_params by exact Hp. repeat split.
  f_equal. apply run_loaded_all_columns; apply incl_refl.
Qed.

(** ** Witnesses *)

Lemma per_cycle_file_roundtrip_witness :
  forallb sample_ok demo_samples = true /\ forallb param_ok [ParamRow 2 5] = true /\
  existsb (Ascii.eqb dquote) (list_ascii_of_string "x") = false /\
  load_text decode_cycle (TFile (per_cycle_text demo_samples)) =
    Some (Ok (per_cycle_columns, map sample_row demo_samples)) /\
  load_text decode_param (TFile (param_text [ParamRow 2 5])) = Some (Ok (parameter_columns, [ParamRow 2 5])) /\
  load_text decode_cycle (TFile (per_cycle_text demo_samples ++ String dquote "x")) = Some (Err ParserError) /\
  load_text decode_cycle (TFile EmptyString) = Some (Err EmptyDataError).
Proof.
  do 3 (split; [vm_compute; reflexivity|]).
  apply (per_cycle_file_roundtrip demo_samples [ParamRow 2 5] "x"); vm_compute; reflexivity.
Defined.

Lemma run_from_files_witness :
  forallb sample_ok demo_samples = true /\ forallb param_ok [ParamRow 2 5] = true /\
  run_text (TFile (per_cycle_text demo_samples)) (TFile (param_text [ParamRow 2 5])) NoEntry
    (default_analysis "exp") = Some (run_analysis NoEntry (default_analysis "exp")
                                        (map sample_row demo_samples) [ParamRow 2 5]) /\
  run_text TMissing (TFile (param_text [ParamRow 2 5])) NoEntry (default_analysis "exp") =
    Some (Err FileNotFoundError) /\
  run_text (TFile (per_cycle_text demo_samples)) TDirectory NoEntry (default_analysis "exp") =
    Some (Err IsADirectoryError) /\
  run_text (TFile EmptyString) TMissing NoEntry (default_analysis "exp") = Some (Err EmptyDataError).
Proof.
  do 2 (split; [vm_compute; reflexivity|]).
  apply (run_from_files demo_samples [ParamRow 2 5]); vm_compute; reflexivity.
Defined.

End LoadText.
