(* ===== verification/Packaging.v ===== *)
(** * Packaging

    [src/setup.py]: it reads [README.md] as the long description (lines
    7-8) and calls [setup] (lines 10-34) with the package metadata,
    [package_dir={"": "src"}] and [packages=find_packages(where="src")].
    The source tree is an explicit value ([dir_tree]); [find_packages] is
    setuptools' package finder as it walks the tree: a directory is a
    package when it holds an [__init__.py] and its name has no dot, and
    the walk only descends into packages.  The file holds the finder's
    characterization (a package is a chain of package directories) and
    what the repository's own tree installs. *)

From Stdlib Require Import String Ascii List Bool Lia.
From S2P Require Import Prelude.
Import ListNotations.
Open Scope string_scope.

Module Packaging.

(** A directory: its name, the names of its files, its subdirectories. *)
#[warnings="-register-all"]
Inductive dir_tree : Type :=
| Dir (name : string) (files : list string) (subdirs : list dir_tree).

(** Induction on trees, with the hypothesis on every subdirectory. *)
Fixpoint dir_tree_ind' (P : dir_tree -> Prop)
    (H : forall n fs subs, Forall P subs -> P (Dir n fs subs)) (d : dir_tree) : P d :=
  match d with
  | Dir n fs subs =>
      H n fs subs
        ((fix go (l : list dir_tree) : Forall P l :=
            match l with
            | [] => Forall_nil P
            | s :: t => Forall_cons s (dir_tree_ind' P H s) (go t)
            end) subs)
  end.

Definition dir_subdirs (d : dir_tree) : list dir_tree := match d with Dir _ _ subs => subs end.

(** [_looks_like_package]: the directory holds an [__init__.py]. *)
Definition has_init (files : list string) : bool := string_in "__init__.py" files.

(** [\'.\' in dir]. *)
Definition has_dot (n : string) : bool := existsb (Ascii.eqb "."%char) (list_ascii_of_string n).

(** The dotted name of a directory below the package [prefix]. *)
Definition qualify (prefix n : string) : string :=
  if String.eqb prefix "" then n else prefix ++ "." ++ n.

(** The packages found at and below one directory, in walk order: none
    when it is not a package (the walk does not descend into it). *)
Fixpoint find_in (prefix : string) (d : dir_tree) : list string :=
  match d with
  | Dir n fs subs =>
      if has_dot n || negb (has_init fs) then []
      else qualify prefix n :: flat_map (find_in (qualify prefix n)) subs
  end.

(** [find_packages(where=...)]: the packages among the subdirectories of
    [where] (the default [include=('*',)] and [exclude=()] keep all). *)
Definition find_packages (src_root : dir_tree) : list string :=
  match src_root with Dir _ _ subs => flat_map (find_in "") subs end.

(** A Python source file name, [f.endswith(".py")]. *)
Definition is_py (f : string) : bool :=
  let n := String.length f in Nat.leb 3 n && String.eqb (substring (n - 3)%nat 3 f) ".py".

(** The modules of a package directory: its [.py] files but
    [__init__.py]. *)
Definition py_modules_of (pkg : string) (files : list string) : list string :=
  flat_map (fun f => if is_py f && negb (String.eqb f "__init__.py")
                     then [pkg ++ "." ++ substring 0 (String.length f - 3)%nat f] else [])
           files.

(** The importable modules a distribution installs: the modules of the
    package directories [find_packages] returned. *)
Fixpoint modules_in (prefix : string) (d : dir_tree) : list string :=
  match d with
  | Dir n fs subs =>
      if has_dot n || negb (has_init fs) then []
      else qualify prefix n :: py_modules_of (qualify prefix n) fs ++
           flat_map (modules_in (qualify prefix n)) subs
  end.

Definition installed_modules (src_root : dir_tree) : list string :=
  match src_root with Dir _ _ subs => flat_map (modules_in "") subs end.

(** The arguments of the [setup] call (lines 10-34).  No
    [install_requires] is given: the distribution declares no dependency. *)
Record setup_args : Type := SetupArgs {
  dist_name : string;
  version : string;
  url : string;
  author : string;
  author_email : string;
  license : string;
  classifiers : list string;
  package_dir : list (string * string);
  description : string;
  long_description : string;
  long_description_content_type : string;
  packages : list string;
  python_requires : string;
  install_requires : list string
}.

(** What [open("README.md")] finds. *)
Inductive readme_entry : Type :=
| ReadmeMissing
| ReadmeDirectory
| ReadmeFile (contents : string).

(** [setup.py] run in a directory holding [readme] and the tree [src]. *)
Definition setup_py (readme : readme_entry) (src : dir_tree) : result setup_args :=
  match readme with
  | ReadmeMissing => Err FileNotFoundError
  | ReadmeDirectory => Err IsADirectoryError
  | ReadmeFile long_desc =>
      Ok (SetupArgs "oscillator_classification" "0.0.1"
            "https://github.com/michaelremington2/oscillator_classification"
            "Michael Remington" "michaelremington2@gmail.com" "LICENSE.txt"
            ["Intended Audience :: Science/Research"; "License :: OSI Approved :: BSD License";
             "Natural Language :: English"; "Operating System :: OS Independent";
             "Programming Language :: Python :: 3"]
            [("", "src")]
            "Algorithm of identifying optima points on a deterministic or stochastic time series graphs."
            long_desc "text/markdown" (find_packages src) ">=3.6" [])
  end.

(** A directory [n] reached through a chain of package directories from
    [prefix] is a package; the inductive form of the finder's walk. *)
Inductive is_package : string -> dir_tree -> string -> Prop :=
| pkg_here prefix n fs subs :
    has_dot n = false -> has_init fs = true ->
    is_package prefix (Dir n fs subs) (qualify prefix n)
| pkg_below prefix n fs subs s p :
    has_dot n = false -> has_init fs = true -> In s subs ->
    is_package (qualify prefix n) s p -> is_package prefix (Dir n fs subs) p.

(** The repository's source tree: [src/setup.py] and
    [src/oscillator_classification/multi_sim_analysis.py]. *)
Definition repository_src : dir_tree :=
  Dir "src" ["setup.py"] [Dir "oscillator_classification" ["multi_sim_analysis.py"] []].

(** The same tree with an [__init__.py] in the package directory. *)
Definition repository_src_with_init : dir_tree :=
  Dir "src" ["setup.py"]
    [Dir "oscillator_classification" ["__init__.py"; "multi_sim_analysis.py"] []].

Lemma In_flat_map_iff {A B} (f : A -> list B) l y :
  In y (flat_map f l) <-> exists x, In x l /\ In y (f x).
Proof.
  rewrite in_flat_map. split; intros (x & H1 & H2); exists x; split; assumption.
Qed.

(** The finder's walk finds exactly the directories reached through a
    chain of package directories. *)
Lemma find_in_spec d : forall prefix p, In p (find_in prefix d) <-> is_package prefix d p.
Proof.
  induction d as [n fs subs IH] using dir_tree_ind'. intros prefix p. simpl.
  destruct (has_dot n) eqn:Hd, (has_init fs) eqn:Hi; simpl.
  - split; [contradiction | intro H; inversion H; congruence].
  - split; [contradiction | intro H; inversion H; congruence].
  - rewrite In_flat_map_iff. split.
    + intros [<- | (s & Hs & Hp)]; [apply pkg_here; assumption|].
      apply (pkg_below _ _ _ _ s); try assumption.
      apply (proj1 (Forall_forall _ _) IH s Hs). assumption.
    + intro H. inversion H as [? ? ? ? Hd' Hi' | ? ? ? ? s' ? Hd' Hi' Hs Hp]; subst; [left; reflexivity|].
      right. exists s'. split; [assumption|].
      apply (proj1 (Forall_forall _ _) IH s' Hs). assumption.
  - split; [contradiction | intro H; inversion H; congruence].
Qed.

(** The packaging of [src/setup.py]: [find_packages] finds exactly
    the directories reached from the source root through a chain of
    directories holding an [__init__.py]; the repository's package
    directory has none, so the distribution lists no package, installs
    no module and declares no dependency (pandas and numpy included),
    while with an [__init__.py] it would install
    [oscillator_classification.multi_sim_analysis]; without a
    [README.md] the script raises [FileNotFoundError]. *)
Theorem setup_installs_nothing :
  (forall src p, In p (find_packages src) <-> exists s, In s (dir_subdirs src) /\ is_package "" s p) /\
  (forall t, exists args, setup_py (ReadmeFile t) repository_src = Ok args /\
     packages args = [] /\ install_requires args = []) /\
  installed_modules repository_src = [] /\
  installed_modules repository_src_with_init =
    ["oscillator_classification"; "oscillator_classification.multi_sim_analysis"] /\
  setup_py ReadmeMissing repository_src = Err FileNotFoundError.
Proof.
  split; [|split; [|split; [|split]]]; try reflexivity.
  - intros [n fs subs] p. simpl. rewrite In_flat_map_iff.
    split; intros (s & Hs & Hp); exists s; split; try assumption; apply find_in_spec; assumption.
  - intro t. eexists. split; [reflexivity|]. split; reflexivity.
Qed.

End Packaging.
