(* ===== verification/Script.v ===== *)
(** * The module's top level and its script entry point

    Executing [src/oscillator_classification/multi_sim_analysis.py]: the
    imports of lines 2-7 (each binds a name when its module is
    importable and otherwise raises [ModuleNotFoundError], stopping the
    module), the [class] statement of line 10 (binding
    [Experiment_Per_Cycle_Analysis]), and the block of lines 119-120,
    [if __name__=="__main__": main()], which looks [main] up in the
    module's namespace.  The environment is the list of importable
    module names. *)

From Stdlib Require Import String List Bool.
From S2P Require Import Prelude Packaging.
Import ListNotations.
Import Packaging.
Open Scope string_scope.

Module Script.

(** Lines 2-7: the imported module and the name each [import] binds. *)
Definition imports : list (string * string) :=
  [("pandas", "pd"); ("numpy", "np"); ("csv", "csv"); ("os", "os"); ("time", "time");
   ("single_sim_analysis", "ipc")].

(** The imports in order: the first module that is not importable raises
    [ModuleNotFoundError]. *)
Fixpoint exec_imports (env : list string) (imps : list (string * string)) (ns : list string)
  : result (list string) :=
  match imps with
  | [] => Ok ns
  | (m, alias) :: t => if string_in m env then exec_imports env t (alias :: ns) else Err ModuleNotFoundError
  end.

(** Line 10: the class statement. *)
Definition class_name : string := "Experiment_Per_Cycle_Analysis".

(** The file executed as the module [module_name]: imports, class, and
    the [__main__] block, which calls [main] if the namespace binds it
    (no execution binds it) and otherwise raises [NameError]. *)
Definition exec_module (env : list string) (module_name : string) : result (list string) :=
  let* ns := exec_imports env imports [] in
  let ns' := class_name :: ns in
  if String.eqb module_name "__main__" then
    if string_in "main" ns' then Ok ns' else Err NameError
  else Ok ns'.

(** The standard-library modules the file imports, present in every
    Python installation. *)
Definition python_stdlib : list string := ["csv"; "os"; "time"].

(** An environment with the standard library, pandas and numpy, and what
    the (fixed) distribution of the repository installs. *)
Definition installed_env : list string :=
  (python_stdlib ++ ["pandas"; "numpy"] ++ installed_modules repository_src_with_init)%list.

(** The imports succeed exactly when every imported module is
    importable, binding the aliases in order. *)
Lemma exec_imports_ok env imps ns :
  exec_imports env imps ns =
  if forallb (fun mi => string_in (fst mi) env) imps then Ok (rev (map snd imps) ++ ns)%list
  else Err ModuleNotFoundError.
Proof.
  revert ns. induction imps as [|[m alias] t IH]; intro ns; [reflexivity|]. simpl.
  destruct (string_in m env); simpl; [|reflexivity].
  rewrite IH. destruct (forallb _ t); [|reflexivity]. rewrite <- app_assoc. reflexivity.
Qed.

Lemma imports_available env :
  forallb (fun mi => string_in (fst mi) env) imports = true <->
  (forall m, In m (map fst imports) -> In m env).
Proof.
  rewrite forallb_forall. split.
  - intros H m Hm. apply in_map_iff in Hm as (mi & <- & Hmi). apply string_in_iff, H, Hmi.
  - intros H mi Hmi. apply string_in_iff, H, in_map. assumption.
Qed.

(** C28: executing the file never reaches an analysis: run as a script
    it raises [ModuleNotFoundError] when an imported module is missing
    and otherwise [NameError] at line 120 ([main] is not defined);
    imported as a module it binds [Experiment_Per_Cycle_Analysis]
    exactly when every imported module is importable; and in an
    environment with pandas, numpy and what the repository's
    distribution installs (even with the package marked by an
    [__init__.py]), importing it raises [ModuleNotFoundError], since
    [single_sim_analysis] is not part of the distribution. *)
Theorem script_entry_fails env :
  (exec_module env "__main__" = Err NameError <-> (forall m, In m (map fst imports) -> In m env)) /\
  (exec_module env "__main__" = Err ModuleNotFoundError <-> ~ (forall m, In m (map fst imports) -> In m env)) /\
  (forall name, name <> "__main__" ->
     ((exists ns, exec_module env name = Ok ns /\ In class_name ns) <->
      (forall m, In m (map fst imports) -> In m env))) /\
  exec_module installed_env "oscillator_classification.multi_sim_analysis" = Err ModuleNotFoundError.
Proof.
  pose proof (imports_available env) as HA. unfold exec_module. rewrite exec_imports_ok.
  split; [|split; [|split; [|reflexivity]]].
  - rewrite <- HA. destruct (forallb _ imports); simpl; split; congruence.
  - rewrite <- HA. destruct (forallb _ imports); simpl; split; congruence.
  - intros name Hn. rewrite (proj2 (String.eqb_neq name "__main__") Hn), <- HA.
    destruct (forallb _ imports); simpl; split.
    + intros _. reflexivity.
    + intros _. eexists. split; [reflexivity | left; reflexivity].
    + intros (ns & E & _). discriminate.
    + discriminate.
Qed.

End Script.
